(** * Multi-LLM agent: orchestration and resilience layer

    A shallow embedding of the Python sources (agent.py, config.py and the
    llms package) together with the properties proved about them.

    Conventions of the embedding.
    - A Python [str] is a [string] whose characters are read as code points
      below 256; [PyStr] gives the string methods the sources call.
    - A Python [dict] used as a map is a [gmap]; two dicts are equal when
      they hold the same items, whatever the insertion order.
    - A time or a delay in seconds is a rational ([Q]): the rounding of
      floating-point arithmetic is left out.  A sampling parameter, which
      may be any float, is a [Config.pyfloat]; so is a delay where the
      code can leave the finite floats.
    - The file system is part of the environment: the cache directory is
      an interface ([CacheSync.FileSystem]) of which nothing is assumed,
      and what a property needs of it is a hypothesis of that property.
    - The functions of the libraries the sources call (hashlib, json,
      asyncio's semaphore, pydantic) are modelled after their
      documentation; where this is an interface rather than a function,
      the module says so.
    - A call that can raise returns a [result]; a method that mutates its
      object returns the new object, also when it raises. *)

From Stdlib Require Import ZArith QArith Lqa Lia List String Ascii Bool.
From Stdlib Require Import DecimalString.
From stdpp Require Import gmap strings list sorting.

Set Warnings "-register-all".
#[local] Open Scope string_scope.
#[local] Open Scope list_scope.
#[local] Open Scope Z_scope.

(* ===================================================================== *)
(** * Python strings *)
(* ===================================================================== *)

Module PyStr.

(** The code point of a character. *)
Definition ord (c : ascii) : N := N_of_ascii c.

(** [str.isspace] on one character (code points below 256). *)
Definition isspace (c : ascii) : bool :=
  let n := ord c in
  (((9 <=? n) && (n <=? 13)) || ((28 <=? n) && (n <=? 32))
   || (n =? 133) || (n =? 160))%N.

(** [str.isdigit] on one character: the decimal digits and the three
    superscript digits of Latin-1. *)
Definition isdigit (c : ascii) : bool :=
  let n := ord c in
  (((48 <=? n) && (n <=? 57)) || (n =? 178) || (n =? 179) || (n =? 185))%N.

(** [str.lower] on one character. *)
Definition lower_char (c : ascii) : ascii :=
  let n := ord c in
  if (((65 <=? n) && (n <=? 90))
      || ((192 <=? n) && (n <=? 222) && negb (n =? 215)))%N
  then ascii_of_N (n + 32) else c.

Fixpoint lower (s : string) : string :=
  match s with
  | EmptyString => EmptyString
  | String c s' => String (lower_char c) (lower s')
  end.

Fixpoint lstrip (s : string) : string :=
  match s with
  | EmptyString => EmptyString
  | String c s' => if isspace c then lstrip s' else s
  end.

Fixpoint rstrip (s : string) : string :=
  match s with
  | EmptyString => EmptyString
  | String c s' =>
      match rstrip s' with
      | EmptyString => if isspace c then EmptyString else String c EmptyString
      | r => String c r
      end
  end.

(** [s.strip()] *)
Definition strip (s : string) : string := rstrip (lstrip s).

(** Truth value of a string: [bool(s)]. *)
Definition truthy (s : string) : bool :=
  match s with EmptyString => false | String _ _ => true end.

(** [s.split(sep)] for a one-character separator. *)
Fixpoint split (sep : ascii) (s : string) : list string :=
  match s with
  | EmptyString => [EmptyString]
  | String c s' =>
      if Ascii.eqb c sep then EmptyString :: split sep s'
      else match split sep s' with
           | h :: t => String c h :: t
           | [] => [String c EmptyString]
           end
  end.

(** [s.split(sep, maxsplit)] for a one-character separator. *)
Fixpoint splitn (sep : ascii) (s : string) (maxsplit : nat) {struct s}
  : list string :=
  match s with
  | EmptyString => [EmptyString]
  | String c s' =>
      match maxsplit with
      | O => [s]
      | S k =>
          if Ascii.eqb c sep then EmptyString :: splitn sep s' k
          else match splitn sep s' maxsplit with
               | h :: t => String c h :: t
               | [] => [String c EmptyString]
               end
      end
  end.

(** [l[-1]] on a list of strings that is known to be non-empty. *)
Definition last_item (l : list string) : string := List.last l EmptyString.

(** [sep.join(l)] *)
Fixpoint join (sep : string) (l : list string) : string :=
  match l with
  | [] => EmptyString
  | x :: rest =>
      match rest with
      | [] => x
      | _ :: _ => x +:+ sep +:+ join sep rest
      end
  end.

(** [s.split()]: the maximal runs of non-whitespace characters. [cur] is
    the run being read, in reverse. *)
Fixpoint words_go (cur : list ascii) (s : string) : list string :=
  let flush (k : list string) :=
    match cur with
    | [] => k
    | _ :: _ => string_of_list_ascii (rev cur) :: k
    end in
  match s with
  | EmptyString => flush []
  | String c s' =>
      if isspace c then flush (words_go [] s') else words_go (c :: cur) s'
  end.

Definition split_ws (s : string) : list string := words_go [] s.

(** [s.startswith(p)] *)
Fixpoint startswith (p s : string) : bool :=
  match p, s with
  | EmptyString, _ => true
  | String a p', String b s' => Ascii.eqb a b && startswith p' s'
  | String _ _, EmptyString => false
  end.

(** [sub in s] *)
Fixpoint contains (sub s : string) : bool :=
  startswith sub s ||
  match s with
  | EmptyString => false
  | String _ s' => contains sub s'
  end.

(** [c in s] for one character. *)
Fixpoint has_char (c : ascii) (s : string) : bool :=
  match s with
  | EmptyString => false
  | String a s' => Ascii.eqb a c || has_char c s'
  end.

(** [s[:n]] *)
Fixpoint prefix (n : nat) (s : string) : string :=
  match n, s with
  | S k, String c s' => String c (prefix k s')
  | _, _ => EmptyString
  end.

(** [str(n)] for an [int]. *)
Definition str_of_int (z : Z) : string := NilEmpty.string_of_int (Z.to_int z).

Definition newline : ascii := "010"%char.

End PyStr.

(* ===================================================================== *)
(** * llms/errors.py *)
(* ===================================================================== *)

Module Errors.

(** The exception classes of the taxonomy, and the classes of Python and of
    its libraries that the modelled code can meet. *)
Inductive exn_class :=
| Exception
| LLMError
| ValidationError
| RateLimitError
| APIError
| CacheError
| ConfigurationError
| ReasoningError
| PlannerError
| ExecutorError
| ImageProcessingError
| RetryError
| AuthenticationError
| QuotaExceededError
| InvalidRequestError
| ServiceUnavailableError
| ValueError
| KeyError
| IndexError
| TypeError
| TimeoutError
| JSONDecodeError
| PydanticValidationError
| OverflowError
| OSError.

#[global] Instance exn_class_eq_dec : EqDecision exn_class.
Proof. solve_decision. Defined.

(** The nearest base class among these, [None] for [Exception] itself. *)
Definition base_class (c : exn_class) : option exn_class :=
  match c with
  | Exception => None
  | LLMError => Some Exception
  | ValidationError | RateLimitError | APIError | CacheError
  | ConfigurationError | ReasoningError | PlannerError | ExecutorError
  | ImageProcessingError | RetryError => Some LLMError
  | AuthenticationError | QuotaExceededError | InvalidRequestError
  | ServiceUnavailableError => Some APIError
  | ValueError | KeyError | IndexError | TypeError | TimeoutError
  | OverflowError | OSError => Some Exception
  | JSONDecodeError | PydanticValidationError => Some ValueError
  end.

Fixpoint subclass_fuel (n : nat) (c d : exn_class) : bool :=
  bool_decide (c = d) ||
  match n with
  | O => false
  | S k => match base_class c with
           | Some b => subclass_fuel k b d
           | None => false
           end
  end.

(** [issubclass(c, d)]; no chain of base classes is longer than three. *)
Definition issubclass (c d : exn_class) : bool := subclass_fuel 3 c d.

(** A raised exception: its class, [str(e)], and the two attributes of an
    [APIError]. *)
Record exn := mk_exn {
  cls : exn_class;
  message : string;
  status_code : option Z;
  response : option string
}.

(** An exception built from a message alone. *)
Definition error (c : exn_class) (msg : string) : exn := mk_exn c msg None None.

(** [isinstance(e, d)], the test of an [except d] clause. *)
Definition isinstance (e : exn) (d : exn_class) : bool := issubclass (cls e) d.

(** The outcome of a call: a value, or a raised exception. *)
Inductive result (A : Type) :=
| Ok (a : A)
| Raise (e : exn).
Arguments Ok {A} a.
Arguments Raise {A} e.

Definition error_map (status_code : Z) (response_text : option string)
  : gmap Z exn :=
  let api (c : exn_class) (msg : string) :=
    mk_exn c msg (Some status_code) response_text in
  list_to_map
    [ (400, api InvalidRequestError "Invalid request");
      (401, api AuthenticationError "Authentication failed");
      (403, api AuthenticationError "Permission denied");
      (429, api QuotaExceededError "Rate limit exceeded");
      (500, api ServiceUnavailableError "Internal server error");
      (502, api ServiceUnavailableError "Bad gateway");
      (503, api ServiceUnavailableError "Service unavailable");
      (504, api ServiceUnavailableError "Gateway timeout") ].

Definition raise_for_status_code (status_code : Z) (response_text : option string)
  : result unit :=
  if 400 <=? status_code then
    Raise (default
             (mk_exn APIError
                ("HTTP " +:+ PyStr.str_of_int status_code +:+ " error")
                (Some status_code) response_text)
             (error_map status_code response_text !! status_code))
  else Ok tt.

End Errors.

(* ===================================================================== *)
(** * config.py *)
(* ===================================================================== *)

Module Config.
Import Errors.

(** A Python float as far as comparisons see it. *)
Inductive pyfloat :=
| Finite (q : Q)
| PosInf
| NegInf
| NaN.

(** [a <= b] on floats. *)
Definition fle (a b : pyfloat) : bool :=
  match a, b with
  | NaN, _ | _, NaN => false
  | NegInf, _ => true
  | _, PosInf => true
  | Finite x, Finite y => Qle_bool x y
  | _, _ => false
  end.

(** The chained comparison [lo <= x <= hi]. *)
Definition between (lo x hi : pyfloat) : bool := fle lo x && fle x hi.

Record CacheConfig := mk_CacheConfig {
  enabled : bool;
  cache_system_messages : bool;
  cache_user_messages : bool;
  min_cache_size : Z;
  ttl_seconds : Z
}.

(** [CacheConfig(...)] with the dataclass defaults for the fields the
    default configurations leave out. *)
Definition default_CacheConfig : CacheConfig :=
  mk_CacheConfig true true true 100 300.

Record LLMConfig := mk_LLMConfig {
  model : string;
  api_key : string;
  provider : string;
  temperature : pyfloat;
  max_tokens : option Z;
  top_p : pyfloat;
  top_k : option Z;
  presence_penalty : pyfloat;
  frequency_penalty : pyfloat;
  cache_config : CacheConfig;
  extra_config : gmap string string
}.

Definition __post_init__ (self : LLMConfig) : result unit :=
  if negb (between (Finite 0) (temperature self) (Finite 2)) then
    Raise (error ValueError "Temperature must be between 0.0 and 2.0")
  else if negb (between (Finite 0) (top_p self) (Finite 1)) then
    Raise (error ValueError "Top-p must be between 0.0 and 1.0")
  else if negb (between (Finite (-2)) (presence_penalty self) (Finite 2)) then
    Raise (error ValueError "Presence penalty must be between -2.0 and 2.0")
  else if negb (between (Finite (-2)) (frequency_penalty self) (Finite 2)) then
    Raise (error ValueError "Frequency penalty must be between -2.0 and 2.0")
  else Ok tt.

(** Construction of the dataclass: the generated [__init__] stores the
    fields and calls [__post_init__]. *)
Definition LLMConfig_init (fields : LLMConfig) : result LLMConfig :=
  match __post_init__ fields with
  | Ok _ => Ok fields
  | Raise e => Raise e
  end.

(** The default configurations.  The API key and the site URL are read from
    the environment when the module is loaded. *)
Definition default_config (model : string) (temperature : Q)
    (api_key site_url : string) : LLMConfig :=
  mk_LLMConfig model api_key "openrouter" (Finite temperature) None (Finite 1)
    None (Finite 0) (Finite 0) default_CacheConfig
    (<["site_url" := site_url]> (<["app_name" := "Multi-LLM Agent"]> ∅)).

Definition REASONING_CONFIG := default_config "openai/o1-preview" (7 # 10).
Definition PLANNING_CONFIG :=
  default_config "anthropic/claude-3.5-sonnet:beta" (7 # 10).
Definition EXECUTOR_CONFIG :=
  default_config "anthropic/claude-3-5-haiku:beta" (1 # 2).

(** In the words of the specification: a float inside the closed range. *)
Definition within (lo hi : Q) (x : pyfloat) : Prop :=
  match x with
  | Finite q => (lo <= q /\ q <= hi)%Q
  | _ => False
  end.

End Config.

(* ===================================================================== *)
(** * llms/rate_limiter.py *)
(* ===================================================================== *)

Module Limiter.
Import Errors.

Record RateLimit := mk_RateLimit {
  requests_per_minute : Z;
  concurrent_requests : Z
}.

(** The limiter's three dicts.  An [asyncio.Semaphore] with no waiter is
    its counter. *)
Record RateLimiter := mk_RateLimiter {
  _rate_limits : gmap string RateLimit;
  _request_times : gmap string (list Q);
  _locks : gmap string Z
}.

(** [RateLimiter(rate_limits)].  [asyncio.Semaphore(value)] raises
    [ValueError] on a negative value; nothing else is checked. *)
Definition RateLimiter_init (rate_limits : gmap string RateLimit)
  : result RateLimiter :=
  if bool_decide (map_Forall (fun _ l => 0 <= concurrent_requests l) rate_limits)
  then Ok (mk_RateLimiter rate_limits
             ((fun _ => []) <$> rate_limits)
             (concurrent_requests <$> rate_limits))
  else Raise (error ValueError "Semaphore initial value must be >= 0").

Definition DEFAULT_RATE_LIMITS : gmap string RateLimit :=
  <["openai/o1-preview" := mk_RateLimit 60 5]>
    (<["anthropic/claude-3.5-sonnet:beta" := mk_RateLimit 50 3]>
       (<["anthropic/claude-3-5-haiku:beta" := mk_RateLimit 50 3]> ∅)).

(** What one task sees: the limiter, the clock read by [time.time()], and
    the durations it passed to [asyncio.sleep], oldest first.  A sleep of
    [d] seconds resumes [d] seconds later. *)
Record world := mk_world {
  limiter : RateLimiter;
  clock : Q;
  sleeps : list Q
}.

(** How a call ends for its task: it returns, it raises, or it stays
    suspended on the semaphore because no permit is free. *)
Inductive outcome :=
| Returned
| Blocked
| Raised (e : exn).

Definition Qltb (a b : Q) : bool := negb (Qle_bool b a).

(** [[t for t in times if current_time - t < 60]] *)
Definition prune (current_time : Q) (times : list Q) : list Q :=
  List.filter (fun t => Qltb (current_time - t) 60) times.

Definition set_locks (v : Z) (model : string) (r : RateLimiter) : RateLimiter :=
  mk_RateLimiter (_rate_limits r) (_request_times r) (<[model := v]> (_locks r)).

Definition set_times (ts : list Q) (model : string) (r : RateLimiter)
  : RateLimiter :=
  mk_RateLimiter (_rate_limits r) (<[model := ts]> (_request_times r)) (_locks r).

(** The body of [async with self._locks[model]] in [acquire], run with the
    permit taken.  It ends with the limiter's new state, the clock and the
    sleeps; the semaphore is given back by the caller, [acquire]. *)
Definition admission (model : string) (rate_limit : RateLimit) (w : world)
  : outcome * world :=
  let current_time := clock w in
  match _request_times (limiter w) !! model with
  | None => (Raised (error KeyError ("'" +:+ model +:+ "'")), w)
  | Some times =>
      let kept := prune current_time times in
      let r1 := set_times kept model (limiter w) in
      if Z.of_nat (length kept) >=? requests_per_minute rate_limit then
        match kept with
        | [] =>
            (Raised (error IndexError "list index out of range"),
             mk_world r1 (clock w) (sleeps w))
        | oldest :: _ =>
            let wait_time := (60 - (current_time - oldest))%Q in
            if Qltb 0 wait_time then
              let now := (clock w + wait_time)%Q in
              (Returned,
               mk_world (set_times (kept ++ [now]) model r1) now
                 (sleeps w ++ [wait_time]))
            else
              (Returned,
               mk_world (set_times (kept ++ [clock w]) model r1) (clock w)
                 (sleeps w))
        end
      else
        (Returned,
         mk_world (set_times (kept ++ [clock w]) model r1) (clock w) (sleeps w))
  end.

(** [Semaphore.release()]: the counter goes up by one, whatever its value. *)
Definition sem_release (model : string) (r : RateLimiter) : RateLimiter :=
  match _locks r !! model with
  | Some value => set_locks (value + 1) model r
  | None => r
  end.

Definition acquire (model : string) (w : world) : outcome * world :=
  match _rate_limits (limiter w) !! model with
  | None => (Returned, w)
  | Some rate_limit =>
      match _locks (limiter w) !! model with
      | None => (Raised (error KeyError ("'" +:+ model +:+ "'")), w)
      | Some value =>
          if value <=? 0 then (Blocked, w)
          else
            (* entering [async with]: a permit is taken *)
            let w1 := mk_world (set_locks (value - 1) model (limiter w))
                        (clock w) (sleeps w) in
            let '(out, w2) := admission model rate_limit w1 in
            (* leaving [async with]: the permit is given back, also when
               the body raised *)
            (out,
             mk_world (sem_release model (limiter w2)) (clock w2) (sleeps w2))
      end
  end.

(** [if model in self._locks: self._locks[model].release()] *)
Definition release (model : string) (w : world) : world :=
  mk_world (sem_release model (limiter w)) (clock w) (sleeps w).

(** The state a task starts from: a fresh limiter at time [t]. *)
Definition fresh_world (r : RateLimiter) (t : Q) : world := mk_world r t [].

(** The window of a model is in time order and holds no timestamp of the
    future. *)
Definition window_ok (model : string) (w : world) : Prop :=
  forall times : list Q,
    _request_times (limiter w) !! model = Some times ->
    StronglySorted Qle times /\ List.Forall (fun t => (t <= clock w)%Q) times.

(** One model allowed one request at a time. *)
Definition one_at_a_time : gmap string RateLimit :=
  <["m" := mk_RateLimit 60 1]> ∅.

(** Two requests a minute, of which two were made at times 0 and 10. *)
Definition full_window_world : world :=
  mk_world
    (mk_RateLimiter (<["m" := mk_RateLimit 2 3]> ∅)
       (<["m" := [0%Q; 10%Q]]> ∅) (<["m" := 3]> ∅))
    30%Q [].

End Limiter.

(* ===================================================================== *)
(** * hashlib.sha256 *)
(* ===================================================================== *)

(** SHA-256 as FIPS 180-4 defines it, on bytes given as integers. *)
Module SHA256.

Definition mask32 : Z := 0xffffffff.

Definition add32 (a b : Z) : Z := Z.land (a + b) mask32.

Definition rotr (n x : Z) : Z :=
  Z.lor (Z.shiftr x n) (Z.land (Z.shiftl x (32 - n)) mask32).

Definition shr (n x : Z) : Z := Z.shiftr x n.

Definition Ch (x y z : Z) : Z :=
  Z.lxor (Z.land x y) (Z.land (Z.lxor x mask32) z).

Definition Maj (x y z : Z) : Z :=
  Z.lxor (Z.lxor (Z.land x y) (Z.land x z)) (Z.land y z).

Definition Sigma0 (x : Z) : Z := Z.lxor (Z.lxor (rotr 2 x) (rotr 13 x)) (rotr 22 x).
Definition Sigma1 (x : Z) : Z := Z.lxor (Z.lxor (rotr 6 x) (rotr 11 x)) (rotr 25 x).
Definition sigma0 (x : Z) : Z := Z.lxor (Z.lxor (rotr 7 x) (rotr 18 x)) (shr 3 x).
Definition sigma1 (x : Z) : Z := Z.lxor (Z.lxor (rotr 17 x) (rotr 19 x)) (shr 10 x).

(** The constants are cut from the roots of the first primes. *)
Definition is_prime (n : nat) : bool :=
  forallb (fun d => negb (n mod d =? 0)%nat) (seq 2 (n - 2)).

Definition first_primes (count : nat) : list Z :=
  List.map Z.of_nat (firstn count (List.filter is_prime (seq 2 310))).

(** The greatest [r' >= r] with [r' - r < 2 ^ bits] and [r' ^ 3 <= n],
    when [r ^ 3 <= n]. *)
Fixpoint cube_root_from (n : Z) (bits : nat) (r : Z) : Z :=
  match bits with
  | O => r
  | S b =>
      let r' := r + 2 ^ Z.of_nat b in
      if r' * r' * r' <=? n then cube_root_from n b r' else cube_root_from n b r
  end.

(** The first 32 bits of the fractional part of the cube root of [p]. *)
Definition cube_root_bits (p : Z) : Z :=
  Z.land (cube_root_from (p * 2 ^ 96) 36 0) mask32.

(** The first 32 bits of the fractional part of the square root of [p]. *)
Definition square_root_bits (p : Z) : Z :=
  Z.land (Z.sqrt (p * 2 ^ 64)) mask32.

Definition K : list Z := Eval vm_compute in List.map cube_root_bits (first_primes 64).

Definition H0 : list Z := Eval vm_compute in List.map square_root_bits (first_primes 8).

(** The [n] low bytes of [x], most significant first. *)
Fixpoint be_bytes (n : nat) (x : Z) : list Z :=
  match n with
  | O => []
  | S k => be_bytes k (Z.shiftr x 8) ++ [Z.land x 255]
  end.

(** Padding: a one bit, zero bits, and the length in bits on 64 bits. *)
Definition pad (msg : list Z) : list Z :=
  let len := Z.of_nat (length msg) in
  msg ++ [128] ++ List.repeat 0 (Z.to_nat ((55 - len) mod 64))
      ++ be_bytes 8 (8 * len).

(** Big-endian 32-bit words. *)
Fixpoint words (bytes : list Z) : list Z :=
  match bytes with
  | a :: b :: c :: d :: rest =>
      (Z.shiftl a 24 + Z.shiftl b 16 + Z.shiftl c 8 + d) :: words rest
  | _ => []
  end.

(** The message schedule, most recent word first: [n] more words. *)
Fixpoint extend (n : nat) (w : list Z) : list Z :=
  match n with
  | O => w
  | S k =>
      let x := add32 (add32 (sigma1 (nth 1 w 0)) (nth 6 w 0))
                     (add32 (sigma0 (nth 14 w 0)) (nth 15 w 0)) in
      extend k (x :: w)
  end.

Definition schedule (block : list Z) : list Z := rev (extend 48 (rev block)).

Record regs := mk_regs { ra : Z; rb : Z; rc : Z; rd : Z; re : Z; rf : Z; rg : Z; rh : Z }.

Definition round (s : regs) (kw : Z * Z) : regs :=
  let t1 := add32 (add32 (add32 (rh s) (Sigma1 (re s)))
                         (add32 (Ch (re s) (rf s) (rg s)) (fst kw))) (snd kw) in
  let t2 := add32 (Sigma0 (ra s)) (Maj (ra s) (rb s) (rc s)) in
  mk_regs (add32 t1 t2) (ra s) (rb s) (rc s) (add32 (rd s) t1) (re s) (rf s) (rg s).

Definition compress (h : regs) (block : list Z) : regs :=
  let s := fold_left round (combine K (schedule block)) h in
  mk_regs (add32 (ra h) (ra s)) (add32 (rb h) (rb s)) (add32 (rc h) (rc s))
          (add32 (rd h) (rd s)) (add32 (re h) (re s)) (add32 (rf h) (rf s))
          (add32 (rg h) (rg s)) (add32 (rh h) (rh s)).

(** The 16-word blocks of a padded message; [n] bounds their number. *)
Fixpoint blocks (n : nat) (ws : list Z) : list (list Z) :=
  match n, ws with
  | S k, _ :: _ => firstn 16 ws :: blocks k (skipn 16 ws)
  | _, _ => []
  end.

Definition digest_words (msg : list Z) : list Z :=
  let ws := words (pad msg) in
  let h := fold_left compress (blocks (length ws) ws)
             (mk_regs (nth 0 H0 0) (nth 1 H0 0) (nth 2 H0 0) (nth 3 H0 0)
                      (nth 4 H0 0) (nth 5 H0 0) (nth 6 H0 0) (nth 7 H0 0)) in
  [ra h; rb h; rc h; rd h; re h; rf h; rg h; rh h].

Definition hex_digit (n : Z) : ascii :=
  ascii_of_N (Z.to_N (if n <? 10 then 48 + n else 87 + n)).

(** [n] hexadecimal digits of [x], lower case. *)
Fixpoint hex (n : nat) (x : Z) : string :=
  match n with
  | O => EmptyString
  | S k => hex k (Z.shiftr x 4) +:+ String (hex_digit (Z.land x 15)) EmptyString
  end.

(** [hashlib.sha256(bytes).hexdigest()] *)
Definition hexdigest (msg : list Z) : string :=
  fold_right (fun w acc => hex 8 w +:+ acc) EmptyString (digest_words msg).

(** [s.encode()]: UTF-8 of a string of code points below 256. *)
Fixpoint encode (s : string) : list Z :=
  match s with
  | EmptyString => []
  | String c s' =>
      let n := Z.of_N (N_of_ascii c) in
      if n <? 128 then n :: encode s'
      else (192 + Z.shiftr n 6) :: (128 + Z.land n 63) :: encode s'
  end.

End SHA256.

(* ===================================================================== *)
(** * json.dumps *)
(* ===================================================================== *)

(** [json.dumps(..., sort_keys=True)] on the values the cache keys are made
    of: strings, dicts of strings and lists of such dicts. *)
Module Json.

Definition quote : ascii := "034"%char.
Definition backslash : ascii := "092"%char.

(** One character inside a JSON string, with [ensure_ascii]. *)
Definition escape_char (c : ascii) : string :=
  let n := N_of_ascii c in
  if Ascii.eqb c quote then String backslash (String quote EmptyString)
  else if Ascii.eqb c backslash then String backslash (String backslash EmptyString)
  else if (n =? 10)%N then String backslash "n"
  else if (n =? 13)%N then String backslash "r"
  else if (n =? 9)%N then String backslash "t"
  else if (n =? 8)%N then String backslash "b"
  else if (n =? 12)%N then String backslash "f"
  else if ((32 <=? n) && (n <=? 126))%N then String c EmptyString
  else String backslash ("u" +:+ SHA256.hex 4 (Z.of_N n)).

Fixpoint escape (s : string) : string :=
  match s with
  | EmptyString => EmptyString
  | String c s' => escape_char c +:+ escape s'
  end.

Definition dumps_str (s : string) : string :=
  String quote (escape s +:+ String quote EmptyString).

(** The items of a dict in the order of their keys. *)
Definition sorted_items (d : gmap string string) : list (string * string) :=
  merge_sort (fun a b => Is_true (String.leb (fst a) (fst b))) (map_to_list d).

Definition dumps_dict (d : gmap string string) : string :=
  "{" +:+ PyStr.join ", "
            (List.map (fun kv => dumps_str (fst kv) +:+ ": " +:+ dumps_str (snd kv))
               (sorted_items d))
      +:+ "}".

Definition dumps_list (l : list (gmap string string)) : string :=
  "[" +:+ PyStr.join ", " (List.map dumps_dict l) +:+ "]".

End Json.

(* ===================================================================== *)
(** * llms/cache_sync.py *)
(* ===================================================================== *)

Module CacheSync.
Import Errors.

(** A cache entry.  [timestamp] is [datetime.now()] in seconds. *)
Record entry := mk_entry {
  data : string;
  timestamp : Q;
  provider : option string;
  expires_in : option Z
}.

(** The cache directory.  The manager reaches it through four operations,
    and nothing is assumed about them here: two keys may name one file
    ('a' and './a'), a key may name a file that cannot be written ('a/b'
    when there is no directory a) or one outside the directory ('../x'),
    and every operation may fail, which the manager logs and otherwise
    ignores.  A file [get] can use holds an entry that a manager wrote. *)
Class FileSystem := {
  directory : Type;
  (** [cache_file.exists()], [open], [read] and [json.loads] on the file
      of the key: its entry, [None] when there is no such file or one of
      the steps raises *)
  read_entry : string -> directory -> option entry;
  (** [open(cache_file, 'w')] and [write] inside [try]: the directory
      afterwards, whether the write took effect or raised *)
  write_entry : string -> entry -> directory -> directory;
  (** [if cache_file.exists(): os.remove(cache_file)] inside [try] *)
  remove_entry : string -> directory -> directory;
  (** [for cache_file in cache_dir.glob("*.json"): os.remove(cache_file)]
      inside [try] *)
  remove_json : directory -> directory
}.

(** The manager: the in-memory dict, the cache directory, and the keys
    that have a lock. *)
Record CacheManager `{FileSystem} := mk_CacheManager {
  _cache : gmap string entry;
  files : directory;
  _locks : gset string
}.
Arguments mk_CacheManager {_} _ _ _.
Arguments _cache {_} _.
Arguments files {_} _.
Arguments _locks {_} _.

(** [CacheManager(cache_dir)] on a directory that holds [d]. *)
Definition CacheManager_init `{FileSystem} (d : directory) : CacheManager :=
  mk_CacheManager ∅ d ∅.

Definition _ensure_lock `{FileSystem} (key : string) (self : CacheManager)
  : CacheManager :=
  mk_CacheManager (_cache self) (files self) ({[key]} ∪ _locks self).

(** [timedelta(minutes=minutes)] raises OverflowError when the days it
    amounts to are beyond 999999999 in magnitude. *)
Definition overflows (minutes : Z) : bool :=
  (999999999 <? minutes / 1440) || (minutes / 1440 <? -999999999).

(** The text of that error in CPython. *)
Definition overflow_text (minutes : Z) : string :=
  let days := minutes / 1440 in
  if (-2147483648 <=? days) && (days <=? 2147483647) then
    "days=" +:+ PyStr.str_of_int days +:+ "; must have magnitude <= 999999999"
  else "Python int too large to convert to C int".

(** [_is_expired(cache_entry)]: never, when [expires_in] is [None] or
    zero; otherwise
    [datetime.now() - timestamp > timedelta(minutes=expires_in)]. *)
Definition _is_expired (now : Q) (cache_entry : entry) : result bool :=
  match expires_in cache_entry with
  | None => Ok false
  | Some minutes =>
      if minutes =? 0 then Ok false
      else if overflows minutes then
        Raise (error OverflowError (overflow_text minutes))
      else
        Ok (negb (Qle_bool (now - timestamp cache_entry) (60 * inject_Z minutes)))
  end.

(** [get(key)].  The check of the entry in memory is outside the [try], so
    what [_is_expired] raises there leaves [get]; on the entry of the file
    it is caught and logged, and [get] misses. *)
Definition get `{FileSystem} (key : string) (now : Q) (self : CacheManager)
  : result (option string) * CacheManager :=
  let self := _ensure_lock key self in
  let from_file :=
    match read_entry key (files self) with
    | Some value =>
        match _is_expired now value with
        | Ok false =>
            (Ok (Some (data value)),
             mk_CacheManager (<[key := value]> (_cache self)) (files self)
               (_locks self))
        | Ok true => (Ok None, self)
        | Raise _ => (Ok None, self)
        end
    | None => (Ok None, self)
    end in
  match _cache self !! key with
  | Some value =>
      match _is_expired now value with
      | Ok false => (Ok (Some (data value)), self)
      | Ok true => from_file
      | Raise e => (Raise e, self)
      end
  | None => from_file
  end.

(** [set(key, value, expires_in, provider)]: the entry goes to memory, and
    to the file of the key if the write takes effect. *)
Definition set `{FileSystem} (key value : string) (expires_in : option Z)
    (provider : option string) (now : Q) (self : CacheManager) : CacheManager :=
  let self := _ensure_lock key self in
  let cache_entry := mk_entry value now provider expires_in in
  mk_CacheManager (<[key := cache_entry]> (_cache self))
    (write_entry key cache_entry (files self)) (_locks self).

Definition delete `{FileSystem} (key : string) (self : CacheManager)
  : CacheManager :=
  let self := _ensure_lock key self in
  mk_CacheManager (base.delete key (_cache self))
    (remove_entry key (files self)) (_locks self).

Definition clear `{FileSystem} (self : CacheManager) : CacheManager :=
  mk_CacheManager ∅ (remove_json (files self)) (_locks self).

(** A directory in which every key names a file of its own and every
    operation takes effect. *)
#[global] Instance files_by_key : FileSystem := {|
  directory := gmap string entry;
  read_entry := fun key d => d !! key;
  write_entry := fun key e d => <[key := e]> d;
  remove_entry := fun key d => base.delete key d;
  remove_json := fun _ => ∅
|}.

(** A directory that cannot be written: it stays as it is. *)
Definition read_only_files : FileSystem := {|
  directory := gmap string entry;
  read_entry := fun key d => d !! key;
  write_entry := fun _ _ d => d;
  remove_entry := fun _ d => d;
  remove_json := fun d => d
|}.

End CacheSync.

(* ===================================================================== *)
(** * llms/cache_control.py *)
(* ===================================================================== *)

Module CacheControl.
Import Errors.

(** The price multipliers; 1.2 and 0.2 are the rationals nearest to the
    floats, which compare with 0.5 as the floats do. *)
Definition PROVIDER_PRICING : gmap string (gmap string Q) :=
  <["openai" :=
      <["gpt-4" := 1%Q]>
        (<["gpt-4-vision-preview" := (12 # 10)%Q]>
           (<["gpt-3.5-turbo" := (2 # 10)%Q]> ∅))]>
    (<["anthropic" :=
         <["claude-3-opus" := (15 # 10)%Q]>
           (<["claude-3-sonnet" := 1%Q]>
              (<["claude-3-haiku" := (5 # 10)%Q]> ∅))]> ∅).

(** In minutes. *)
Definition CACHE_EXPIRATION : gmap string Z :=
  <["openai" := 60]> (<["anthropic" := 5]> (<["default" := 30]> ∅)).

Definition should_enable_caching (model : string) : bool :=
  let provider :=
    if PyStr.contains "gpt" (PyStr.lower model) then Some "openai"
    else if PyStr.contains "claude" (PyStr.lower model) then Some "anthropic"
    else None in
  match provider with
  | None => false
  | Some provider =>
      let pricing :=
        default 0%Q (default ∅ (PROVIDER_PRICING !! provider) !! model) in
      Qle_bool (5 # 10) pricing
  end.

(** [create_cache_key(content, role, model, **kwargs)], with string
    keyword arguments. *)
Definition create_cache_key (content role model : string)
    (kwargs : gmap string string) : string :=
  let normalized_content := PyStr.join " " (PyStr.split_ws content) in
  let key_data :=
    kwargs ∪ (<["content" := normalized_content]>
                (<["role" := PyStr.lower role]>
                   (<["model" := PyStr.lower model]> ∅))) in
  let key_string := Json.dumps_dict key_data in
  role +:+ "_" +:+ SHA256.hexdigest (SHA256.encode key_string).

Definition _calculate_cache_key (content role : string) : string :=
  let content_hash := SHA256.hexdigest (SHA256.encode content) in
  role +:+ "_" +:+ PyStr.prefix 16 content_hash.

(** [{"role": role, "content": content}] *)
Definition message (role content : string) : gmap string string :=
  <["role" := role]> (<["content" := content]> ∅).

Definition create_cacheable_message `{CacheSync.FileSystem}
    (role content : string) (cache_large_content : bool) (min_cache_size : Z)
    (now : Q) (cm : CacheSync.CacheManager)
  : result (gmap string string) * CacheSync.CacheManager :=
  if negb cache_large_content
     || (Z.of_nat (String.length content) <? min_cache_size)
  then (Ok (message role content), cm)
  else
    let cache_key := _calculate_cache_key content role in
    let '(cached_content, cm) := CacheSync.get cache_key now cm in
    match cached_content with
    | Raise e => (Raise e, cm)
    | Ok (Some (String c rest)) => (Ok (message role (String c rest)), cm)
    | Ok _ =>
        (Ok (message role content),
         CacheSync.set cache_key content (CACHE_EXPIRATION !! "default") None
           now cm)
    end.

(** [f"response_{hashlib.sha256(message_str.encode()).hexdigest()[:16]}"] *)
Definition response_key (messages : list (gmap string string)) : string :=
  let message_str := Json.dumps_list messages in
  "response_" +:+ PyStr.prefix 16 (SHA256.hexdigest (SHA256.encode message_str)).

Definition cache_response `{CacheSync.FileSystem} (provider model : string)
    (messages : list (gmap string string)) (response : string)
    (now : Q) (cm : CacheSync.CacheManager) : CacheSync.CacheManager :=
  if negb (should_enable_caching model) then cm
  else
    let cache_key := response_key messages in
    let expires_in :=
      default (default 0 (CACHE_EXPIRATION !! "default"))
        (CACHE_EXPIRATION !! provider) in
    CacheSync.set cache_key response (Some expires_in) (Some provider) now cm.

Definition get_cached_response `{CacheSync.FileSystem}
    (provider model : string) (messages : list (gmap string string))
    (now : Q) (cm : CacheSync.CacheManager)
  : result (option string) * CacheSync.CacheManager :=
  if negb (should_enable_caching model) then (Ok None, cm)
  else
    let cache_key := response_key messages in
    let '(cached_response, cm) := CacheSync.get cache_key now cm in
    match cached_response with
    | Raise e => (Raise e, cm)
    | Ok (Some (String c rest)) => (Ok (Some (String c rest)), cm)
    | Ok _ => (Ok None, cm)
    end.

(** Two user messages that differ only in the blanks after the first
    word. *)
Definition report_request : string :=
  "Summarize the quarterly report in three bullet points and list every open risk with its owner and due date.".

Definition report_request_spaced : string :=
  "Summarize  the quarterly report in three bullet points and list every open risk with its owner and due date.".

End CacheControl.

(* ===================================================================== *)
(** * Python values and pydantic *)
(* ===================================================================== *)

Module PyVal.

(** The values a decoded JSON document or a context mapping is made of. *)
Inductive pyval :=
| VNone
| VStr (s : string)
| VInt (z : Z)
| VList (l : list pyval)
| VDict (d : gmap string pyval).

(** pydantic's field validators.  Which values of another type a field
    accepts after coercion depends on the pydantic release, so the
    validators are an interface; what every release does is its law: a
    [str] is accepted as it is by a [str] field. *)
Class Pydantic := {
  (** a field declared [str] *)
  str_validator : pyval -> option string;
  (** a field declared [list] *)
  list_validator : pyval -> option (list pyval);
  (** a field declared [Dict[str, Any]] *)
  dict_validator : pyval -> option (gmap string pyval);
  (** a field declared [Dict[str, int]] *)
  int_dict_validator : pyval -> option (gmap string Z);
  str_validator_str : forall s : string, str_validator (VStr s) = Some s
}.

(** The validators that accept the declared type and nothing else. *)
Definition strict_str (v : pyval) : option string :=
  match v with VStr s => Some s | _ => None end.

Definition strict_list (v : pyval) : option (list pyval) :=
  match v with VList l => Some l | _ => None end.

Definition strict_dict (v : pyval) : option (gmap string pyval) :=
  match v with VDict d => Some d | _ => None end.

Definition strict_int (v : pyval) : option Z :=
  match v with VInt z => Some z | _ => None end.

Definition strict_int_dict (v : pyval) : option (gmap string Z) :=
  match v with
  | VDict d =>
      if bool_decide (map_Forall (fun _ x => is_Some (strict_int x)) d)
      then Some (omap strict_int d) else None
  | _ => None
  end.

#[global] Instance strict_pydantic : Pydantic := {|
  str_validator := strict_str;
  list_validator := strict_list;
  dict_validator := strict_dict;
  int_dict_validator := strict_int_dict;
  str_validator_str := fun s => eq_refl
|}.

End PyVal.

(* ===================================================================== *)
(** * llms/base.py *)
(* ===================================================================== *)

Module Base.
Import Errors PyVal.

(** The object a module receives as its configuration: the fields of an
    [LLMConfig] and, when the object carries one, its [rate_limit]
    attribute, which [hasattr] tests for. *)
Record ConfigObject := mk_ConfigObject {
  fields : Config.LLMConfig;
  rate_limit : option Limiter.RateLimit
}.

Record BaseLLMModule := mk_BaseLLMModule {
  config : ConfigObject;
  context : gmap string pyval;
  _session : option unit
}.

Definition _validate_config (self : BaseLLMModule) : result unit :=
  if negb (PyStr.truthy (Config.api_key (fields (config self)))) then
    Raise (error ValidationError "API key is required")
  else if negb (PyStr.truthy (Config.model (fields (config self)))) then
    Raise (error ValidationError "Model name is required")
  else
    match rate_limit (config self) with
    | Some rl =>
        if Limiter.requests_per_minute rl <? 1 then
          Raise (error ValidationError "Requests per minute must be at least 1")
        else if Limiter.concurrent_requests rl <? 1 then
          Raise (error ValidationError "Concurrent requests must be at least 1")
        else Ok tt
    | None => Ok tt
    end.

Definition BaseLLMModule_init (config : ConfigObject) : result BaseLLMModule :=
  let self := mk_BaseLLMModule config ∅ None in
  match _validate_config self with
  | Ok _ => Ok self
  | Raise e => Raise e
  end.

(** [cleanup]: the session, if any, is closed and dropped. *)
Definition cleanup (self : BaseLLMModule) : BaseLLMModule :=
  mk_BaseLLMModule (config self) (context self) None.

(** [add_context(context)].  [dict.update] keeps every key the argument
    does not mention. *)
Definition add_context (arg : pyval) (self : BaseLLMModule)
  : result BaseLLMModule :=
  match arg with
  | VDict d => Ok (mk_BaseLLMModule (config self) (d ∪ context self) (_session self))
  | _ => Raise (error ValidationError "Context must be a dictionary")
  end.

(** ** Requests and responses *)

Record MessageContent := mk_MessageContent {
  content : string;
  role : string;
  tool_calls : option (list pyval)
}.

Record APIResponse := mk_APIResponse {
  choices : list MessageContent;
  model : string;
  usage : option (gmap string Z)
}.

(** The text of a pydantic error is not modelled. *)
Definition pydantic_error : exn := error PydanticValidationError "validation error".

(** [MessageContent( **kwargs)] *)
Definition MessageContent_init `{Pydantic} (kwargs : gmap string pyval)
  : result MessageContent :=
  match kwargs !! "content", kwargs !! "role" with
  | Some c, Some r =>
      let tool_calls :=
        match kwargs !! "tool_calls" with
        | None | Some VNone => Some None
        | Some v => Some <$> list_validator v
        end in
      match str_validator c, str_validator r, tool_calls with
      | Some c', Some r', Some t => Ok (mk_MessageContent c' r' t)
      | _, _, _ => Raise pydantic_error
      end
  | _, _ => Raise pydantic_error
  end.

(** [APIResponse(choices=..., model=..., usage=...)]; [choices] is already
    a list. *)
Definition APIResponse_init `{Pydantic} (choices : list MessageContent)
    (model : pyval) (usage : option pyval) : result APIResponse :=
  let usage' :=
    match usage with
    | None | Some VNone => Some None
    | Some v => Some <$> int_dict_validator v
    end in
  match str_validator model, usage' with
  | Some m, Some u => Ok (mk_APIResponse choices m u)
  | _, _ => Raise pydantic_error
  end.

(** [type(x).__name__] *)
Definition type_name (x : pyval) : string :=
  match x with
  | VNone => "NoneType"
  | VStr _ => "str"
  | VInt _ => "int"
  | VList _ => "list"
  | VDict _ => "dict"
  end.

(** [x[key]] for a string key; the messages are CPython's. *)
Definition subscript (x : pyval) (key : string) : result pyval :=
  match x with
  | VDict d =>
      match d !! key with
      | Some v => Ok v
      | None => Raise (error KeyError ("'" +:+ key +:+ "'"))
      end
  | VList _ =>
      Raise (error TypeError "list indices must be integers or slices, not str")
  | VStr _ => Raise (error TypeError "string indices must be integers, not 'str'")
  | _ =>
      Raise (error TypeError
               ("'" +:+ type_name x +:+ "' object is not subscriptable"))
  end.

(** [for choice in x]: the items a value yields when iterated. *)
Definition iterate (x : pyval) : result (list pyval) :=
  match x with
  | VList l => Ok l
  | VDict d => Ok (VStr <$> (map_to_list d).*1)
  | VStr s =>
      Ok ((fun c => VStr (String c EmptyString)) <$> list_ascii_of_string s)
  | _ =>
      Raise (error TypeError ("'" +:+ type_name x +:+ "' object is not iterable"))
  end.

(** [{'message': MessageContent( **choice['message'])}] for one choice. *)
Definition read_choice `{Pydantic} (choice : pyval) : result MessageContent :=
  match subscript choice "message" with
  | Raise e => Raise e
  | Ok (VDict kwargs) => MessageContent_init kwargs
  | Ok v =>
      Raise (error TypeError
               ("MessageContent() argument after ** must be a mapping, not "
                +:+ type_name v))
  end.

(** The list comprehension over the choices: the first failure ends it. *)
Fixpoint read_choices `{Pydantic} (l : list pyval) : result (list MessageContent) :=
  match l with
  | [] => Ok []
  | choice :: rest =>
      match read_choice choice with
      | Raise e => Raise e
      | Ok m =>
          match read_choices rest with
          | Raise e => Raise e
          | Ok ms => Ok (m :: ms)
          end
      end
  end.

(** The body of the [try] of [_validate_response], on a decoded payload. *)
Definition validate_payload `{Pydantic} (response : pyval) : result APIResponse :=
  match subscript response "choices" with
  | Raise e => Raise e
  | Ok cs =>
      match iterate cs with
      | Raise e => Raise e
      | Ok items =>
          match read_choices items with
          | Raise e => Raise e
          | Ok messages =>
              match subscript response "model" with
              | Raise e => Raise e
              | Ok m =>
                  let usage :=
                    match response with
                    | VDict d => d !! "usage"
                    | _ => None
                    end in
                  match APIResponse_init messages m usage with
                  | Raise e => Raise e
                  | Ok validated =>
                      match choices validated with
                      | [] =>
                          Raise (error ValidationError "Response contains no choices")
                      | first :: _ =>
                          if negb (PyStr.truthy (content first)) then
                            Raise (error ValidationError
                                     "Response message content is empty")
                          else Ok validated
                      end
                  end
              end
          end
      end
  end.

(** [_validate_response].  A payload that is a string is decoded first;
    [json_loads] is [json.loads], [None] standing for a [JSONDecodeError].
    The [except] clause turns the decoder's and pydantic's errors into a
    [ValidationError]; any other exception passes. *)
Definition _validate_response `{Pydantic} (json_loads : string -> option pyval)
    (response : pyval) : result APIResponse :=
  let body :=
    match response with
    | VStr s =>
        match json_loads s with
        | Some v => validate_payload v
        | None => Raise (error JSONDecodeError "invalid JSON")
        end
    | _ => validate_payload response
    end in
  match body with
  | Ok v => Ok v
  | Raise e =>
      if isinstance e JSONDecodeError || isinstance e PydanticValidationError
      then Raise (error ValidationError
                    ("Invalid API response format: " +:+ message e))
      else Raise e
  end.

(** The [for msg in params['messages']] loop of [_validate_request_params]. *)
Fixpoint check_messages (messages : list pyval) : result unit :=
  match messages with
  | [] => Ok tt
  | msg :: rest =>
      match msg with
      | VDict d =>
          match d !! "role", d !! "content" with
          | Some _, Some _ => check_messages rest
          | _, _ =>
              Raise (error ValidationError "Messages must have 'role' and 'content'")
          end
      | _ => Raise (error ValidationError "Each message must be a dictionary")
      end
  end.

(** [_validate_request_params].  The text of the set of missing fields is
    not part of the modelled message. *)
Definition _validate_request_params (params : gmap string pyval) : result unit :=
  match params !! "messages", params !! "model" with
  | Some messages, Some _ =>
      match messages with
      | VList [] => Raise (error ValidationError "Messages list cannot be empty")
      | VList (msg :: rest) => check_messages (msg :: rest)
      | _ => Raise (error ValidationError "Messages must be a list")
      end
  | _, _ => Raise (error ValidationError "Missing required fields")
  end.

(** ** The call executor *)

(** What the network does with one attempt: it answers with a status, a
    body text and the outcome of [response.json()]; or the request raises;
    or [asyncio.wait_for] gives up at the deadline. *)
Inductive http_outcome :=
| Response (status : Z) (text : string) (json : result pyval)
| Failed (e : exn)
| TimedOut.

(** [_execute_api_call] on an attempt that ends before the deadline. *)
Definition _execute_api_call (status : Z) (text : string) (json : result pyval)
  : result pyval :=
  if negb (status =? 200) then
    match raise_for_status_code status (Some text) with
    | Raise e => Raise e
    | Ok _ => json
    end
  else json.

(** [await asyncio.wait_for(self._execute_api_call(request_kwargs), timeout)] *)
Definition wait_for_call (o : http_outcome) : result pyval :=
  match o with
  | Response status text json => _execute_api_call status text json
  | Failed e => Raise e
  | TimedOut => Raise (error TimeoutError "")
  end.

(** What a call did: the attempts it made and the delays it slept, oldest
    first. *)
Record call_log := mk_call_log {
  attempts_made : nat;
  delays : list Q
}.

(** The [while attempts <= max_retries] loop.  [attempts] grows by one in
    each turn, so the loop makes [max_retries + 1 - attempts] turns unless
    it returns earlier: [remaining] is that number.  [net k] is what the
    network does with the attempt number [k].  The message of a timeout
    leaves out the text of the deadline. *)
Fixpoint attempts_loop `{Pydantic} (json_loads : string -> option pyval)
    (net : nat -> http_outcome) (error_prefix : string) (max_retries : Z)
    (retry_delay : Q) (remaining : nat) (attempts : Z)
    (last_error : option exn) (log : call_log) : result APIResponse * call_log :=
  match remaining with
  | O =>
      (Raise (default
                (error LLMError (error_prefix +:+ ": All retry attempts failed"))
                last_error),
       log)
  | S remaining' =>
      let log1 := mk_call_log (S (attempts_made log)) (delays log) in
      let attempt :=
        match wait_for_call (net (attempts_made log)) with
        | Ok response => _validate_response json_loads response
        | Raise e => Raise e
        end in
      match attempt with
      | Ok validated => (Ok validated, log1)
      | Raise e =>
          let last_error :=
            if isinstance e TimeoutError
            then error LLMError (error_prefix +:+ ": Request timed out")
            else e in
          let attempts := attempts + 1 in
          let log2 :=
            if attempts <=? max_retries
            then mk_call_log (attempts_made log1)
                   (delays log1 ++ [(retry_delay * inject_Z attempts)%Q])
            else log1 in
          attempts_loop json_loads net error_prefix max_retries retry_delay
            remaining' attempts (Some last_error) log2
      end
  end.

(** The two [except] clauses that close [_make_api_call]: the first names
    pydantic's [ValidationError]. *)
Definition translate (error_prefix : string) (e : exn) : exn :=
  if isinstance e PydanticValidationError
  then error ValidationError (error_prefix +:+ ": " +:+ message e)
  else error LLMError (error_prefix +:+ ": " +:+ message e).

Definition _make_api_call `{Pydantic} (json_loads : string -> option pyval)
    (net : nat -> http_outcome) (request_kwargs : gmap string pyval)
    (error_prefix : string) (max_retries : Z) (retry_delay : Q)
  : result APIResponse * call_log :=
  match _validate_request_params request_kwargs with
  | Raise e => (Raise (translate error_prefix e), mk_call_log 0 [])
  | Ok _ =>
      match attempts_loop json_loads net error_prefix max_retries retry_delay
              (Z.to_nat (max_retries + 1)) 0 None (mk_call_log 0 []) with
      | (Ok validated, log) => (Ok validated, log)
      | (Raise e, log) => (Raise (translate error_prefix e), log)
      end
  end.

(** The delays slept before the [n] attempts that follow the attempt
    number [attempts]: linear backoff. *)
Definition backoff (retry_delay : Q) (attempts : Z) (n : nat) : list Q :=
  List.map (fun i => (retry_delay * inject_Z (attempts + Z.of_nat i))%Q) (seq 1 n).

(** A choice that is a dict whose [message] is a dict. *)
Definition choice_shaped (choice : pyval) : Prop :=
  exists (c m : gmap string pyval),
    choice = VDict c /\ c !! "message" = Some (VDict m).

(** A request with one user message. *)
Definition hello_request : gmap string pyval :=
  <["model" := VStr "gpt-4"]>
    (<["messages" :=
         VList [VDict (<["role" := VStr "user"]>
                         (<["content" := VStr "hello"]> ∅))]]> ∅).

(** A 200 response with no choices. *)
Definition no_choices : pyval :=
  VDict (<["choices" := VList []]> (<["model" := VStr "gpt-4"]> ∅)).

End Base.

(* ===================================================================== *)
(** * llms/planner.py: the step parser *)
(* ===================================================================== *)

Module Planner.
Import Errors.

(** [[line.strip() for line in content.split('\n') if line.strip()]] *)
Definition plan_lines (content : string) : list string :=
  List.map PyStr.strip
    (List.filter (fun line => PyStr.truthy (PyStr.strip line))
       (PyStr.split PyStr.newline content)).

(** [line[0].isdigit() or line[0] == '-'].  The lines of [plan_lines] are
    never empty, so [line[0]] exists. *)
Definition starts_step (line : string) : bool :=
  match line with
  | String c _ => PyStr.isdigit c || Ascii.eqb c "-"
  | EmptyString => false
  end.

(** [line.split('.', 1)[-1].split(')', 1)[-1].strip()] *)
Definition step_text (line : string) : string :=
  PyStr.strip
    (PyStr.last_item
       (PyStr.splitn ")" (PyStr.last_item (PyStr.splitn "." line 1)) 1)).

(** [if current_step: steps.append(' '.join(current_step))] *)
Definition flush (steps current_step : list string) : list string :=
  match current_step with
  | [] => steps
  | _ :: _ => steps ++ [PyStr.join " " current_step]
  end.

(** One turn of the [for line in lines] loop on the pair
    [(steps, current_step)]. *)
Definition loop_body (st : list string * list string) (line : string)
  : list string * list string :=
  let '(steps, current_step) := st in
  if starts_step line then (flush steps current_step, [step_text line])
  else (steps, current_step ++ [line]).

Definition _parse_plan (content : string) : result (list string) :=
  let lines := plan_lines content in
  let '(steps, current_step) := fold_left loop_body lines ([], []) in
  let steps := flush steps current_step in
  match steps with
  | [] => Raise (error PlannerError "Failed to parse plan: No valid steps found")
  | _ :: _ => Ok steps
  end.

(** The result of the loop as a function of the lines: [blocks] gives the
    pieces of each step, what [step_text] makes of the opening line
    first. *)
Fixpoint blocks (lines : list string) : list (list string) :=
  match lines with
  | [] => []
  | line :: rest =>
      let first := if starts_step line then step_text line else line in
      match rest with
      | [] => [[first]]
      | next :: _ =>
          if starts_step next then [first] :: blocks rest
          else match blocks rest with
               | b :: bs => (first :: b) :: bs
               | [] => [[first]]
               end
      end
  end.


(** The number of lines that open a step. *)
Definition marker_count (lines : list string) : nat :=
  length (List.filter starts_step lines).




(** The steps still to come when the loop reaches [lines] with the
    non-empty block [cur] open. *)
Definition merge (cur : list string) (lines : list string) : list (list string) :=
  match lines with
  | [] => [cur]
  | next :: _ =>
      if starts_step next then cur :: blocks lines
      else match blocks lines with
           | b :: bs => (cur ++ b) :: bs
           | [] => [cur]
           end
  end.






End Planner.

(* ===================================================================== *)
(** * agent.py *)
(* ===================================================================== *)

Module Agent.
Import Errors PyVal.

Record AgentContext := mk_AgentContext {
  domain : string;
  expertise_level : string;
  preferred_language : string;
  additional_context : gmap string pyval
}.

(** [AgentContext( **context)]: the three [str] fields are required,
    [additional_context] defaults to the empty dict, and keys that are no
    field are ignored. *)
Definition AgentContext_init `{Pydantic} (kwargs : gmap string pyval)
  : result AgentContext :=
  match kwargs !! "domain", kwargs !! "expertise_level",
        kwargs !! "preferred_language" with
  | Some d, Some e, Some p =>
      let extra :=
        match kwargs !! "additional_context" with
        | None => Some ∅
        | Some v => dict_validator v
        end in
      match str_validator d, str_validator e, str_validator p, extra with
      | Some d', Some e', Some p', Some a => Ok (mk_AgentContext d' e' p' a)
      | _, _, _, _ => Raise Base.pydantic_error
      end
  | _, _, _ => Raise Base.pydantic_error
  end.

(** [validated_context.dict()] *)
Definition dict (c : AgentContext) : gmap string pyval :=
  <["domain" := VStr (domain c)]>
    (<["expertise_level" := VStr (expertise_level c)]>
       (<["preferred_language" := VStr (preferred_language c)]>
          (<["additional_context" := VDict (additional_context c)]> ∅))).

Record MultiLLMAgent := mk_MultiLLMAgent {
  reasoning : Base.BaseLLMModule;
  planner : Base.BaseLLMModule;
  executor : Base.BaseLLMModule;
  _context : option AgentContext
}.

(** [MultiLLMAgent(config)]: the three modules are built in turn. *)
Definition MultiLLMAgent_init
    (reasoning_config planner_config executor_config : Base.ConfigObject)
  : result MultiLLMAgent :=
  match Base.BaseLLMModule_init reasoning_config with
  | Raise e => Raise e
  | Ok r =>
      match Base.BaseLLMModule_init planner_config with
      | Raise e => Raise e
      | Ok p =>
          match Base.BaseLLMModule_init executor_config with
          | Raise e => Raise e
          | Ok x => Ok (mk_MultiLLMAgent r p x None)
          end
      end
  end.

(** [module.add_context({})] inside [try ... except Exception]: a failure
    is logged and the module is left as it is. *)
Definition reset_context (m : Base.BaseLLMModule) : Base.BaseLLMModule :=
  match Base.add_context (VDict ∅) m with
  | Ok m' => m'
  | Raise _ => m
  end.

Definition _rollback_context (context : gmap string pyval) (self : MultiLLMAgent)
  : MultiLLMAgent :=
  mk_MultiLLMAgent (reset_context (reasoning self)) (reset_context (planner self))
    (reset_context (executor self)) (_context self).

Definition add_context `{Pydantic} (context : gmap string pyval)
    (self : MultiLLMAgent) : result unit * MultiLLMAgent :=
  match AgentContext_init context with
  | Raise e => (Raise e, self)
  | Ok validated_context =>
      let self := mk_MultiLLMAgent (reasoning self) (planner self)
                    (executor self) (Some validated_context) in
      let sanitized_context := dict validated_context in
      match Base.add_context (VDict sanitized_context) (reasoning self) with
      | Raise e => (Raise e, _rollback_context sanitized_context self)
      | Ok r =>
          let self := mk_MultiLLMAgent r (planner self) (executor self)
                        (_context self) in
          match Base.add_context (VDict sanitized_context) (planner self) with
          | Raise e => (Raise e, _rollback_context sanitized_context self)
          | Ok p =>
              let self := mk_MultiLLMAgent (reasoning self) p (executor self)
                            (_context self) in
              match Base.add_context (VDict sanitized_context) (executor self) with
              | Raise e => (Raise e, _rollback_context sanitized_context self)
              | Ok x =>
                  (Ok tt,
                   mk_MultiLLMAgent (reasoning self) (planner self) x
                     (_context self))
              end
          end
      end
  end.

(** The context of example.py, and a configuration with an API key. *)
Definition example_context : gmap string pyval :=
  <["domain" := VStr "software development"]>
    (<["expertise_level" := VStr "intermediate"]>
       (<["preferred_language" := VStr "python"]> ∅)).

Definition example_config (c : string -> string -> Config.LLMConfig)
  : Base.ConfigObject :=
  Base.mk_ConfigObject (c "key" "https://example.com") None.

(** The agent [MultiLLMAgent(create_default_config())] builds. *)
Definition fresh_module (c : string -> string -> Config.LLMConfig)
  : Base.BaseLLMModule :=
  Base.mk_BaseLLMModule (example_config c) ∅ None.

Definition fresh_agent : MultiLLMAgent :=
  mk_MultiLLMAgent (fresh_module Config.REASONING_CONFIG)
    (fresh_module Config.PLANNING_CONFIG) (fresh_module Config.EXECUTOR_CONFIG)
    None.

(** The mapping app.py passes: it has none of the required fields. *)
Definition app_context : gmap string pyval :=
  <["user_context" := VStr "be brief"]> ∅.

End Agent.

(* ===================================================================== *)
(** * llms/rate_limiter.py: what the limiter guarantees *)
(* ===================================================================== *)

Module LimiterSpec.
Import Limiter.

(** The number of recorded requests of [model] that are less than 60
    seconds old at the clock. *)
Definition recent (model : string) (w : world) : nat :=
  match _request_times (limiter w) !! model with
  | Some times => length (prune (clock w) times)
  | None => O
  end.

(** Time passing between two calls. *)
Definition advance (d : Q) (w : world) : world :=
  mk_world (limiter w) (clock w + d)%Q (sleeps w).

(** Two models: "m" was asked for at times 0 and 10, nothing is recorded
    for "n". *)
Definition two_models_world : world :=
  mk_world
    (mk_RateLimiter
       (<["m" := mk_RateLimit 2 3]> (<["n" := mk_RateLimit 5 1]> ∅))
       (<["m" := [0%Q; 10%Q]]> (<["n" := []]> ∅))
       (<["m" := 3]> (<["n" := 1]> ∅)))
    30%Q [].

(** A limit of zero requests a minute, with nothing recorded. *)
Definition zero_rate_world : world :=
  fresh_world
    (mk_RateLimiter (<["m" := mk_RateLimit 0 1]> ∅) (<["m" := []]> ∅)
       (<["m" := 1]> ∅)) 0%Q.

End LimiterSpec.
(* ===================================================================== *)
(** * llms/cache_sync.py: the store across operations *)
(* ===================================================================== *)

Module CacheStore.
Import CacheSync.

(** An entry stored at [now] with [ttl] minutes is still served at [now']. *)
Definition live (ttl : option Z) (now now' : Q) : Prop :=
  match ttl with
  | None => True
  | Some minutes => minutes = 0 \/ (now' - now <= 60 * inject_Z minutes)%Q
  end.

(** The time to live can be made a [timedelta]. *)
Definition representable (ttl : option Z) : Prop :=
  match ttl with
  | None => True
  | Some minutes => overflows minutes = false
  end.

(** The write of [set] took effect: the file of the key then holds the
    entry. *)
Definition written `{FileSystem} (key : string) (e : entry) (d : directory)
  : Prop :=
  read_entry key (write_entry key e d) = Some e.

(** The keys name different files: a write or a removal for [key] leaves
    what the file of [other] holds. *)
Definition separate `{FileSystem} (key other : string) : Prop :=
  forall d : directory,
    (forall e : entry,
       read_entry other (write_entry key e d) = read_entry other d) /\
    read_entry other (remove_entry key d) = read_entry other d.

(** The removal of [delete] takes effect on the file of the key. *)
Definition removed `{FileSystem} (key : string) : Prop :=
  forall d : directory, read_entry key (remove_entry key d) = None.

(** The file of the key is one that [clear] finds and removes. *)
Definition cleared `{FileSystem} (key : string) : Prop :=
  forall d : directory, read_entry key (remove_json d) = None.

(** On the keys of [P] the directory is orderly: each names a file of its
    own, and writes and removals take effect. *)
Record orderly `{FileSystem} (P : string -> Prop) : Prop := {
  own_file :
    forall (k : string) (e : entry) (d : directory),
      P k -> read_entry k (write_entry k e d) = Some e;
  write_apart :
    forall (k k' : string) (e : entry) (d : directory),
      P k -> P k' -> k <> k' ->
      read_entry k' (write_entry k e d) = read_entry k' d;
  remove_apart :
    forall (k k' : string) (d : directory),
      P k -> P k' -> k <> k' ->
      read_entry k' (remove_entry k d) = read_entry k' d
}.

(** Memory holds keys of [P] only, and every entry it holds is the entry
    its file holds. *)
Definition mirrored `{FileSystem} (P : string -> Prop) (cm : CacheManager)
  : Prop :=
  forall (k : string) (e : entry),
    _cache cm !! k = Some e -> P k /\ read_entry k (files cm) = Some e.

End CacheStore.
(* ===================================================================== *)
(** * llms/cache_control.py: prices and expiration times *)
(* ===================================================================== *)

Module CachePolicy.
Import CacheControl.

(** [for provider, models in PROVIDER_PRICING.items()]: the providers in
    the order the dict literal lists them. *)
Definition providers : list string := ["openai"; "anthropic"].

(** The loop of [get_cache_pricing]: the price of the first provider that
    lists the model. *)
Fixpoint first_price (ps : list string) (model : string) : option Q :=
  match ps with
  | [] => None
  | provider :: rest =>
      match default ∅ (PROVIDER_PRICING !! provider) !! model with
      | Some price => Some price
      | None => first_price rest model
      end
  end.

Definition get_cache_pricing (model : string) : Q :=
  default 1%Q (first_price providers model).

(** [get_cache_expiration(provider)], a [timedelta] given in minutes. *)
Definition get_cache_expiration (provider : string) : Z :=
  default (default 0 (CACHE_EXPIRATION !! "default"))
    (CACHE_EXPIRATION !! provider).

(** The models of the pricing table whose price is at least 0.5. *)
Definition cache_worthy : list string :=
  ["gpt-4"; "gpt-4-vision-preview"; "claude-3-opus"; "claude-3-sonnet";
   "claude-3-haiku"].

(** A lower-case hexadecimal digit, and a string of them. *)
Definition is_hex (c : ascii) : bool := PyStr.has_char c "0123456789abcdef".

Fixpoint all_hex (s : string) : bool :=
  match s with
  | EmptyString => true
  | String c s' => is_hex c && all_hex s'
  end.

End CachePolicy.
(* ===================================================================== *)
(** * llms/base.py: shapes and schedules *)
(* ===================================================================== *)

Module BaseSpec.
Import Errors PyVal Base.

(** A message that is a dict with a role and a content. *)
Definition message_shaped (msg : pyval) : Prop :=
  exists d : gmap string pyval,
    msg = VDict d /\ is_Some (d !! "role") /\ is_Some (d !! "content").

(** A request with a model and a non-empty list of such messages. *)
Definition request_shaped (params : gmap string pyval) : Prop :=
  is_Some (params !! "model") /\
  exists (msg : pyval) (rest : list pyval),
    params !! "messages" = Some (VList (msg :: rest)) /\
    List.Forall message_shaped (msg :: rest).

(** One turn of the retry loop of [_make_api_call]: the call under its
    deadline, then the validation of what it returned. *)
Definition attempt_result `{Pydantic} (json_loads : string -> option pyval)
    (o : http_outcome) : result APIResponse :=
  match wait_for_call o with
  | Ok response => _validate_response json_loads response
  | Raise e => Raise e
  end.

(** [create_default_config()] with the environment's API key and site
    URL. *)
Definition create_default_config (api_key site_url : string)
  : ConfigObject * ConfigObject * ConfigObject :=
  (mk_ConfigObject (Config.REASONING_CONFIG api_key site_url) None,
   mk_ConfigObject (Config.PLANNING_CONFIG api_key site_url) None,
   mk_ConfigObject (Config.EXECUTOR_CONFIG api_key site_url) None).

(** A 200 response with one assistant message. *)
Definition good_payload : pyval :=
  VDict (<["choices" :=
             VList [VDict (<["message" :=
                               VDict (<["role" := VStr "assistant"]>
                                        (<["content" := VStr "Clear skies."]> ∅))]> ∅)]]>
           (<["model" := VStr "gpt-4"]> ∅)).

(** A network that fails twice and then answers. *)
Definition third_time_lucky (k : nat) : http_outcome :=
  match k with
  | O => TimedOut
  | S O => Response 503 "busy" (Ok VNone)
  | _ => Response 200 "" (Ok good_payload)
  end.

End BaseSpec.
(* ===================================================================== *)
(** * The modules' exponential backoff and the executor's clean-up *)
(* ===================================================================== *)

Module Backoff.
Import Errors PyVal Base.

(** What a call of [_make_api_call_with_backoff] comes to: it returns, it
    raises, or it starts a sleep that never ends. *)
Inductive outcome :=
| Returns (response : option APIResponse)
| Raises (e : exn)
| SleepsForever.

(** What a call did: the network attempts it made and the arguments of its
    calls of [asyncio.sleep], oldest first. *)
Record backoff_log := mk_backoff_log {
  network_attempts : nat;
  sleeps : list Config.pyfloat
}.

(** The floats end below [2 ** 1024]. *)
Definition float_limit : Z := 2 ^ 1024.

(** [retry_delay * (2 ** attempt)] for a finite float [retry_delay].  The
    power is an [int] and is converted to a float first, which raises
    OverflowError from [2 ** 1024] on.  The product of a float and a power
    of two is exact as long as it is a float, and an infinity from
    [2 ** 1024] on. *)
Definition wait_time (retry_delay : Q) (attempt : Z)
  : result Config.pyfloat :=
  if 1024 <=? attempt then
    Raise (error OverflowError "int too large to convert to float")
  else
    let product := (retry_delay * inject_Z (2 ^ attempt))%Q in
    if Qle_bool (inject_Z float_limit) product then Ok Config.PosInf
    else if Qle_bool product (- inject_Z float_limit) then Ok Config.NegInf
    else Ok (Config.Finite product).

(** The [for attempt in range(max_retries)] loop of
    [_make_api_call_with_backoff], the same in the reasoning module, the
    planner and the executor.  Each turn is a whole [_make_api_call] with
    [max_retries=1] and [retry_delay=0]; the network attempts of the turns
    are numbered on, and the sleeps of the inner calls are logged with
    those of the loop.  What the computation of the delay raises leaves
    the method, and [asyncio.sleep] of the positive infinity never
    returns.  When the loop ends without a return the method returns
    [None]. *)
Fixpoint backoff_loop `{Pydantic} (json_loads : string -> option pyval)
    (net : nat -> http_outcome) (request_kwargs : gmap string pyval)
    (error_prefix : string) (max_retries : Z) (retry_delay : Q)
    (remaining : nat) (attempt : Z) (log : backoff_log)
  : outcome * backoff_log :=
  match remaining with
  | O => (Returns None, log)
  | S remaining' =>
      let call :=
        _make_api_call json_loads (fun k => net (network_attempts log + k)%nat)
          request_kwargs error_prefix 1 0 in
      let log1 :=
        mk_backoff_log (network_attempts log + attempts_made (snd call))
          (sleeps log ++ List.map Config.Finite (delays (snd call))) in
      match fst call with
      | Ok validated => (Returns (Some validated), log1)
      | Raise e =>
          if attempt =? max_retries - 1 then (Raises e, log1)
          else
            match wait_time retry_delay attempt with
            | Raise overflow => (Raises overflow, log1)
            | Ok Config.PosInf =>
                (SleepsForever,
                 mk_backoff_log (network_attempts log1)
                   (sleeps log1 ++ [Config.PosInf]))
            | Ok delay =>
                backoff_loop json_loads net request_kwargs error_prefix
                  max_retries retry_delay remaining' (attempt + 1)
                  (mk_backoff_log (network_attempts log1)
                     (sleeps log1 ++ [delay]))
            end
      end
  end.

Definition _make_api_call_with_backoff `{Pydantic}
    (json_loads : string -> option pyval) (net : nat -> http_outcome)
    (request_kwargs : gmap string pyval) (error_prefix : string)
    (max_retries : Z) (retry_delay : Q)
  : outcome * backoff_log :=
  backoff_loop json_loads net request_kwargs error_prefix max_retries
    retry_delay (Z.to_nat max_retries) 0 (mk_backoff_log 0 []).

(** The delays of [n] turns that all fail, from the turn number [attempt]
    on: in each turn [pause], and between two turns the exponential
    delay. *)
Fixpoint exponential_delays (retry_delay : Q) (pause : list Q) (attempt : Z)
    (n : nat) : list Q :=
  match n with
  | O => []
  | S O => pause
  | S n' =>
      pause ++ (retry_delay * inject_Z (2 ^ attempt))%Q
        :: exponential_delays retry_delay pause (attempt + 1) n'
  end.

(** The outcome of a run of the loop that makes at least one turn: a
    response with content; an LLMError with the prefix, or the
    OverflowError of the delay, which takes 1026 turns allowed; or a sleep
    of infinity, which takes a delay beyond the floats. *)
Definition settled (prefix : string) (max_retries : Z) (retry_delay : Q)
    (r : outcome) : Prop :=
  match r with
  | Returns None => False
  | Returns (Some v) =>
      exists (first : MessageContent) (rest : list MessageContent),
        choices v = first :: rest /\ content first <> ""
  | Raises e =>
      (isinstance e LLMError = true /\
       PyStr.startswith (prefix +:+ ": ") (message e) = true) \/
      (cls e = OverflowError /\ 1026 <= max_retries)
  | SleepsForever =>
      exists a : Z,
        0 <= a <= max_retries - 2 /\
        (inject_Z float_limit <= retry_delay * inject_Z (2 ^ a))%Q
  end.

(** A network that never answers in time. *)
Definition dead_network (_ : nat) : http_outcome := TimedOut.

End Backoff.

Module Executor.
Import Errors PyVal.

(** [response.replace('\x00', '')] *)
Fixpoint remove_nul (s : string) : string :=
  match s with
  | EmptyString => EmptyString
  | String c s' =>
      if Ascii.eqb c Ascii.zero then remove_nul s' else String c (remove_nul s')
  end.

(** [_validate_execution_response(response)] *)
Definition _validate_execution_response (response : pyval) : result string :=
  match response with
  | VStr (String _ _ as text) =>
      let response := remove_nul text in
      if Z.of_nat (String.length (PyStr.strip response)) <? 10 then
        Raise (error ExecutorError "Invalid execution response: Response too short")
      else Ok (PyStr.strip response)
  | _ =>
      Raise (error ExecutorError
               "Invalid execution response: Must be a non-empty string")
  end.

End Executor.
(* ===================================================================== *)
(** * config.py: the request parameters *)
(* ===================================================================== *)

Module ConfigParams.
Import Config.

(** The values of the request parameters. *)
Inductive param :=
| PStr (s : string)
| PFloat (x : pyfloat)
| PInt (z : Z).

(** [a != b] on floats: NaN differs from everything. *)
Definition fne (a b : pyfloat) : bool :=
  match a, b with
  | Finite x, Finite y => negb (Qeq_bool x y)
  | PosInf, PosInf | NegInf, NegInf => false
  | _, _ => true
  end.

Definition to_request_params (self : LLMConfig) : gmap string param :=
  let params : gmap string param :=
    <["model" := PStr (model self)]>
      (<["temperature" := PFloat (temperature self)]>
         (<["top_p" := PFloat (top_p self)]> ∅)) in
  let params :=
    match max_tokens self with
    | Some n => <["max_tokens" := PInt n]> params
    | None => params
    end in
  let params :=
    match top_k self with
    | Some n => <["top_k" := PInt n]> params
    | None => params
    end in
  let params :=
    if fne (presence_penalty self) (Finite 0)
    then <["presence_penalty" := PFloat (presence_penalty self)]> params
    else params in
  let params :=
    if fne (frequency_penalty self) (Finite 0)
    then <["frequency_penalty" := PFloat (frequency_penalty self)]> params
    else params in
  params.

(** The names a request parameter can have. *)
Definition parameter_names : list string :=
  ["model"; "temperature"; "top_p"; "max_tokens"; "top_k";
   "presence_penalty"; "frequency_penalty"].

(** A float in the closed range that is not zero. *)
Definition nonzero_within (lo hi : Q) (x : pyfloat) : Prop :=
  within lo hi x /\ ~ (exists q : Q, x = Finite q /\ (q == 0)%Q).

End ConfigParams.
(* ===================================================================== *)
(** * agent.py: what a context update leaves in the modules *)
(* ===================================================================== *)

Module AgentSpec.
Import PyVal Agent.

(** The names of the fields of [AgentContext]. *)
Definition field_names : list string :=
  ["domain"; "expertise_level"; "preferred_language"; "additional_context"].

(** The module's context holds the four fields of [v], and under every
    other name what [before] held. *)
Definition holds_fields (v : AgentContext) (before after : Base.BaseLLMModule)
  : Prop :=
  Base.context after !! "domain" = Some (VStr (domain v)) /\
  Base.context after !! "expertise_level" = Some (VStr (expertise_level v)) /\
  Base.context after !! "preferred_language"
  = Some (VStr (preferred_language v)) /\
  Base.context after !! "additional_context"
  = Some (VDict (additional_context v)) /\
  (forall k : string,
     k ∉ field_names -> Base.context after !! k = Base.context before !! k) /\
  Base.config after = Base.config before.

(** The context of example.py with a key that is no field. *)
Definition noisy_context : gmap string pyval :=
  <["user_context" := VStr "be brief"]> example_context.

End AgentSpec.
(* ===================================================================== *)
(** * llms/image_handler.py *)
(* ===================================================================== *)

Module ImageHandler.
Import Errors.

(** What the file system does with a path: [Path.exists()],
    [stat().st_size] and [imghdr.what].  Each of them can raise, an OSError
    for a directory or a file that may not be read. *)
Record file_obs := mk_file_obs {
  path_exists : result bool;
  st_size : result Z;
  imghdr_what : result (option string)
}.

Definition MAX_IMAGE_SIZE : Z := 20 * 1024 * 1024.

(** The set [SUPPORTED_FORMATS]. *)
Definition SUPPORTED_FORMATS : gset string :=
  {["jpeg"; "png"; "gif"; "webp"]}.

(** [validate_image(image_path)].  Nothing here is inside a [try]: what
    the file system raises leaves the function.  [listing] is the order in
    which the set of formats is iterated for the message. *)
Definition validate_image (image_path : string) (listing : list string)
    (f : file_obs) : result bool :=
  match path_exists f with
  | Raise e => Raise e
  | Ok false =>
      Raise (error ValueError ("Image file not found: " +:+ image_path))
  | Ok true =>
      match st_size f with
      | Raise e => Raise e
      | Ok size =>
          if size >? MAX_IMAGE_SIZE then
            Raise (error ValueError
                     "Image size exceeds maximum allowed size of 20.0MB")
          else
            let unsupported :=
              error ValueError
                ("Unsupported image format. Supported formats: "
                   +:+ PyStr.join ", " listing) in
            match imghdr_what f with
            | Raise e => Raise e
            | Ok (Some img_format) =>
                if negb (PyStr.truthy img_format)
                   || negb (bool_decide (img_format ∈ SUPPORTED_FORMATS))
                then Raise unsupported
                else Ok true
            | Ok None => Raise unsupported
            end
      end
  end.

(** ** base64 *)

Definition alphabet : string :=
  "ABCDEFGHIJKLMNOPQRSTUVWXYZabcdefghijklmnopqrstuvwxyz0123456789+/".

(** The character of a six-bit value. *)
Definition sextet (n : N) : ascii :=
  default "="%char (String.get (N.to_nat (n mod 64)) alphabet).

(** [base64.b64encode(data).decode('utf-8')]; the bytes are the code points
    of [data]. *)
Fixpoint b64encode (data : string) : string :=
  match data with
  | EmptyString => EmptyString
  | String a EmptyString =>
      let n := (PyStr.ord a * 65536)%N in
      String (sextet (n / 262144)) (String (sextet (n / 4096)) "==")
  | String a (String b EmptyString) =>
      let n := (PyStr.ord a * 65536 + PyStr.ord b * 256)%N in
      String (sextet (n / 262144))
        (String (sextet (n / 4096)) (String (sextet (n / 64)) "="))
  | String a (String b (String c rest)) =>
      let n := (PyStr.ord a * 65536 + PyStr.ord b * 256 + PyStr.ord c)%N in
      String (sextet (n / 262144))
        (String (sextet (n / 4096))
           (String (sextet (n / 64)) (String (sextet n) (b64encode rest))))
  end.

(** ** Encoding *)

(** An opened image, as far as [encode_image] looks at it before it hands
    it to PIL. *)
Record image := mk_image {
  size : Z * Z;
  mode : string
}.

(** The true division [a / b] of two integers raises OverflowError when
    the quotient, rounded to a float, is beyond the floats: from
    [2 ** 1024 - 2 ** 970] on in magnitude. *)
Definition too_large_for_float (a b : Z) : bool :=
  (2 ^ 1024 - 2 ^ 970) * Z.abs b <=? Z.abs a.

(** [encode_image(image_path, max_dimension)].  Everything happens inside
    [try ... except Exception as e], which keeps [str(e)] only, so a step
    that can raise yields [inl] of that text or [inr] of its value.
    [opened] is what [Image.open] does, [saved] what PIL's conversion to
    RGB and its JPEG encoder do with the image, [mime_type] the guess of
    [mimetypes].  With a [max_dimension] that is neither [None] nor zero,
    [max_dimension / max(img.size)] is a division by zero, or too large
    for a float, or a float, and [min] of one float raises. *)
Definition encode_image (image_path : string) (listing : list string)
    (f : file_obs) (opened : string + image) (max_dimension : option Z)
    (saved : string + string) (mime_type : option string) : result string :=
  let body : string + string :=
    match validate_image image_path listing f with
    | Raise e => inl (message e)
    | Ok _ =>
        match opened with
        | inl e => inl e
        | inr img =>
            let ratio : string + unit :=
              match max_dimension with
              | Some n =>
                  let side := Z.max (fst (size img)) (snd (size img)) in
                  if n =? 0 then inr tt
                  else if side =? 0 then inl "division by zero"
                  else if too_large_for_float n side
                  then inl "integer division result too large for a float"
                  else inl "'float' object is not iterable"
              | None => inr tt
              end in
            match ratio with
            | inl e => inl e
            | inr _ =>
                match saved with
                | inl e => inl e
                | inr image_data =>
                    let base64_image := b64encode image_data in
                    let mime_type :=
                      match mime_type with
                      | Some m => if PyStr.truthy m then m else "image/jpeg"
                      | None => "image/jpeg"
                      end in
                    inr ("data:" +:+ mime_type +:+ ";base64," +:+ base64_image)
                end
            end
        end
    end in
  match body with
  | inl e => Raise (error ValueError ("Failed to process image: " +:+ e))
  | inr uri => Ok uri
  end.

(** A PNG of 4 kB, and a directory. *)
Definition photo : file_obs :=
  mk_file_obs (Ok true) (Ok 4096) (Ok (Some "png")).

Definition folder : file_obs :=
  mk_file_obs (Ok true) (Ok 4096)
    (Raise (error OSError "[Errno 21] Is a directory: 'photos'")).

End ImageHandler.
(* ===================================================================== *)
(** * llms/planner.py: the shape of the steps *)
(* ===================================================================== *)

Module PlannerSpec.

(** A string that holds no line break. *)
Definition single_line (s : string) : Prop :=
  PyStr.has_char PyStr.newline s = false.

(** A plan whose steps are marked by dashes. *)
Definition dashed_plan : string :=
  "- Check forecast" +:+ String PyStr.newline
  ("  for tomorrow" +:+ String PyStr.newline "- Report result").

End PlannerSpec.

(* ===================================================================== *)
(* ===================================================================== *)
(** * Properties *)
(* ===================================================================== *)
(* ===================================================================== *)

Module SHA256Tests.
Import SHA256.

(** The round constants and the initial hash value of FIPS 180-4, by their
    first and last words. *)
Example round_constants :
  length K = 64%nat /\ nth 0 K 0 = 0x428a2f98 /\ nth 63 K 0 = 0xc67178f2 /\
  length H0 = 8%nat /\ nth 0 H0 0 = 0x6a09e667 /\ nth 7 H0 0 = 0x5be0cd19.
Proof. repeat split. Qed.

(** The digests of the empty message and of "abc". *)
Example hexdigest_empty :
  hexdigest (encode "")
  = "e3b0c44298fc1c149afbf4c8996fb92427ae41e4649b934ca495991b7852b855".
Proof. vm_compute. reflexivity. Qed.

Example hexdigest_abc :
  hexdigest (encode "abc")
  = "ba7816bf8f01cfea414140de5dae2223b00361a396177a9cb410ff61f20015ad".
Proof. vm_compute. reflexivity. Qed.

End SHA256Tests.

Module ErrorsProofs.
Import Errors.

Lemma error_map_other status text :
  status <> 400 -> status <> 401 -> status <> 403 -> status <> 429 ->
  status <> 500 -> status <> 502 -> status <> 503 -> status <> 504 ->
  error_map status text !! status = None.
Proof.
  intros. unfold error_map. apply not_elem_of_list_to_map_1.
  cbn [fmap list_fmap fst]. rewrite !elem_of_cons, elem_of_nil. intuition lia.
Qed.

(** C6 (amended).  [raise_for_status_code] raises nothing below 400; from
    400 on it raises an error carrying the status and the response text,
    whose class is InvalidRequestError for 400, AuthenticationError for 401
    and 403, QuotaExceededError for 429, ServiceUnavailableError for 500,
    502, 503 and 504, and the generic APIError for every other status, the
    other 5xx statuses included. *)
Theorem raise_for_status_code_classes (status : Z) (text : option string) :
  (status < 400 -> raise_for_status_code status text = Ok tt) /\
  (400 <= status ->
   exists e : exn,
     raise_for_status_code status text = Raise e /\
     status_code e = Some status /\ response e = text /\
     (status = 400 -> cls e = InvalidRequestError) /\
     (status = 401 \/ status = 403 -> cls e = AuthenticationError) /\
     (status = 429 -> cls e = QuotaExceededError) /\
     (status = 500 \/ status = 502 \/ status = 503 \/ status = 504 ->
      cls e = ServiceUnavailableError) /\
     (status <> 400 -> status <> 401 -> status <> 403 -> status <> 429 ->
      status <> 500 -> status <> 502 -> status <> 503 -> status <> 504 ->
      cls e = APIError)).
Proof.
  unfold raise_for_status_code. split; intros Hs.
  - destruct (Z.leb_spec 400 status); [lia | reflexivity].
  - destruct (Z.leb_spec 400 status); [|lia].
    eexists. split; [reflexivity|].
    destruct (decide (status ∈ [400; 401; 403; 429; 500; 502; 503; 504]))
      as [Hin|Hout].
    + rewrite !elem_of_cons, elem_of_nil in Hin.
      destruct Hin as [->|[->|[->|[->|[->|[->|[->|[->|[]]]]]]]]];
        vm_compute; repeat split; try reflexivity; intros; lia.
    + rewrite !elem_of_cons, elem_of_nil in Hout.
      rewrite error_map_other by lia. cbn [default cls status_code response].
      repeat split; try reflexivity; intros; lia.
Qed.

(** C6, witness: the statuses 200 and 418. *)
Lemma raise_for_status_code_classes_witness :
  raise_for_status_code 200 None = Ok tt /\
  exists e : exn,
    raise_for_status_code 418 None = Raise e /\ cls e = APIError.
Proof.
  split.
  - apply (proj1 (raise_for_status_code_classes 200 None)). lia.
  - destruct (proj2 (raise_for_status_code_classes 418 None)) as (e & He & _ & _ & _ & _ & _ & _ & Hc);
      [lia|].
    exists e. split; [exact He | apply Hc; lia].
Defined.

(** C6, counterexample.  The status 501 lies in 500-599 and is raised as a
    generic APIError, not as a ServiceUnavailableError. *)
Lemma status_501_counterexample :
  500 <= 501 <= 599 /\
  exists e : exn,
    raise_for_status_code 501 None = Raise e /\
    cls e = APIError /\ cls e <> ServiceUnavailableError.
Proof.
  split; [lia|]. eexists. split; [reflexivity|]. split; [reflexivity|].
  vm_compute. discriminate.
Qed.

End ErrorsProofs.

Module ConfigProofs.
Import Errors Config.

Lemma between_within (lo hi : Q) (x : pyfloat) :
  between (Finite lo) x (Finite hi) = true <-> within lo hi x.
Proof.
  unfold between, within. destruct x as [q| | |]; cbn.
  - rewrite andb_true_iff, !Qle_bool_iff. reflexivity.
  - split; [discriminate | tauto].
  - split; [discriminate | tauto].
  - split; [discriminate | tauto].
Qed.

Lemma not_between (lo hi : Q) (x : pyfloat) :
  ~ within lo hi x -> negb (between (Finite lo) x (Finite hi)) = true.
Proof.
  intros H. apply negb_true_iff.
  destruct (between (Finite lo) x (Finite hi)) eqn:E; [|reflexivity].
  apply between_within in E. contradiction.
Qed.

(** A configuration whose four sampling parameters are in range is built. *)
Lemma LLMConfig_init_in_range (c : LLMConfig) :
  within 0 2 (temperature c) -> within 0 1 (top_p c) ->
  within (-2) 2 (presence_penalty c) -> within (-2) 2 (frequency_penalty c) ->
  LLMConfig_init c = Ok c.
Proof.
  intros Ht Hp Hpp Hf. unfold LLMConfig_init, __post_init__.
  apply between_within in Ht, Hp, Hpp, Hf.
  rewrite Ht, Hp, Hpp, Hf. reflexivity.
Qed.

Lemma LLMConfig_init_out_of_range (c : LLMConfig) :
  ~ within 0 2 (temperature c) \/ ~ within 0 1 (top_p c) \/
  ~ within (-2) 2 (presence_penalty c) \/ ~ within (-2) 2 (frequency_penalty c) ->
  exists e : exn, LLMConfig_init c = Raise e /\ cls e = ValueError.
Proof.
  intros H. unfold LLMConfig_init, __post_init__.
  destruct (negb (between (Finite 0) (temperature c) (Finite 2))) eqn:E1;
    [eexists; split; reflexivity|].
  destruct (negb (between (Finite 0) (top_p c) (Finite 1))) eqn:E2;
    [eexists; split; reflexivity|].
  destruct (negb (between (Finite (-2)) (presence_penalty c) (Finite 2))) eqn:E3;
    [eexists; split; reflexivity|].
  destruct (negb (between (Finite (-2)) (frequency_penalty c) (Finite 2))) eqn:E4;
    [eexists; split; reflexivity|].
  exfalso.
  destruct H as [H|[H|[H|H]]]; apply not_between in H; congruence.
Qed.

End ConfigProofs.

Module LimiterProofs.
Import Errors Limiter.

Lemma Qltb_lt (a b : Q) : Qltb a b = true <-> (a < b)%Q.
Proof.
  unfold Qltb. rewrite negb_true_iff. split.
  - intros H. apply Qnot_le_lt. intros Hle.
    apply Qle_bool_iff in Hle. congruence.
  - intros H. destruct (Qle_bool b a) eqn:E; [|reflexivity].
    apply Qle_bool_iff in E. exfalso. now apply (Qlt_not_le a b).
Qed.

Lemma prune_In now times t :
  In t (prune now times) <-> In t times /\ (now - t < 60)%Q.
Proof. unfold prune. rewrite filter_In, Qltb_lt. reflexivity. Qed.

Lemma prune_sorted now times :
  StronglySorted Qle times -> StronglySorted Qle (prune now times).
Proof.
  induction 1 as [|t ts Hs IH Hall]; cbn; [constructor|].
  destruct (Qltb (now - t) 60); [|exact IH].
  constructor; [exact IH|].
  rewrite List.Forall_forall in *. intros x Hx.
  apply Hall. now apply prune_In in Hx.
Qed.

Lemma prune_head_oldest now times oldest rest :
  StronglySorted Qle times ->
  prune now times = oldest :: rest -> List.Forall (Qle oldest) rest.
Proof.
  intros Hs Hp. apply (prune_sorted now) in Hs. rewrite Hp in Hs.
  now apply StronglySorted_inv in Hs.
Qed.

Lemma acquire_unfold model w rl v :
  _rate_limits (limiter w) !! model = Some rl ->
  _locks (limiter w) !! model = Some v -> 0 < v ->
  acquire model w
  = let '(out, w2) :=
      admission model rl
        (mk_world (set_locks (v - 1) model (limiter w)) (clock w) (sleeps w)) in
    (out, mk_world (sem_release model (limiter w2)) (clock w2) (sleeps w2)).
Proof.
  intros Hrl Hv Hpos. unfold acquire. rewrite Hrl, Hv.
  destruct (Z.leb_spec v 0); [lia | reflexivity].
Qed.

(** C8.  Take a rate-limited model with a free permit.  Each admission
    check keeps exactly the timestamps less than 60 seconds old, and the
    window it leaves is the kept timestamps, followed by the new one when
    the call returns.  When
    the kept window holds at least [requests_per_minute] timestamps, its
    first timestamp being [oldest], the wait [60 - (now - oldest)] is
    positive, the caller sleeps exactly that long, once, and then proceeds;
    [oldest] is the oldest timestamp of the window when the window is in
    time order. *)
Theorem acquire_admission_check
    (model : string) (w : world) (rl : RateLimit) (v : Z) (times : list Q) :
  _rate_limits (limiter w) !! model = Some rl ->
  _locks (limiter w) !! model = Some v ->
  0 < v ->
  _request_times (limiter w) !! model = Some times ->
  (forall t : Q,
     In t (prune (clock w) times) <-> In t times /\ (clock w - t < 60)%Q) /\
  (exists (out : outcome) (w' : world),
     acquire model w = (out, w') /\
     _request_times (limiter w') !! model
     = Some (match out with
             | Returned => prune (clock w) times ++ [clock w']
             | _ => prune (clock w) times
             end)) /\
  (forall (oldest : Q) (rest : list Q),
     prune (clock w) times = oldest :: rest ->
     requests_per_minute rl <= Z.of_nat (length (oldest :: rest)) ->
     let wait_time := (60 - (clock w - oldest))%Q in
     (0 < wait_time)%Q /\
     (StronglySorted Qle times -> List.Forall (Qle oldest) rest) /\
     exists w' : world,
       acquire model w = (Returned, w') /\
       sleeps w' = sleeps w ++ [wait_time] /\
       clock w' = (clock w + wait_time)%Q).
Proof.
  intros Hrl Hv Hpos Ht.
  split; [intros t; apply prune_In|].
  rewrite (acquire_unfold model w rl v Hrl Hv Hpos).
  unfold admission. cbn [limiter clock sleeps set_locks _request_times].
  rewrite Ht. split.
  - destruct (Z.of_nat (length (prune (clock w) times))
              >=? requests_per_minute rl).
    + destruct (prune (clock w) times) as [|oldest rest] eqn:Hp.
      * do 2 eexists. split; [reflexivity|].
        unfold sem_release, set_times, set_locks; cbn.
        rewrite lookup_insert_eq; cbn. now rewrite lookup_insert_eq.
      * destruct (Qltb 0 (60 - (clock w - oldest))).
        -- do 2 eexists. split; [reflexivity|].
           unfold sem_release, set_times, set_locks; cbn.
           rewrite lookup_insert_eq; cbn. now rewrite lookup_insert_eq.
        -- do 2 eexists. split; [reflexivity|].
           unfold sem_release, set_times, set_locks; cbn.
           rewrite lookup_insert_eq; cbn. now rewrite lookup_insert_eq.
    + do 2 eexists. split; [reflexivity|].
      unfold sem_release, set_times, set_locks; cbn.
      rewrite lookup_insert_eq; cbn. now rewrite lookup_insert_eq.
  - intros oldest rest Hp Hfull.
    assert (Hw : (0 < 60 - (clock w - oldest))%Q).
    { assert (Hin : In oldest (prune (clock w) times))
        by (rewrite Hp; now left).
      apply prune_In in Hin as [_ Hlt]. lra. }
    split; [exact Hw|]. split; [intros Hs; eapply prune_head_oldest; eauto|].
    rewrite Hp.
    destruct (Z.geb_spec (Z.of_nat (length (oldest :: rest)))
                (requests_per_minute rl)); [|lia].
    apply Qltb_lt in Hw. rewrite Hw.
    eexists. split; [reflexivity|]. split; reflexivity.
Qed.

(** C8, witness: two requests a minute, made at times 0 and 10, and a third
    caller at time 30; it sleeps 30 seconds. *)
Lemma acquire_admission_check_witness :
  exists w' : world,
    acquire "m" full_window_world = (Returned, w') /\
    sleeps w' = [(60 - (30 - 0))%Q].
Proof.
  destruct (acquire_admission_check "m" full_window_world
              (mk_RateLimit 2 3) 3 [0%Q; 10%Q]
              eq_refl eq_refl eq_refl eq_refl) as (_ & _ & H).
  destruct (H 0%Q [10%Q] eq_refl) as (_ & _ & w' & Ha & Hs & _).
  - vm_compute. discriminate.
  - exists w'. split; [exact Ha | exact Hs].
Defined.

(** With [requests_per_minute] below one and an empty window the admission
    check raises: [acquire] reads the first timestamp of an empty list. *)
Lemma acquire_zero_rate_raises :
  exists w' : world,
    acquire "m"
      (fresh_world
         (mk_RateLimiter (<["m" := mk_RateLimit 0 1]> ∅) (<["m" := []]> ∅)
            (<["m" := 1]> ∅)) 0%Q)
    = (Raised (error IndexError "list index out of range"), w').
Proof. eexists. vm_compute. reflexivity. Qed.

(** The semaphore is left as it was found by every call of [acquire]: the
    permit taken on entering [async with] is given back on leaving it. *)
Lemma acquire_keeps_no_permit model w out w' :
  acquire model w = (out, w') -> _locks (limiter w') = _locks (limiter w).
Proof.
  unfold acquire. destruct (_rate_limits (limiter w) !! model) as [rl|];
    [|intros [= _ <-]; reflexivity].
  destruct (_locks (limiter w) !! model) as [v|] eqn:Hv;
    [|intros [= _ <-]; reflexivity].
  destruct (v <=? 0); [intros [= _ <-]; reflexivity|].
  assert (Hback : forall r : RateLimiter,
             _locks r = <[model := v - 1]> (_locks (limiter w)) ->
             _locks (sem_release model r) = _locks (limiter w)).
  { intros r Hr. unfold sem_release. rewrite Hr, lookup_insert_eq. cbn.
    rewrite Hr, insert_insert_eq. replace (v - 1 + 1) with v by lia.
    now apply insert_id. }
  unfold admission. cbn [limiter clock sleeps set_locks _request_times].
  destruct (_request_times (limiter w) !! model) as [times|].
  - destruct (_ >=? _).
    + destruct (prune (clock w) times) as [|oldest rest].
      * intros [= _ <-]. now apply Hback.
      * destruct (Qltb _ _); intros [= _ <-]; now apply Hback.
    + intros [= _ <-]. now apply Hback.
  - intros [= _ <-]. now apply Hback.
Qed.

(** C3, the code at the failing input.  With one permit configured, two
    callers return from [acquire] with no [release] in between, and the
    semaphore still shows one free permit; the first [release] then raises
    it to two. *)
Lemma acquire_twice_without_release :
  exists (r : RateLimiter) (w1 w2 : world),
    RateLimiter_init one_at_a_time = Ok r /\
    acquire "m" (fresh_world r 0%Q) = (Returned, w1) /\
    acquire "m" w1 = (Returned, w2) /\
    _locks (limiter w2) !! "m" = Some 1 /\
    _locks (limiter (release "m" w2)) !! "m" = Some 2.
Proof.
  do 3 eexists. split; [vm_compute; reflexivity|].
  split; [vm_compute; reflexivity|].
  split; [vm_compute; reflexivity|].
  split; vm_compute; reflexivity.
Qed.

End LimiterProofs.

Module LimiterInvariant.
Import Errors Limiter.

Lemma sorted_snoc (ts : list Q) (t : Q) :
  StronglySorted Qle ts -> List.Forall (fun x => (x <= t)%Q) ts ->
  StronglySorted Qle (ts ++ [t]).
Proof.
  induction 1 as [|x xs Hs IH Hall]; intros Hle; cbn.
  - constructor; constructor.
  - apply List.Forall_cons_iff in Hle as [Hx Hxs]. constructor; [now apply IH|].
    apply List.Forall_app. split; [exact Hall|]. constructor; [exact Hx|constructor].
Qed.

Lemma prune_bounded now times (bound : Q) :
  List.Forall (fun t => (t <= bound)%Q) times ->
  List.Forall (fun t => (t <= bound)%Q) (prune now times).
Proof.
  rewrite !List.Forall_forall. intros H t Ht.
  apply H. now apply LimiterProofs.prune_In in Ht.
Qed.

Lemma window_after (kept : list Q) (old now : Q) :
  StronglySorted Qle kept -> List.Forall (fun t => (t <= old)%Q) kept ->
  (old <= now)%Q ->
  StronglySorted Qle (kept ++ [now]) /\
  List.Forall (fun t => (t <= now)%Q) (kept ++ [now]).
Proof.
  intros Hs Hb Hle.
  assert (Hb' : List.Forall (fun t => (t <= now)%Q) kept).
  { rewrite List.Forall_forall in *. intros t Ht. specialize (Hb t Ht). lra. }
  split; [now apply sorted_snoc|].
  apply List.Forall_app. split; [exact Hb'|]. constructor; [lra|constructor].
Qed.

(** X5.  Every call of [acquire] that returns keeps the window of its
    model in time order: the timestamp it adds is the latest. *)
Lemma acquire_keeps_time_order (model : string) (w w' : world) :
  window_ok model w ->
  acquire model w = (Returned, w') ->
  window_ok model w'.
Proof.
  intros Hok. unfold acquire.
  destruct (_rate_limits (limiter w) !! model) as [rl|];
    [|intros [= <-]; exact Hok].
  destruct (_locks (limiter w) !! model) as [v|]; [|discriminate].
  destruct (v <=? 0); [discriminate|].
  unfold admission. cbn [limiter clock sleeps set_locks _request_times].
  destruct (_request_times (limiter w) !! model) as [times|] eqn:Ht;
    [|discriminate].
  destruct (Hok times Ht) as [Hs Hb].
  pose proof (LimiterProofs.prune_sorted (clock w) times Hs) as Hs'.
  pose proof (prune_bounded (clock w) times (clock w) Hb) as Hb'.
  assert (Hdone : forall (now : Q) (sl : list Q),
             (clock w <= now)%Q ->
             window_ok model
               (mk_world
                  (sem_release model
                     (set_times (prune (clock w) times ++ [now]) model
                        (set_times (prune (clock w) times) model
                           (set_locks (v - 1) model (limiter w)))))
                  now sl)).
  { intros now sl Hle ts.
    unfold sem_release, set_times, set_locks. cbn.
    rewrite lookup_insert_eq. cbn. rewrite lookup_insert_eq.
    intros [= <-]. now apply (window_after _ (clock w)). }
  destruct (_ >=? _).
  - destruct (prune (clock w) times) as [|oldest rest] eqn:Hp; [discriminate|].
    destruct (Qltb 0 (60 - (clock w - oldest))) eqn:Hw.
    + intros [= <-]. apply Hdone. apply LimiterProofs.Qltb_lt in Hw. lra.
    + intros [= <-]. apply Hdone. lra.
  - intros [= <-]. apply Hdone. lra.
Qed.

(** Two requests a minute and three calls of [acquire] at time 0: the third
    sleeps the whole minute. *)
Example third_acquire_waits :
  exists (r : RateLimiter) (w1 w2 w3 : world),
    RateLimiter_init (<["m" := mk_RateLimit 2 3]> ∅) = Ok r /\
    acquire "m" (fresh_world r 0%Q) = (Returned, w1) /\ sleeps w1 = [] /\
    acquire "m" w1 = (Returned, w2) /\ sleeps w2 = [] /\
    acquire "m" w2 = (Returned, w3) /\ sleeps w3 = [(60 - (0 - 0))%Q].
Proof.
  do 4 eexists. split; [vm_compute; reflexivity|].
  split; [vm_compute; reflexivity|]. split; [reflexivity|].
  split; [vm_compute; reflexivity|]. split; [reflexivity|].
  split; [vm_compute; reflexivity|]. reflexivity.
Qed.

(** [RateLimiter] itself is built from any bounds that are not negative:
    nothing there checks that they are at least one. *)
Lemma RateLimiter_init_accepts_zero :
  exists r : RateLimiter,
    RateLimiter_init (<["m" := mk_RateLimit 0 0]> ∅) = Ok r.
Proof. eexists. vm_compute. reflexivity. Qed.

End LimiterInvariant.

Module CacheProofs.
Import CacheControl.

Lemma has_slash provider name :
  PyStr.has_char "/" (provider +:+ String "/" name) = true.
Proof.
  induction provider as [|c p IH]; simpl.
  - reflexivity.
  - rewrite IH. apply orb_true_r.
Qed.

(** A key of the pricing table is not a name with a slash in it. *)
Ltac not_this_key H :=
  let E := fresh in intros E; rewrite <- E in H; vm_compute in H; discriminate H.

Lemma no_price_with_slash model :
  PyStr.has_char "/" model = true -> should_enable_caching model = false.
Proof.
  intros H. unfold should_enable_caching.
  destruct (PyStr.contains "gpt" (PyStr.lower model)).
  - unfold PROVIDER_PRICING. rewrite lookup_insert_eq. cbn [default id].
    unfold id. rewrite !lookup_insert_ne by not_this_key H.
    rewrite lookup_empty. reflexivity.
  - destruct (PyStr.contains "claude" (PyStr.lower model)); [|reflexivity].
    unfold PROVIDER_PRICING.
    rewrite lookup_insert_ne by discriminate. rewrite lookup_insert_eq.
    cbn [default id]. unfold id.
    rewrite !lookup_insert_ne by not_this_key H.
    rewrite lookup_empty. reflexivity.
Qed.

(** C10.  [should_enable_caching] is false for every model identifier of
    the form provider/name, the three default models among them; for such
    a model [get_cached_response] returns [None] and [cache_response]
    returns, both without touching the cache manager. *)
Theorem prefixed_models_never_cached :
  (forall provider name : string,
     should_enable_caching (provider +:+ String "/" name) = false) /\
  (forall api_key site_url : string,
     should_enable_caching (Config.model (Config.REASONING_CONFIG api_key site_url))
     = false /\
     should_enable_caching (Config.model (Config.PLANNING_CONFIG api_key site_url))
     = false /\
     should_enable_caching (Config.model (Config.EXECUTOR_CONFIG api_key site_url))
     = false) /\
  (forall `{CacheSync.FileSystem} (provider name tag response : string)
          (messages : list (gmap string string)) (now : Q) (cm : CacheSync.CacheManager),
     get_cached_response tag (provider +:+ String "/" name) messages now cm
     = (Errors.Ok None, cm) /\
     cache_response tag (provider +:+ String "/" name) messages response now cm
     = cm).
Proof.
  split; [|split].
  - intros. apply no_price_with_slash, has_slash.
  - intros. repeat split; reflexivity.
  - intros. unfold get_cached_response, cache_response.
    rewrite (no_price_with_slash _ (has_slash provider name)). split; reflexivity.
Qed.

(** The normalising key function gives one key to contents that are equal
    after collapsing whitespace. *)
Lemma create_cache_key_collapses (c1 c2 role model : string)
    (kwargs : gmap string string) :
  PyStr.join " " (PyStr.split_ws c1) = PyStr.join " " (PyStr.split_ws c2) ->
  create_cache_key c1 role model kwargs = create_cache_key c2 role model kwargs.
Proof. intros H. unfold create_cache_key. now rewrite H. Qed.

(** On a key that memory does not hold, [create_cacheable_message] with a
    content of the size to cache leaves an entry under the key, the one of
    the key's file or a new one, whatever the file system does. *)
Lemma create_cacheable_message_stores `{CacheSync.FileSystem}
    (role content : string) (min_cache_size : Z) (now : Q)
    (cm : CacheSync.CacheManager) :
  (Z.of_nat (String.length content) <? min_cache_size) = false ->
  CacheSync._cache cm !! _calculate_cache_key content role = None ->
  exists e : CacheSync.entry,
    CacheSync._cache
      (snd (create_cacheable_message role content true min_cache_size now cm))
    = <[_calculate_cache_key content role := e]> (CacheSync._cache cm).
Proof.
  intros Hsize Hmiss. unfold create_cacheable_message. rewrite Hsize.
  cbn [negb orb]. unfold CacheSync.get, CacheSync._ensure_lock.
  cbn [CacheSync._cache CacheSync.files CacheSync._locks]. rewrite Hmiss.
  destruct (CacheSync.read_entry _ _) as [value|];
    [destruct (CacheSync._is_expired now value) as [[|]|];
     [|destruct (CacheSync.data value) as [|c rest]|]|];
    cbn [snd CacheSync.set CacheSync._ensure_lock CacheSync._cache];
    rewrite ?insert_insert_eq; eexists; reflexivity.
Qed.

(** C7, the code at the failing input.  The two requests are equal after
    collapsing whitespace and have the same role, yet the key computed on
    the message-caching path differs, so the second message misses the
    cache and is stored as a second entry, whatever the cache directory
    holds. *)
Lemma message_cache_key_keeps_whitespace :
  PyStr.join " " (PyStr.split_ws report_request)
  = PyStr.join " " (PyStr.split_ws report_request_spaced) /\
  _calculate_cache_key report_request "user" = "user_364359fc55a65ba7" /\
  _calculate_cache_key report_request_spaced "user" = "user_1a88e8842a218097" /\
  (forall `{CacheSync.FileSystem} (d : CacheSync.directory),
     let cm1 := snd (create_cacheable_message "user" report_request true 100
                       0%Q (CacheSync.CacheManager_init d)) in
     let cm2 := snd (create_cacheable_message "user" report_request_spaced true
                       100 1%Q cm1) in
     size (CacheSync._cache cm1) = 1%nat /\
     size (CacheSync._cache cm2) = 2%nat).
Proof.
  assert (K1 : _calculate_cache_key report_request "user"
               = "user_364359fc55a65ba7") by (vm_compute; reflexivity).
  assert (K2 : _calculate_cache_key report_request_spaced "user"
               = "user_1a88e8842a218097") by (vm_compute; reflexivity).
  split; [vm_compute; reflexivity|].
  split; [exact K1|]. split; [exact K2|].
  intros FS d. cbv zeta.
  assert (S1 : (Z.of_nat (String.length report_request) <? 100) = false)
    by (vm_compute; reflexivity).
  assert (S2 : (Z.of_nat (String.length report_request_spaced) <? 100) = false)
    by (vm_compute; reflexivity).
  pose proof (create_cacheable_message_stores "user" report_request 100 0%Q
                (CacheSync.CacheManager_init d) S1 (lookup_empty _)) as [e1 H1].
  rewrite K1 in H1. revert H1.
  generalize (snd (create_cacheable_message "user" report_request true 100 0%Q
                     (CacheSync.CacheManager_init d))) as cm1.
  intros cm1 H1. cbn [CacheSync.CacheManager_init CacheSync._cache] in H1.
  assert (Hmiss : CacheSync._cache cm1
                    !! _calculate_cache_key report_request_spaced "user" = None).
  { rewrite H1, K2. rewrite lookup_insert_ne by discriminate.
    apply lookup_empty. }
  pose proof (create_cacheable_message_stores "user" report_request_spaced 100
                1%Q cm1 S2 Hmiss) as [e2 H2].
  rewrite K2, H1 in H2. rewrite H2, H1. split.
  - rewrite map_size_insert_None by apply lookup_empty.
    now rewrite map_size_empty.
  - rewrite !map_size_insert_None, map_size_empty; [reflexivity | apply lookup_empty |].
    rewrite lookup_insert_ne by discriminate. apply lookup_empty.
Qed.

End CacheProofs.

Module BaseProofs.
Import Errors PyVal Base.

Lemma validate_config_rate_limit (self : BaseLLMModule) (rl : Limiter.RateLimit) :
  rate_limit (config self) = Some rl ->
  Limiter.requests_per_minute rl < 1 \/ Limiter.concurrent_requests rl < 1 ->
  exists e : exn, _validate_config self = Raise e /\ cls e = ValidationError.
Proof.
  intros Hrl Hbad. unfold _validate_config.
  destruct (negb (PyStr.truthy _)); [eexists; split; reflexivity|].
  destruct (negb (PyStr.truthy _)); [eexists; split; reflexivity|].
  rewrite Hrl.
  destruct (Z.ltb_spec (Limiter.requests_per_minute rl) 1);
    [eexists; split; reflexivity|].
  destruct (Z.ltb_spec (Limiter.concurrent_requests rl) 1);
    [eexists; split; reflexivity|].
  lia.
Qed.

(** What is checked at construction.  Building an [LLMConfig] whose
    temperature is outside [0,2], whose top_p is outside [0,1] or one of
    whose penalties is outside [-2,2] raises (a ValueError); and building a
    module from a configuration object that has a [rate_limit] attribute
    with [requests_per_minute] or [concurrent_requests] below one raises a
    ValidationError. *)
Theorem construction_fails_fast :
  (forall c : Config.LLMConfig,
     ~ Config.within 0 2 (Config.temperature c) \/
     ~ Config.within 0 1 (Config.top_p c) \/
     ~ Config.within (-2) 2 (Config.presence_penalty c) \/
     ~ Config.within (-2) 2 (Config.frequency_penalty c) ->
     exists e : exn, Config.LLMConfig_init c = Raise e /\ cls e = ValueError) /\
  (forall (cfg : ConfigObject) (rl : Limiter.RateLimit),
     rate_limit cfg = Some rl ->
     Limiter.requests_per_minute rl < 1 \/ Limiter.concurrent_requests rl < 1 ->
     exists e : exn, BaseLLMModule_init cfg = Raise e /\ cls e = ValidationError).
Proof.
  split.
  - apply ConfigProofs.LLMConfig_init_out_of_range.
  - intros cfg rl Hrl Hbad. unfold BaseLLMModule_init.
    destruct (validate_config_rate_limit (mk_BaseLLMModule cfg ∅ None) rl Hrl Hbad)
      as (e & He & Hc).
    rewrite He. now exists e.
Qed.

(** For instance a temperature of 3, and a rate limit of zero requests a
    minute set on the default reasoning configuration. *)
Lemma construction_fails_fast_witness :
  (exists e : exn,
     Config.LLMConfig_init (Config.default_config "gpt-4" 3 "key" "") = Raise e /\
     cls e = ValueError) /\
  (exists e : exn,
     BaseLLMModule_init
       (mk_ConfigObject (Config.REASONING_CONFIG "key" "")
          (Some (Limiter.mk_RateLimit 0 1))) = Raise e /\
     cls e = ValidationError).
Proof.
  split.
  - apply (proj1 construction_fails_fast). left. cbn. lra.
  - apply (proj2 construction_fails_fast _ (Limiter.mk_RateLimit 0 1));
      [reflexivity | left; cbn; lia].
Defined.

(** C9, the code at the failing input.  A limiter is built from a limit of
    zero requests a minute: [RateLimiter] checks none of its bounds.  The
    check of [_validate_config] is not reached either, since an [LLMConfig]
    has no [rate_limit]: the default reasoning module is built.  The first
    [acquire] for the model then raises IndexError. *)
Lemma rate_limit_below_one_admitted :
  exists (r : Limiter.RateLimiter) (m : BaseLLMModule) (w' : Limiter.world),
    Limiter.RateLimiter_init (<["m" := Limiter.mk_RateLimit 0 1]> ∅) = Ok r /\
    BaseLLMModule_init (mk_ConfigObject (Config.REASONING_CONFIG "key" "") None)
    = Ok m /\
    Limiter.acquire "m" (Limiter.fresh_world r 0%Q)
    = (Limiter.Raised (error IndexError "list index out of range"), w').
Proof.
  do 3 eexists. split; [vm_compute; reflexivity|].
  split; [reflexivity|]. vm_compute. reflexivity.
Qed.

(** C2 (amended).  Two calls of a module's [add_context] succeed and leave
    the second mapping merged over the first, merged over the context the
    module had: a key of [m2] holds its [m2] value, a key of [m1] that [m2]
    lacks keeps its [m1] value, and a key of neither is as it was. *)
Theorem add_context_merges (self : BaseLLMModule) (m1 m2 : gmap string pyval) :
  exists s1 s2 : BaseLLMModule,
    add_context (VDict m1) self = Ok s1 /\
    add_context (VDict m2) s1 = Ok s2 /\
    context s2 = m2 ∪ (m1 ∪ context self) /\
    (forall (k : string) (v : pyval),
       m2 !! k = Some v -> context s2 !! k = Some v) /\
    (forall (k : string) (v : pyval),
       m1 !! k = Some v -> m2 !! k = None -> context s2 !! k = Some v) /\
    (forall k : string,
       m1 !! k = None -> m2 !! k = None -> context s2 !! k = context self !! k).
Proof.
  do 2 eexists. split; [reflexivity|]. split; [reflexivity|].
  cbn [context]. split; [reflexivity|]. split; [|split].
  - intros k v H. now apply lookup_union_Some_l.
  - intros k v H1 H2. rewrite lookup_union_r by assumption.
    now apply lookup_union_Some_l.
  - intros k H1 H2. now rewrite !lookup_union_r by assumption.
Qed.

(** C2, witness: a module whose context holds "k", then [{"a": "1"}] and
    [{"b": "2"}]. *)
Lemma add_context_merges_witness :
  exists s2 : BaseLLMModule,
    context s2 !! "b" = Some (VStr "2") /\
    context s2 !! "a" = Some (VStr "1") /\
    context s2 !! "k" = Some (VStr "0").
Proof.
  destruct (add_context_merges
              (mk_BaseLLMModule
                 (mk_ConfigObject (Config.REASONING_CONFIG "key" "") None)
                 {["k" := VStr "0"]} None)
              {["a" := VStr "1"]} {["b" := VStr "2"]})
    as (s1 & s2 & _ & _ & _ & H2 & H1 & H0).
  exists s2. split; [|split].
  - apply H2. reflexivity.
  - apply H1; reflexivity.
  - rewrite H0; reflexivity.
Defined.

(** C2, counterexample.  On a module with an empty context, adding
    [{"a": "1"}] and then [{"b": "2"}] leaves the key "a" in the context,
    which is therefore not the second mapping. *)
Lemma add_context_replace_counterexample :
  exists (self s1 s2 : BaseLLMModule),
    BaseLLMModule_init
      (mk_ConfigObject (Config.REASONING_CONFIG "key" "") None) = Ok self /\
    add_context (VDict {["a" := VStr "1"]}) self = Ok s1 /\
    add_context (VDict {["b" := VStr "2"]}) s1 = Ok s2 /\
    context s2 !! "a" = Some (VStr "1") /\
    ({["b" := VStr "2"]} : gmap string pyval) !! "a" = None /\
    context s2 <> {["b" := VStr "2"]}.
Proof.
  do 3 eexists. split; [reflexivity|]. split; [reflexivity|].
  split; [reflexivity|]. split; [reflexivity|]. split; [reflexivity|].
  intros H. apply (f_equal (fun m => m !! "a")) in H.
  vm_compute in H. discriminate H.
Qed.

End BaseProofs.

Module ExecutorProofs.
Import Errors PyVal Base.

Section WithPydantic.
Context `{Pydantic}.
Variable json_loads : string -> option pyval.

(** The [except] clause of [_validate_response] on the two kinds of error
    its [try] body produces itself. *)
Lemma validate_response_dict (d : gmap string pyval) :
  _validate_response json_loads (VDict d)
  = match validate_payload (VDict d) with
    | Ok v => Ok v
    | Raise e =>
        if isinstance e JSONDecodeError || isinstance e PydanticValidationError
        then Raise (error ValidationError
                      ("Invalid API response format: " +:+ message e))
        else Raise e
    end.
Proof. reflexivity. Qed.

Lemma APIResponse_init_cases (ms : list MessageContent) (m : pyval)
    (u : option pyval) :
  APIResponse_init ms m u = Raise pydantic_error \/
  exists v : APIResponse, APIResponse_init ms m u = Ok v /\ choices v = ms.
Proof.
  unfold APIResponse_init.
  destruct (str_validator m); [|now left].
  destruct u as [[| | | |]|]; cbn;
    try (destruct (int_dict_validator _); cbn; [|now left]);
    right; eexists; split; reflexivity.
Qed.

Lemma read_choices_first (c m : gmap string pyval) (s : string)
    (rest : list pyval) :
  c !! "message" = Some (VDict m) ->
  m !! "content" = Some (VStr s) ->
  List.Forall choice_shaped rest ->
  read_choices (VDict c :: rest) = Raise pydantic_error \/
  exists (first : MessageContent) (ms : list MessageContent),
    read_choices (VDict c :: rest) = Ok (first :: ms) /\ content first = s.
Proof.
  intros Hc Hm Hrest.
  assert (Hr : read_choices rest = Raise pydantic_error \/
               exists ms, read_choices rest = Ok ms).
  { induction Hrest as [|x xs (cx & mx & -> & Hx) _ IH]; [right; now exists []|].
    cbn [read_choices]. unfold read_choice, subscript. rewrite Hx.
    unfold MessageContent_init.
    destruct (mx !! "content"); [|now left].
    destruct (mx !! "role"); [|now left].
    destruct (str_validator p); [|now left].
    destruct (str_validator p0); [|now left].
    destruct (match mx !! "tool_calls" with
              | Some VNone | None => Some None
              | Some v => Some <$> list_validator v
              end); [|now left].
    destruct IH as [->|(ms & ->)]; [now left | right; eauto]. }
  cbn [read_choices]. unfold read_choice, subscript. rewrite Hc.
  unfold MessageContent_init. rewrite Hm, str_validator_str.
  destruct (m !! "role"); [|now left].
  destruct (str_validator p); [|now left].
  destruct (match m !! "tool_calls" with
            | Some VNone | None => Some None
            | Some v => Some <$> list_validator v
            end); [|now left].
  destruct Hr as [->|(ms & ->)]; [now left|].
  right. do 2 eexists. split; reflexivity.
Qed.

Lemma no_choices_rejected (d : gmap string pyval) (m : pyval) :
  d !! "choices" = Some (VList []) ->
  d !! "model" = Some m ->
  exists e : exn,
    _validate_response json_loads (VDict d) = Raise e /\ cls e = ValidationError.
Proof.
  intros Hc Hm. rewrite validate_response_dict.
  unfold validate_payload, subscript. rewrite Hc, Hm. cbn [iterate read_choices].
  destruct (APIResponse_init_cases [] m (d !! "usage")) as [->|(v & -> & Hv)].
  - eexists. split; reflexivity.
  - rewrite Hv. eexists. split; reflexivity.
Qed.

Lemma empty_content_rejected (d c msg : gmap string pyval) (m : pyval)
    (rest : list pyval) :
  d !! "choices" = Some (VList (VDict c :: rest)) ->
  c !! "message" = Some (VDict msg) ->
  msg !! "content" = Some (VStr "") ->
  List.Forall choice_shaped rest ->
  d !! "model" = Some m ->
  exists e : exn,
    _validate_response json_loads (VDict d) = Raise e /\ cls e = ValidationError.
Proof.
  intros Hc Hmsg Hcontent Hrest Hm. rewrite validate_response_dict.
  unfold validate_payload, subscript. rewrite Hc, Hm. cbn [iterate].
  destruct (read_choices_first c msg "" rest Hmsg Hcontent Hrest)
    as [->|(first & ms & -> & Hfirst)].
  - eexists. split; reflexivity.
  - destruct (APIResponse_init_cases (first :: ms) m (d !! "usage"))
      as [->|(v & -> & Hv)].
    + eexists. split; reflexivity.
    + rewrite Hv, Hfirst. eexists. split; reflexivity.
Qed.

Lemma backoff_S retry_delay attempts n :
  backoff retry_delay attempts (S n)
  = (retry_delay * inject_Z (attempts + 1))%Q :: backoff retry_delay (attempts + 1) n.
Proof.
  unfold backoff. cbn [seq List.map]. f_equal.
  rewrite <- seq_shift, List.map_map. apply List.map_ext. intros i.
  do 2 f_equal. lia.
Qed.

Lemma loop_all_fail (net : nat -> http_outcome) (prefix : string)
    (max_retries : Z) (retry_delay : Q) :
  (forall k : nat,
     exists (text : string) (p : pyval) (e : exn),
       net k = Response 200 text (Ok p) /\
       _validate_response json_loads p = Raise e) ->
  forall (remaining : nat) (attempts : Z) (last : option exn) (log : call_log),
    Z.of_nat remaining = max_retries + 1 - attempts ->
    (remaining = O -> is_Some last) ->
    exists e : exn,
      attempts_loop json_loads net prefix max_retries retry_delay remaining
        attempts last log
      = (Raise e,
         mk_call_log (attempts_made log + remaining)
           (delays log ++ backoff retry_delay attempts (pred remaining))).
Proof.
  intros Hnet. induction remaining as [|n IH]; intros attempts last log Hn Hlast.
  - destruct (Hlast eq_refl) as [e ->]. exists e. cbn.
    rewrite Nat.add_0_r, app_nil_r. now destruct log.
  - cbn [attempts_loop].
    destruct (Hnet (attempts_made log)) as (text & p & e & -> & Hp).
    cbn [wait_for_call _execute_api_call Z.eqb Pos.eqb negb]. rewrite Hp.
    destruct n as [|n'].
    + destruct (Z.leb_spec (attempts + 1) max_retries); [lia|].
      match goal with
      | |- context [attempts_loop _ _ _ _ _ _ ?a ?l ?g] =>
          destruct (IH a l g ltac:(lia) ltac:(eauto)) as [e' ->]
      end.
      exists e'. cbn. f_equal. f_equal. lia.
    + destruct (Z.leb_spec (attempts + 1) max_retries); [|lia].
      match goal with
      | |- context [attempts_loop _ _ _ _ _ _ ?a ?l ?g] =>
          destruct (IH a l g ltac:(lia) ltac:(discriminate)) as [e' ->]
      end.
      exists e'. cbn [attempts_made delays pred]. f_equal. f_equal; [lia|].
      rewrite backoff_S, <- app_assoc. reflexivity.
Qed.

End WithPydantic.

(** C4 (amended).  [_validate_response] raises a ValidationError on a
    payload with no choices and on one whose first choice has empty message
    content.  In [_make_api_call], a request that fails validation is
    refused before any attempt is made; a payload that fails validation
    counts as a failed attempt like any other: when every payload fails
    validation the call makes [max_retries + 1] attempts, sleeping
    [retry_delay * k] before the attempt number [k + 1], and then raises. *)
Theorem executor_validation_failures `{Pydantic}
    (json_loads : string -> option pyval) :
  (forall (d : gmap string pyval) (m : pyval),
     d !! "choices" = Some (VList []) ->
     d !! "model" = Some m ->
     exists e : exn,
       _validate_response json_loads (VDict d) = Raise e /\
       cls e = ValidationError) /\
  (forall (d c msg : gmap string pyval) (m : pyval) (rest : list pyval),
     d !! "choices" = Some (VList (VDict c :: rest)) ->
     c !! "message" = Some (VDict msg) ->
     msg !! "content" = Some (VStr "") ->
     List.Forall choice_shaped rest ->
     d !! "model" = Some m ->
     exists e : exn,
       _validate_response json_loads (VDict d) = Raise e /\
       cls e = ValidationError) /\
  (forall (net : nat -> http_outcome) (request_kwargs : gmap string pyval)
          (prefix : string) (max_retries : Z) (retry_delay : Q) (e : exn),
     _validate_request_params request_kwargs = Raise e ->
     cls e = ValidationError /\
     exists e' : exn,
       _make_api_call json_loads net request_kwargs prefix max_retries retry_delay
       = (Raise e', mk_call_log 0 [])) /\
  (forall (net : nat -> http_outcome) (request_kwargs : gmap string pyval)
          (prefix : string) (max_retries : Z) (retry_delay : Q),
     _validate_request_params request_kwargs = Ok tt ->
     0 <= max_retries ->
     (forall k : nat,
        exists (text : string) (p : pyval) (e : exn),
          net k = Response 200 text (Ok p) /\
          _validate_response json_loads p = Raise e) ->
     exists e' : exn,
       _make_api_call json_loads net request_kwargs prefix max_retries retry_delay
       = (Raise e',
          mk_call_log (Z.to_nat (max_retries + 1))
            (List.map (fun k => (retry_delay * inject_Z (Z.of_nat k))%Q)
               (seq 1 (Z.to_nat max_retries))))).
Proof.
  split; [apply no_choices_rejected|]. split; [apply empty_content_rejected|].
  split.
  - intros net kw prefix max_retries retry_delay e He. split.
    + unfold _validate_request_params in He.
      destruct (kw !! "messages") as [[| | |l|]|]; destruct (kw !! "model");
        try (injection He as <-; reflexivity).
      destruct l as [|msg rest]; [injection He as <-; reflexivity|].
      revert He. generalize (msg :: rest). intros l.
      induction l as [|x l IH]; cbn [check_messages]; [discriminate|].
      destruct x as [| | | |dx]; try (intros [= <-]; reflexivity).
      destruct (dx !! "role"); destruct (dx !! "content");
        try (intros [= <-]; reflexivity).
      exact IH.
    + unfold _make_api_call. rewrite He. eexists. reflexivity.
  - intros net kw prefix max_retries retry_delay Hok Hpos Hnet.
    unfold _make_api_call. rewrite Hok.
    destruct (loop_all_fail json_loads net prefix max_retries retry_delay Hnet
                (Z.to_nat (max_retries + 1)) 0 None (mk_call_log 0 []))
      as [e ->]; [lia | intros E; lia |].
    eexists. cbn [attempts_made delays app Nat.add]. f_equal. f_equal.
    replace (pred (Z.to_nat (max_retries + 1))) with (Z.to_nat max_retries) by lia.
    unfold backoff. apply List.map_ext. intros k. now rewrite Z.add_0_l.
Qed.

(** C4, witness: an empty message list, and the network answering every
    attempt with a 200 response that has no choices. *)
Lemma executor_validation_failures_witness :
  (exists e' : exn,
     _make_api_call (fun _ => None) (fun _ => TimedOut)
       (<["model" := VStr "gpt-4"]> (<["messages" := VList []]> ∅))
       "Plan creation failed" 2 1%Q
     = (Raise e', mk_call_log 0 [])) /\
  (exists e' : exn,
     _make_api_call (fun _ => None) (fun _ => Response 200 "" (Ok no_choices))
       hello_request "Plan creation failed" 2 1%Q
     = (Raise e',
        mk_call_log 3 [(1 * inject_Z 1)%Q; (1 * inject_Z 2)%Q])).
Proof.
  pose proof (executor_validation_failures (fun _ => None)) as (_ & _ & Hreq & Hresp).
  split.
  - eapply Hreq. reflexivity.
  - apply (Hresp (fun _ => Response 200 "" (Ok no_choices)) hello_request
             "Plan creation failed" 2 1%Q); [reflexivity | lia |].
    intros k. do 3 eexists. split; reflexivity.
Defined.

(** C4, counterexample.  With one retry allowed and every attempt answered
    by a 200 response that has no choices, [_make_api_call] makes a second
    attempt after the first validation failure, and what it raises in the
    end is a plain LLMError. *)
Lemma validation_failure_retried_counterexample :
  exists e : exn,
    _validate_response (fun _ => None) no_choices
    = Raise (error ValidationError "Response contains no choices") /\
    _make_api_call (fun _ => None) (fun _ => Response 200 "" (Ok no_choices))
      hello_request "Plan creation failed" 1 1%Q
    = (Raise e, mk_call_log 2 [(1 * inject_Z 1)%Q]) /\
    cls e = LLMError.
Proof.
  eexists. split; [vm_compute; reflexivity|]. split; [vm_compute; reflexivity|].
  reflexivity.
Qed.

End ExecutorProofs.

Module PlannerProofs.
Import Errors Planner.



Lemma blocks_cons line rest :
  blocks (line :: rest)
  = merge [if starts_step line then step_text line else line] rest.
Proof.
  destruct rest as [|next rest']; [reflexivity|].
  cbn [blocks merge]. destruct (starts_step next); [reflexivity|].
  destruct (blocks (next :: rest')); reflexivity.
Qed.




Lemma blocks_nonempty line rest : blocks (line :: rest) <> [].
Proof.
  cbn [blocks]. destruct rest as [|next rest']; [discriminate|].
  destruct (starts_step next); [discriminate|].
  destruct (blocks (next :: rest')); discriminate.
Qed.

Lemma blocks_length lines : forall first,
  length (blocks (first :: lines))
  = (marker_count (first :: lines) + (if starts_step first then 0 else 1))%nat.
Proof.
  induction lines as [|next rest IH]; intros first.
  - unfold marker_count. cbn. destruct (starts_step first); reflexivity.
  - specialize (IH next).
    assert (Hc : marker_count (first :: next :: rest)
                 = ((if starts_step first then 1 else 0)
                    + marker_count (next :: rest))%nat).
    { unfold marker_count. cbn [List.filter].
      destruct (starts_step first); reflexivity. }
    rewrite Hc, blocks_cons. unfold merge. destruct (starts_step next) eqn:Hn.
    + cbn [length]. rewrite IH. destruct (starts_step first); lia.
    + pose proof (blocks_nonempty next rest) as Hne.
      destruct (blocks (next :: rest)) as [|b bs]; [congruence|].
      cbn [length] in *. rewrite IH. destruct (starts_step first); lia.
Qed.

Lemma splitn_no_sep sep s n :
  PyStr.has_char sep s = false -> PyStr.splitn sep s n = [s].
Proof.
  induction s as [|c s IH]; intros H; [reflexivity|].
  simpl in H. apply orb_false_iff in H as [Hc Hs].
  simpl. destruct n; [reflexivity|]. rewrite Hc, IH by assumption. reflexivity.
Qed.


Lemma has_char_app c a b :
  PyStr.has_char c (a +:+ b) = PyStr.has_char c a || PyStr.has_char c b.
Proof.
  induction a as [|x a IH]; [reflexivity|].
  simpl. rewrite IH. now rewrite orb_assoc.
Qed.

Lemma plan_lines_nonempty content line :
  In line (plan_lines content) -> line <> "".
Proof.
  unfold plan_lines. rewrite in_map_iff. intros (raw & <- & Hin).
  apply filter_In in Hin as [_ Ht]. destruct (PyStr.strip raw); [discriminate|].
  discriminate.
Qed.









End PlannerProofs.

Module AgentProofs.
Import Errors PyVal Agent.

(** X30.  The reset of [_rollback_context] changes no module: updating a
    dict with the empty dict adds and removes nothing. *)
Lemma rollback_context_changes_nothing (context : gmap string pyval)
    (self : MultiLLMAgent) :
  _rollback_context context self = self.
Proof.
  unfold _rollback_context, reset_context, Base.add_context.
  rewrite !(left_id_L ∅ (∪)).
  destruct self as [[] [] [] ?]. reflexivity.
Qed.

Lemma AgentContext_init_missing `{Pydantic} (context : gmap string pyval) :
  context !! "domain" = None \/ context !! "expertise_level" = None \/
  context !! "preferred_language" = None ->
  AgentContext_init context = Raise Base.pydantic_error.
Proof.
  unfold AgentContext_init. intros [->|[->| ->]].
  - reflexivity.
  - now destruct (context !! "domain").
  - now destruct (context !! "domain"), (context !! "expertise_level").
Qed.

(** C1 (amended).  When the mapping lacks one of the three required fields,
    the Orchestrator's [add_context] fails; and whenever [add_context]
    fails, the agent is as it was before the call: the context map of each
    of the three modules has its pre-call value. *)
Theorem add_context_failure_keeps_contexts `{Pydantic}
    (context : gmap string pyval) (self : MultiLLMAgent) :
  (context !! "domain" = None \/ context !! "expertise_level" = None \/
   context !! "preferred_language" = None ->
   exists e : exn, add_context context self = (Raise e, self)) /\
  (forall (e : exn) (self' : MultiLLMAgent),
     add_context context self = (Raise e, self') ->
     self' = self /\
     Base.context (reasoning self') = Base.context (reasoning self) /\
     Base.context (planner self') = Base.context (planner self) /\
     Base.context (executor self') = Base.context (executor self)).
Proof.
  split.
  - intros Hmiss. unfold add_context.
    rewrite (AgentContext_init_missing context Hmiss). eexists. reflexivity.
  - intros e self'. unfold add_context.
    destruct (AgentContext_init context) as [validated|e0].
    + cbn. discriminate.
    + intros [= _ <-]. repeat split.
Qed.


(** C1, witness: the mapping of app.py, which has none of the required
    fields, on a freshly built agent. *)
Lemma add_context_failure_keeps_contexts_witness :
  exists e : exn, add_context app_context fresh_agent = (Raise e, fresh_agent).
Proof.
  apply (proj1 (add_context_failure_keeps_contexts app_context fresh_agent)).
  left. reflexivity.
Defined.

(** C1, counterexample.  On the default agent, [add_context] succeeds with
    the context of example.py and then fails with the mapping of app.py,
    which lacks the required fields; afterwards none of the three modules'
    context maps is empty: each still holds the first context. *)
Lemma add_context_failure_counterexample :
  exists (a1 a2 : MultiLLMAgent) (e : exn),
    MultiLLMAgent_init (example_config Config.REASONING_CONFIG)
      (example_config Config.PLANNING_CONFIG)
      (example_config Config.EXECUTOR_CONFIG) = Ok fresh_agent /\
    add_context example_context fresh_agent = (Ok tt, a1) /\
    app_context !! "domain" = None /\
    add_context app_context a1 = (Raise e, a2) /\
    Base.context (reasoning a2) <> ∅ /\
    Base.context (planner a2) <> ∅ /\
    Base.context (executor a2) <> ∅.
Proof.
  do 3 eexists. split; [reflexivity|]. split; [reflexivity|].
  split; [reflexivity|]. split; [reflexivity|].
  repeat split; intros E; apply (f_equal (fun m => m !! "domain")) in E;
    vm_compute in E; discriminate E.
Qed.

End AgentProofs.

Module LimiterMore.
Import Errors Limiter LimiterSpec.

Lemma filter_length_le {A : Type} (p : A -> bool) (l : list A) :
  (length (List.filter p l) <= length l)%nat.
Proof.
  induction l as [|x l IH]; cbn; [lia|]. destruct (p x); cbn; lia.
Qed.

Lemma filter_length_mono {A : Type} (p q : A -> bool) (l : list A) :
  (forall x, p x = true -> q x = true) ->
  (length (List.filter p l) <= length (List.filter q l))%nat.
Proof.
  intros Hpq. induction l as [|x l IH]; cbn; [lia|].
  destruct (p x) eqn:Hp.
  - rewrite (Hpq x Hp). cbn. lia.
  - destruct (q x); cbn; lia.
Qed.

Lemma Qltb_false (a b : Q) : Qltb a b = false <-> (b <= a)%Q.
Proof.
  unfold Qltb. rewrite negb_false_iff. apply Qle_bool_iff.
Qed.

(** Waiting never brings more requests into the trailing minute. *)
Lemma recent_advance (model : string) (d : Q) (w : world) :
  (0 <= d)%Q -> (recent model (advance d w) <= recent model w)%nat.
Proof.
  intros Hd. unfold recent, advance. cbn [limiter clock].
  destruct (_request_times (limiter w) !! model) as [times|]; [|lia].
  apply filter_length_mono. intros t Ht.
  apply LimiterProofs.Qltb_lt in Ht. apply LimiterProofs.Qltb_lt. lra.
Qed.

Lemma times_after_acquire (model : string) (r : RateLimiter) (v : Z)
    (kept new : list Q) :
  _request_times
    (sem_release model
       (set_times new model (set_times kept model (set_locks v model r))))
  !! model = Some new.
Proof.
  unfold sem_release, set_times, set_locks. cbn.
  rewrite lookup_insert_eq. cbn. now rewrite lookup_insert_eq.
Qed.

(** X1.  Calls made one after the other never record more than
    [requests_per_minute] requests in a trailing minute: if at most that
    many recorded requests are less than 60 seconds old, then after any
    wait [d] a call of [acquire] with a free permit returns, and again at
    most [requests_per_minute] recorded requests, the new one included, are
    less than 60 seconds old at the time it returns. *)
Theorem acquire_respects_rate (model : string) (w : world) (rl : RateLimit)
    (v : Z) (times : list Q) (d : Q) :
  _rate_limits (limiter w) !! model = Some rl ->
  _locks (limiter w) !! model = Some v ->
  0 < v ->
  _request_times (limiter w) !! model = Some times ->
  1 <= requests_per_minute rl ->
  Z.of_nat (recent model w) <= requests_per_minute rl ->
  (0 <= d)%Q ->
  exists w' : world,
    acquire model (advance d w) = (Returned, w') /\
    Z.of_nat (recent model w') <= requests_per_minute rl /\
    (clock w + d <= clock w')%Q.
Proof.
  intros Hrl Hv Hpos Ht Hrpm Hinv Hd.
  pose proof (recent_advance model d w Hd) as Hadv.
  rewrite (LimiterProofs.acquire_unfold model (advance d w) rl v Hrl Hv Hpos).
  unfold admission. cbn [advance limiter clock sleeps set_locks _request_times].
  rewrite Ht.
  unfold recent in Hadv at 1. cbn [advance limiter clock] in Hadv. rewrite Ht in Hadv.
  set (now := (clock w + d)%Q) in *.
  destruct (Z.geb_spec (Z.of_nat (length (prune now times)))
              (requests_per_minute rl)) as [Hfull|Hroom].
  - destruct (prune now times) as [|oldest rest] eqn:Hp; [cbn in Hfull; lia|].
    assert (Hold : (now - oldest < 60)%Q).
    { assert (Hin : In oldest (prune now times)) by (rewrite Hp; now left).
      now apply LimiterProofs.prune_In in Hin. }
    assert (Hw : Qltb 0 (60 - (now - oldest)) = true)
      by (apply LimiterProofs.Qltb_lt; lra).
    rewrite Hw. eexists. split; [reflexivity|]. split.
    + unfold recent. cbn [limiter clock]. rewrite times_after_acquire.
      unfold prune. rewrite List.filter_app, List.length_app.
      cbn [List.filter].
      assert (Hgone : Qltb (now + (60 - (now - oldest)) - oldest) 60 = false)
        by (apply Qltb_false; lra).
      rewrite Hgone.
      pose proof (filter_length_le
                    (fun t => Qltb (now + (60 - (now - oldest)) - t) 60) rest).
      clear Hgone.
      match goal with
      | |- context [if ?b then _ else _] => destruct b
      end; cbn [length] in *; lia.
    + cbn [clock]. lra.
  - eexists. split; [reflexivity|]. split.
    + unfold recent. cbn [limiter clock]. rewrite times_after_acquire.
      pose proof (filter_length_le (fun t => Qltb (now - t) 60)
                    (prune now times ++ [now])) as Hle.
      unfold prune at 1. rewrite List.length_app in Hle. cbn [length] in Hle. lia.
    + cbn [clock]. lra.
Qed.

(** X1, witness: the window [0; 10] of a limit of two a minute, at time 30;
    after 5 more seconds the call waits until 60 and then one old request
    and the new one are in the trailing minute. *)
Lemma acquire_respects_rate_witness :
  exists w' : world,
    acquire "m" (advance 5 two_models_world) = (Returned, w') /\
    Z.of_nat (recent "m" w') <= 2.
Proof.
  destruct (acquire_respects_rate "m" two_models_world (mk_RateLimit 2 3) 3
              [0%Q; 10%Q] 5 eq_refl eq_refl eq_refl eq_refl)
    as (w' & Ha & Hr & _).
  - cbn. lia.
  - vm_compute. discriminate.
  - lra.
  - exists w'. split; [exact Ha | exact Hr].
Defined.

(** X2.  Models do not contend: a call of [acquire] or [release] for one
    model leaves the limits, the window and the semaphore of every other
    model as they were; and for a model with no configured limit [acquire]
    returns at once and changes nothing. *)
Theorem limiter_models_independent (model other : string) (w : world) :
  other <> model ->
  (forall (out : outcome) (w' : world),
     acquire model w = (out, w') ->
     _rate_limits (limiter w') = _rate_limits (limiter w) /\
     _request_times (limiter w') !! other = _request_times (limiter w) !! other /\
     _locks (limiter w') !! other = _locks (limiter w) !! other) /\
  (_request_times (limiter (release model w)) !! other
   = _request_times (limiter w) !! other /\
   _locks (limiter (release model w)) !! other = _locks (limiter w) !! other) /\
  (_rate_limits (limiter w) !! model = None ->
   acquire model w = (Returned, w)).
Proof.
  intros Hne. split; [|split].
  - intros out w'. unfold acquire.
    destruct (_rate_limits (limiter w) !! model) as [rl|];
      [|intros [= _ <-]; auto].
    destruct (_locks (limiter w) !! model) as [v|]; [|intros [= _ <-]; auto].
    destruct (v <=? 0); [intros [= _ <-]; auto|].
    assert (Hdone : forall (r : RateLimiter),
               _rate_limits r = _rate_limits (limiter w) ->
               _request_times r !! other = _request_times (limiter w) !! other ->
               _locks r !! other = _locks (limiter w) !! other ->
               _rate_limits (sem_release model r) = _rate_limits (limiter w) /\
               _request_times (sem_release model r) !! other
               = _request_times (limiter w) !! other /\
               _locks (sem_release model r) !! other
               = _locks (limiter w) !! other).
    { intros r H1 H2 H3. unfold sem_release.
      destruct (_locks r !! model); [|auto]. unfold set_locks. cbn.
      rewrite lookup_insert_ne by congruence. auto. }
    unfold admission. cbn [limiter clock sleeps set_locks _request_times].
    destruct (_request_times (limiter w) !! model) as [times|].
    + destruct (_ >=? _).
      * destruct (prune (clock w) times) as [|oldest rest].
        -- intros [= _ <-]. apply Hdone; unfold set_times, set_locks; cbn;
             rewrite ?lookup_insert_ne by congruence; reflexivity.
        -- destruct (Qltb _ _); intros [= _ <-]; apply Hdone;
             unfold set_times, set_locks; cbn;
             rewrite ?lookup_insert_ne by congruence; reflexivity.
      * intros [= _ <-]. apply Hdone; unfold set_times, set_locks; cbn;
          rewrite ?lookup_insert_ne by congruence; reflexivity.
    + intros [= _ <-]. apply Hdone; unfold set_locks; cbn;
        rewrite ?lookup_insert_ne by congruence; reflexivity.
  - unfold release, sem_release. cbn [limiter].
    destruct (_locks (limiter w) !! model); [|auto].
    unfold set_locks. cbn. rewrite lookup_insert_ne by congruence. auto.
  - intros Hnone. unfold acquire. now rewrite Hnone.
Qed.

(** X2, witness: a call for "m" and the state of "n". *)
Lemma limiter_models_independent_witness :
  _locks (limiter (release "m" two_models_world)) !! "n" = Some 1 /\
  acquire "x" two_models_world = (Returned, two_models_world).
Proof.
  destruct (limiter_models_independent "m" "n" two_models_world)
    as (_ & (_ & Hl) & _); [discriminate|].
  split; [rewrite Hl; reflexivity|].
  apply (limiter_models_independent "x" "n" two_models_world);
    [discriminate | reflexivity].
Defined.

(** X3.  With a free permit, [acquire] returns when [requests_per_minute]
    is at least one; when it is zero or less and no recorded request is
    less than 60 seconds old, [acquire] raises an IndexError instead, having
    given its permit back and slept nothing. *)
Theorem acquire_raises_only_below_one (model : string) (w : world)
    (rl : RateLimit) (v : Z) (times : list Q) :
  _rate_limits (limiter w) !! model = Some rl ->
  _locks (limiter w) !! model = Some v ->
  0 < v ->
  _request_times (limiter w) !! model = Some times ->
  (1 <= requests_per_minute rl ->
   exists w' : world, acquire model w = (Returned, w')) /\
  (requests_per_minute rl <= 0 ->
   prune (clock w) times = [] ->
   exists w' : world,
     acquire model w
     = (Raised (error IndexError "list index out of range"), w') /\
     _locks (limiter w') !! model = Some v /\
     _request_times (limiter w') !! model = Some [] /\
     sleeps w' = sleeps w).
Proof.
  intros Hrl Hv Hpos Ht.
  rewrite (LimiterProofs.acquire_unfold model w rl v Hrl Hv Hpos).
  unfold admission. cbn [limiter clock sleeps set_locks _request_times].
  rewrite Ht. split.
  - intros Hrpm.
    destruct (Z.geb_spec (Z.of_nat (length (prune (clock w) times)))
                (requests_per_minute rl)) as [Hfull|Hroom].
    + destruct (prune (clock w) times) as [|oldest rest].
      * cbn in Hfull. lia.
      * destruct (Qltb _ _); eexists; reflexivity.
    + eexists; reflexivity.
  - intros Hrpm Hp. rewrite Hp. cbn [length].
    destruct (Z.geb_spec (Z.of_nat 0) (requests_per_minute rl)); [|lia].
    eexists. split; [reflexivity|]. cbn [limiter sleeps].
    unfold sem_release, set_times, set_locks. cbn.
    rewrite lookup_insert_eq. cbn. rewrite !lookup_insert_eq.
    replace (v - 1 + 1) with v by lia. auto.
Qed.

(** X3, witness: a limit of zero requests a minute on a fresh limiter. *)
Lemma acquire_raises_only_below_one_witness :
  exists w' : world,
    acquire "m" zero_rate_world
    = (Raised (error IndexError "list index out of range"), w') /\
    _locks (limiter w') !! "m" = Some 1.
Proof.
  destruct (acquire_raises_only_below_one "m" zero_rate_world (mk_RateLimit 0 1)
              1 [] eq_refl eq_refl eq_refl eq_refl) as (_ & H).
  destruct H as (w' & Ha & Hl & _); [cbn; lia | reflexivity |].
  exists w'. split; [exact Ha | exact Hl].
Defined.

(** X4.  [release] adds a permit whatever the semaphore holds, and
    [acquire] has already given its own back: after a call of [acquire]
    that returned and the matching [release], the semaphore of the model
    stands one above its value before the [acquire]. *)
Theorem release_after_acquire_adds_permit (model : string) (w w' : world)
    (v : Z) :
  _locks (limiter w) !! model = Some v ->
  acquire model w = (Returned, w') ->
  _locks (limiter (release model w)) !! model = Some (v + 1) /\
  _locks (limiter (release model w')) !! model = Some (v + 1).
Proof.
  intros Hv Ha.
  assert (Hrel : forall u : world,
             _locks (limiter u) !! model = Some v ->
             _locks (limiter (release model u)) !! model = Some (v + 1)).
  { intros u Hu. unfold release, sem_release. cbn [limiter]. rewrite Hu.
    unfold set_locks. cbn. apply lookup_insert_eq. }
  split; [now apply Hrel|]. apply Hrel.
  now rewrite (LimiterProofs.acquire_keeps_no_permit model w Returned w' Ha).
Qed.

(** X4, witness: one permit configured, one [acquire] and its [release]. *)
Lemma release_after_acquire_adds_permit_witness :
  exists w' : world,
    acquire "m" full_window_world = (Returned, w') /\
    _locks (limiter (release "m" w')) !! "m" = Some (3 + 1).
Proof.
  eexists. split; [vm_compute; reflexivity|].
  refine (proj2 (release_after_acquire_adds_permit "m" full_window_world _ 3
                   eq_refl _)).
  vm_compute. reflexivity.
Defined.

(** X5, witness for [acquire_keeps_time_order]: the window [0; 10] at time
    30. *)
Lemma acquire_keeps_time_order_witness :
  exists w' : world,
    acquire "m" full_window_world = (Returned, w') /\ window_ok "m" w'.
Proof.
  eexists. split; [vm_compute; reflexivity|].
  eapply (LimiterInvariant.acquire_keeps_time_order "m" full_window_world);
    [|vm_compute; reflexivity].
  intros times Ht. vm_compute in Ht. injection Ht as <-. split.
  - repeat constructor; vm_compute; discriminate.
  - repeat constructor; vm_compute; discriminate.
Defined.

End LimiterMore.

Module CacheStoreProofs.
Import Errors CacheSync CacheStore.

Lemma is_expired_live (value : string) (p : option string) (ttl : option Z)
    (now now' : Q) :
  representable ttl -> live ttl now now' ->
  _is_expired now' (mk_entry value now p ttl) = Ok false.
Proof.
  unfold representable, live, _is_expired. cbn [expires_in timestamp].
  destruct ttl as [m|]; [|reflexivity].
  intros -> [->|Hle]; [reflexivity|].
  destruct (m =? 0); [reflexivity|].
  f_equal. apply negb_false_iff, Qle_bool_iff. exact Hle.
Qed.

Lemma is_expired_dead (value : string) (p : option string) (ttl : option Z)
    (now now' : Q) :
  representable ttl -> ~ live ttl now now' ->
  _is_expired now' (mk_entry value now p ttl) = Ok true.
Proof.
  unfold representable, live, _is_expired. cbn [expires_in timestamp].
  destruct ttl as [m|]; [|tauto]. intros -> Hdead.
  destruct (Z.eqb_spec m 0) as [->|Hm]; [tauto|].
  f_equal. apply negb_true_iff. destruct (Qle_bool _ _) eqn:E; [|reflexivity].
  apply Qle_bool_iff in E. tauto.
Qed.

Lemma is_expired_overflow (value : string) (p : option string) (m : Z)
    (now now' : Q) :
  overflows m = true ->
  exists err : exn,
    _is_expired now' (mk_entry value now p (Some m)) = Raise err /\
    cls err = OverflowError.
Proof.
  intros Hm. unfold _is_expired. cbn [expires_in timestamp].
  destruct (Z.eqb_spec m 0) as [->|_]; [discriminate Hm|].
  rewrite Hm. eexists. split; reflexivity.
Qed.

(** [get] on a key whose entry in memory is live. *)
Lemma get_memory_hit `{FileSystem} (key : string) (now : Q)
    (cm : CacheManager) (e : entry) :
  _cache cm !! key = Some e -> _is_expired now e = Ok false ->
  get key now cm = (Ok (Some (data e)), _ensure_lock key cm).
Proof.
  intros He Hlive. unfold get. cbn [_ensure_lock _cache]. now rewrite He, Hlive.
Qed.

(** [get] on a key that memory does not serve, and whose file holds an
    entry. *)
Lemma get_from_file `{FileSystem} (key : string) (now : Q)
    (cm : CacheManager) (e : entry) :
  (_cache cm !! key = None \/
   exists old : entry, _cache cm !! key = Some old /\ _is_expired now old = Ok true) ->
  read_entry key (files cm) = Some e ->
  get key now cm
  = match _is_expired now e with
    | Ok false =>
        (Ok (Some (data e)),
         mk_CacheManager (<[key := e]> (_cache cm)) (files cm)
           ({[key]} ∪ _locks cm))
    | _ => (Ok None, _ensure_lock key cm)
    end.
Proof.
  intros Hmem Hfile. unfold get. cbn [_ensure_lock _cache files _locks].
  rewrite Hfile.
  destruct Hmem as [->|(old & -> & ->)]; destruct (_is_expired now e) as [[|]|];
    reflexivity.
Qed.

(** X6.  What [set] stores, [get] serves until it expires, whatever
    becomes of the file: after [set(key, value, ttl)] at time [now],
    [get(key)] at time [now'] returns [value] when [ttl] is None or zero
    or at most [ttl] minutes have passed.  Once more time has passed, and
    the write of [set] took effect, [get] returns None and the expired
    entry is still in memory and in its file: nothing evicts it.  With a
    [ttl] beyond what a [timedelta] holds, [get] raises OverflowError. *)
Theorem get_after_set `{FileSystem} (key value : string) (ttl : option Z)
    (p : option string) (now now' : Q) (cm : CacheManager) :
  let stored := set key value ttl p now cm in
  (representable ttl -> live ttl now now' ->
   fst (get key now' stored) = Ok (Some value)) /\
  (representable ttl -> ~ live ttl now now' ->
   written key (mk_entry value now p ttl) (files cm) ->
   fst (get key now' stored) = Ok None /\
   _cache (snd (get key now' stored)) !! key = Some (mk_entry value now p ttl) /\
   read_entry key (files (snd (get key now' stored)))
   = Some (mk_entry value now p ttl)) /\
  (forall m : Z,
     ttl = Some m -> overflows m = true ->
     exists err : exn,
       fst (get key now' stored) = Raise err /\ cls err = OverflowError).
Proof.
  cbn zeta.
  assert (Hmem : _cache (set key value ttl p now cm) !! key
                 = Some (mk_entry value now p ttl))
    by (unfold set; cbn [_cache _ensure_lock]; apply lookup_insert_eq).
  split; [|split].
  - intros Hr Hl.
    rewrite (get_memory_hit key now' _ _ Hmem (is_expired_live _ _ _ _ _ Hr Hl)).
    reflexivity.
  - intros Hr Hd Hw.
    rewrite (get_from_file key now' _ (mk_entry value now p ttl)).
    + rewrite (is_expired_dead _ _ _ _ _ Hr Hd). cbn [fst snd _ensure_lock _cache files].
      split; [reflexivity|]. split; [exact Hmem | exact Hw].
    + right. eexists. split; [exact Hmem|]. now apply is_expired_dead.
    + exact Hw.
  - intros m -> Hm.
    destruct (is_expired_overflow value p m now now' Hm) as (err & Herr & Hcls).
    exists err. split; [|exact Hcls].
    unfold get. cbn [_ensure_lock _cache]. now rewrite Hmem, Herr.
Qed.

(** X6, witness: half an hour of life, read after 10 and after 40
    minutes, the first on a directory that cannot be written. *)
Lemma get_after_set_witness :
  fst (@get read_only_files "k" 600
         (@set read_only_files "k" "v" (Some 30) None 0
            (@CacheManager_init read_only_files ∅)))
  = Ok (Some "v") /\
  fst (get "k" 2400 (set "k" "v" (Some 30) None 0 (CacheManager_init ∅)))
  = Ok None.
Proof.
  split.
  - apply (proj1 (@get_after_set read_only_files "k" "v" (Some 30) None 0 600
                    (@CacheManager_init read_only_files ∅))).
    + reflexivity.
    + right. vm_compute. discriminate.
  - apply (proj1 (proj2 (get_after_set "k" "v" (Some 30) None 0 2400
                           (CacheManager_init ∅)))).
    + reflexivity.
    + intros [E|E]; [discriminate E | vm_compute in E; now apply E].
    + apply lookup_insert_eq.
Defined.

(** X7.  An entry survives a restart when its write took effect: a manager
    opened on the directory that [set] left serves the value from its file
    as long as the entry has not expired, and then holds it in memory
    again; an expired file is a miss, and so is a file whose time to live
    is beyond what a [timedelta] holds. *)
Theorem get_after_restart `{FileSystem} (key value : string) (ttl : option Z)
    (p : option string) (now now' : Q) (cm : CacheManager) :
  let reopened := CacheManager_init (files (set key value ttl p now cm)) in
  written key (mk_entry value now p ttl) (files cm) ->
  (representable ttl -> live ttl now now' ->
   fst (get key now' reopened) = Ok (Some value) /\
   _cache (snd (get key now' reopened)) !! key
   = Some (mk_entry value now p ttl)) /\
  (representable ttl -> ~ live ttl now now' ->
   fst (get key now' reopened) = Ok None /\
   _cache (snd (get key now' reopened)) = ∅) /\
  (forall m : Z,
     ttl = Some m -> overflows m = true ->
     fst (get key now' reopened) = Ok None /\
     _cache (snd (get key now' reopened)) = ∅).
Proof.
  cbn zeta. intros Hw.
  rewrite (get_from_file key now'
             (CacheManager_init (files (set key value ttl p now cm)))
             (mk_entry value now p ttl));
    [|left; apply lookup_empty | exact Hw].
  split; [|split].
  - intros Hr Hl. rewrite (is_expired_live _ _ _ _ _ Hr Hl).
    cbn [fst snd _cache data]. split; [reflexivity | apply lookup_insert_eq].
  - intros Hr Hd. rewrite (is_expired_dead _ _ _ _ _ Hr Hd). split; reflexivity.
  - intros m -> Hm.
    destruct (is_expired_overflow value p m now now' Hm) as (err & -> & _).
    split; reflexivity.
Qed.

(** X7, witness: the same entry read by a new process after 10 minutes. *)
Lemma get_after_restart_witness :
  fst (get "k" 600
         (CacheManager_init
            (files (set "k" "v" (Some 30) None 0 (CacheManager_init ∅)))))
  = Ok (Some "v").
Proof.
  apply (proj1 (get_after_restart "k" "v" (Some 30) None 0 600
                  (CacheManager_init ∅) (lookup_insert_eq _ _ _))).
  - reflexivity.
  - right. vm_compute. discriminate.
Defined.

Lemma get_fst_frame `{FileSystem} (key : string) (now : Q)
    (cm cm' : CacheManager) :
  _cache cm' !! key = _cache cm !! key ->
  read_entry key (files cm') = read_entry key (files cm) ->
  fst (get key now cm') = fst (get key now cm).
Proof.
  intros Hc Hf. unfold get, _ensure_lock. cbn [_cache files _locks].
  rewrite Hc, Hf.
  destruct (_cache cm !! key) as [e|];
    [destruct (_is_expired now e) as [[|]|]|]; try reflexivity;
    destruct (read_entry key (files cm)) as [e'|]; try reflexivity;
    destruct (_is_expired now e') as [[|]|]; reflexivity.
Qed.

(** X8.  Keys that name different files are independent, and a removal
    that takes effect is final: [set] and [delete] on one key do not change
    what [get] returns for another key whose file is another; after
    [delete(key)] a [get(key)] misses when the file is gone, and after
    [clear()] a [get] misses for every key whose file [clear] removes. *)
Theorem other_keys_untouched `{FileSystem} (key other value : string)
    (ttl : option Z) (p : option string) (now now' : Q) (cm : CacheManager) :
  (other <> key -> separate key other ->
   fst (get other now' (set key value ttl p now cm)) = fst (get other now' cm) /\
   fst (get other now' (delete key cm)) = fst (get other now' cm)) /\
  (removed key -> fst (get key now' (delete key cm)) = Ok None) /\
  (cleared other -> fst (get other now' (clear cm)) = Ok None).
Proof.
  split; [|split].
  - intros Hne Hsep. destruct (Hsep (files cm)) as [Hwrite Hremove].
    split; apply get_fst_frame; unfold set, delete, _ensure_lock;
      cbn [_cache files];
      rewrite ?lookup_insert_ne, ?lookup_delete_ne by congruence; auto.
  - intros Hgone. unfold get, delete, _ensure_lock. cbn [_cache files _locks].
    now rewrite lookup_delete_eq, Hgone.
  - intros Hgone. unfold get, clear, _ensure_lock. cbn [_cache files _locks].
    now rewrite lookup_empty, Hgone.
Qed.

(** X8, witness: two keys, one of them set again. *)
Lemma other_keys_untouched_witness :
  fst (get "a" 5 (set "b" "w" None None 1
                    (set "a" "v" None None 0 (CacheManager_init ∅))))
  = fst (get "a" 5 (set "a" "v" None None 0 (CacheManager_init ∅))).
Proof.
  apply (proj1 (other_keys_untouched "b" "a" "w" None None 1 5
                  (set "a" "v" None None 0 (CacheManager_init ∅)))).
  - discriminate.
  - intros d. split; [intros e; apply lookup_insert_ne |
                      apply lookup_delete_ne]; discriminate.
Defined.

(** What [get] leaves: the directory as it was, and the memory as it was
    or with the entry of the key's file loaded. *)
Lemma get_state `{FileSystem} (key : string) (now : Q) (cm : CacheManager) :
  files (snd (get key now cm)) = files cm /\
  (_cache (snd (get key now cm)) = _cache cm \/
   exists e : entry,
     read_entry key (files cm) = Some e /\
     _cache (snd (get key now cm)) = <[key := e]> (_cache cm)).
Proof.
  unfold get, _ensure_lock. cbn [_cache files _locks].
  destruct (_cache cm !! key) as [e|];
    [destruct (_is_expired now e) as [[|]|]|]; try (split; [reflexivity | now left]);
    (destruct (read_entry key (files cm)) as [e'|];
     [destruct (_is_expired now e') as [[|]|]|]);
    try (split; [reflexivity | now left]);
    (split; [reflexivity | right; now exists e']).
Qed.

(** X9.  Where keys name files of their own and writes and removals take
    effect, memory mirrors the files: a new manager holds nothing, and
    [set], [get], [delete] and [clear] on such keys keep every entry in
    memory equal to the entry its file holds. *)
Theorem memory_mirrors_files `{FileSystem} (P : string -> Prop)
    (cm : CacheManager) :
  orderly P ->
  (forall d : directory, mirrored P (CacheManager_init d)) /\
  (mirrored P cm ->
   (forall (key value : string) (ttl : option Z) (p : option string) (now : Q),
      P key -> mirrored P (set key value ttl p now cm)) /\
   (forall (key : string) (now : Q),
      P key -> mirrored P (snd (get key now cm))) /\
   (forall key : string, P key -> mirrored P (delete key cm)) /\
   mirrored P (clear cm)).
Proof.
  intros [Hown Hwrite Hremove]. unfold mirrored. split.
  - intros d k e. cbn. rewrite lookup_empty. discriminate.
  - intros Hm. split; [|split; [|split]].
    + intros key value ttl p now Hkey k e. unfold set, _ensure_lock.
      cbn [_cache files]. destruct (decide (k = key)) as [->|Hne].
      * rewrite lookup_insert_eq. intros [= <-]. split; [exact Hkey|].
        now apply Hown.
      * rewrite lookup_insert_ne by congruence. intros He.
        destruct (Hm k e He) as [Hk Hfile]. split; [exact Hk|].
        rewrite Hwrite by (assumption || congruence). exact Hfile.
    + intros key now Hkey k e.
      destruct (get_state key now cm) as [-> [-> | (e' & Hfile & ->)]];
        [apply Hm|].
      destruct (decide (k = key)) as [->|Hne].
      * rewrite lookup_insert_eq. intros [= <-]. now split.
      * rewrite lookup_insert_ne by congruence. apply Hm.
    + intros key Hkey k e. unfold delete, _ensure_lock. cbn [_cache files].
      destruct (decide (k = key)) as [->|Hne].
      * rewrite lookup_delete_eq. discriminate.
      * rewrite lookup_delete_ne by congruence. intros He.
        destruct (Hm k e He) as [Hk Hfile]. split; [exact Hk|].
        rewrite Hremove by (assumption || congruence). exact Hfile.
    + intros k e. unfold clear. cbn [_cache]. rewrite lookup_empty.
      discriminate.
Qed.

(** X9, witness: the manager left by a [set] and a [get], on a directory
    in which every key names a file of its own. *)
Lemma memory_mirrors_files_witness :
  mirrored (fun _ => True)
    (snd (get "k" 5 (set "k" "v" None None 0 (CacheManager_init ∅)))).
Proof.
  assert (Hfs : orderly (fun _ : string => True)).
  { split.
    - intros k e d _. apply lookup_insert_eq.
    - intros k k' e d _ _ Hne. now apply lookup_insert_ne.
    - intros k k' d _ _ Hne. now apply lookup_delete_ne. }
  apply (proj2 (memory_mirrors_files (fun _ => True)
                  (set "k" "v" None None 0 (CacheManager_init ∅)) Hfs));
    [|exact I].
  apply (proj2 (memory_mirrors_files (fun _ => True) (CacheManager_init ∅) Hfs));
    [|exact I].
  apply (proj1 (memory_mirrors_files (fun _ => True) (CacheManager_init ∅) Hfs)).
Defined.

End CacheStoreProofs.

Module CachePolicyProofs.
Import CacheControl CachePolicy.

Lemma unlisted_model_disabled (model : string) :
  model <> "gpt-4" -> model <> "gpt-4-vision-preview" ->
  model <> "gpt-3.5-turbo" -> model <> "claude-3-opus" ->
  model <> "claude-3-sonnet" -> model <> "claude-3-haiku" ->
  should_enable_caching model = false /\ get_cache_pricing model = 1%Q.
Proof.
  intros. split.
  - unfold should_enable_caching.
    destruct (PyStr.contains "gpt" (PyStr.lower model)).
    + unfold PROVIDER_PRICING. rewrite lookup_insert_eq. cbn [default id].
      unfold id. rewrite !lookup_insert_ne by congruence.
      rewrite lookup_empty. reflexivity.
    + destruct (PyStr.contains "claude" (PyStr.lower model)); [|reflexivity].
      unfold PROVIDER_PRICING.
      rewrite lookup_insert_ne by discriminate. rewrite lookup_insert_eq.
      cbn [default id]. unfold id. rewrite !lookup_insert_ne by congruence.
      rewrite lookup_empty. reflexivity.
  - unfold get_cache_pricing, providers, first_price, PROVIDER_PRICING.
    rewrite lookup_insert_eq.
    rewrite (lookup_insert_ne _ "openai" "anthropic") by discriminate.
    rewrite lookup_insert_eq. cbn [default id]. unfold id.
    rewrite !lookup_insert_ne by congruence. rewrite lookup_empty.
    reflexivity.
Qed.

(** X10.  Exactly five model names are cache-worthy: [should_enable_caching]
    is true for gpt-4, gpt-4-vision-preview, claude-3-opus, claude-3-sonnet
    and claude-3-haiku, written exactly so, and false for every other
    string; whenever it is true, the price [get_cache_pricing] reports for
    the model is at least 0.5. *)
Theorem should_enable_caching_exactly (model : string) :
  (should_enable_caching model = true <-> In model cache_worthy) /\
  (should_enable_caching model = true -> (5 # 10 <= get_cache_pricing model)%Q).
Proof.
  destruct (decide (model = "gpt-4")) as [->|H1];
    [split; [split; [intros _; cbn; tauto | reflexivity] | intros _; vm_compute; discriminate]|].
  destruct (decide (model = "gpt-4-vision-preview")) as [->|H2];
    [split; [split; [intros _; cbn; tauto | reflexivity] | intros _; vm_compute; discriminate]|].
  destruct (decide (model = "claude-3-opus")) as [->|H3];
    [split; [split; [intros _; cbn; tauto | reflexivity] | intros _; vm_compute; discriminate]|].
  destruct (decide (model = "claude-3-sonnet")) as [->|H4];
    [split; [split; [intros _; cbn; tauto | reflexivity] | intros _; vm_compute; discriminate]|].
  destruct (decide (model = "claude-3-haiku")) as [->|H5];
    [split; [split; [intros _; cbn; tauto | reflexivity] | intros _; vm_compute; discriminate]|].
  destruct (decide (model = "gpt-3.5-turbo")) as [->|H6].
  - split; [split|]; try (intros E; vm_compute in E; discriminate E).
    cbn. intros [E|[E|[E|[E|[E|[]]]]]]; discriminate E.
  - destruct (unlisted_model_disabled model H1 H2 H6 H3 H4 H5) as [Hoff _].
    rewrite Hoff. split; [split|]; try discriminate.
    cbn. intros [E|[E|[E|[E|[E|[]]]]]]; congruence.
Qed.

(** X10, witness: the upper-case spelling of a listed model is not
    cache-worthy. *)
Lemma should_enable_caching_exactly_witness :
  should_enable_caching "GPT-4" = false /\
  (5 # 10 <= get_cache_pricing "claude-3-haiku")%Q.
Proof.
  split.
  - destruct (should_enable_caching "GPT-4") eqn:E; [|reflexivity].
    apply (proj1 (should_enable_caching_exactly "GPT-4")) in E.
    cbn in E. destruct E as [E|[E|[E|[E|[E|[]]]]]]; discriminate E.
  - apply (proj2 (should_enable_caching_exactly "claude-3-haiku")). reflexivity.
Defined.

Lemma cache_expiration_values (provider : string) :
  get_cache_expiration provider = 60 \/ get_cache_expiration provider = 5 \/
  get_cache_expiration provider = 30.
Proof.
  unfold get_cache_expiration, CACHE_EXPIRATION.
  destruct (decide (provider = "openai")) as [->|H1]; [now left|].
  destruct (decide (provider = "anthropic")) as [->|H2]; [now right; left|].
  destruct (decide (provider = "default")) as [->|H3]; [now right; right|].
  rewrite !(lookup_insert_ne _ _ provider) by congruence.
  rewrite (lookup_empty provider). now right; right.
Qed.

Lemma cache_expiration_representable (provider : string) :
  CacheStore.representable (Some (get_cache_expiration provider)).
Proof.
  destruct (cache_expiration_values provider) as [->|[->| ->]]; reflexivity.
Qed.

Lemma live_or_not (ttl : option Z) (now now' : Q) :
  CacheStore.live ttl now now' \/ ~ CacheStore.live ttl now now'.
Proof.
  unfold CacheStore.live. destruct ttl as [m|]; [|now left].
  destruct (decide (m = 0)) as [E|E]; [now left; left|].
  destruct (Qlt_le_dec (60 * inject_Z m) (now' - now)) as [Hlt|Hle].
  - right. intros [E'|Hle]; [contradiction|]. lra.
  - left. now right.
Qed.

(** What [get] gives right after [set] on the same key: the value while
    the entry lives, and nothing once it has expired if the write took
    effect. *)
Lemma get_set_same `{CacheSync.FileSystem} (key value : string) (ttl : Z)
    (p : option string) (now now' : Q) (cm : CacheSync.CacheManager) :
  CacheStore.representable (Some ttl) ->
  let stored := CacheSync.set key value (Some ttl) p now cm in
  (CacheStore.live (Some ttl) now now' ->
   CacheSync.get key now' stored
   = (Errors.Ok (Some value), CacheSync._ensure_lock key stored)) /\
  (~ CacheStore.live (Some ttl) now now' ->
   CacheStore.written key (CacheSync.mk_entry value now p (Some ttl))
     (CacheSync.files cm) ->
   CacheSync.get key now' stored
   = (Errors.Ok None, CacheSync._ensure_lock key stored)).
Proof.
  intros Hr. cbn zeta.
  assert (Hmem : CacheSync._cache (CacheSync.set key value (Some ttl) p now cm)
                   !! key
                 = Some (CacheSync.mk_entry value now p (Some ttl)))
    by (unfold CacheSync.set; cbn; apply lookup_insert_eq).
  split.
  - intros Hl.
    now rewrite (CacheStoreProofs.get_memory_hit key now' _ _ Hmem
                   (CacheStoreProofs.is_expired_live _ _ _ _ _ Hr Hl)).
  - intros Hd Hw.
    rewrite (CacheStoreProofs.get_from_file key now' _
               (CacheSync.mk_entry value now p (Some ttl)));
      [|right; eexists; split;
          [exact Hmem | now apply CacheStoreProofs.is_expired_dead]
       |exact Hw].
    now rewrite (CacheStoreProofs.is_expired_dead _ _ _ _ _ Hr Hd).
Qed.

(** X11.  A cached response comes back until it expires, whatever becomes
    of its file: for a cache-worthy model, after [cache_response] at time
    [now], [get_cached_response] with the same messages at time [now']
    returns the response when it is not empty and at most
    [get_cache_expiration(provider)] minutes have passed, and None when it
    is the empty string.  Once that time has passed, and the write of
    [cache_response] took effect, it returns None. *)
Theorem cached_response_round_trip `{CacheSync.FileSystem}
    (provider model response : string)
    (messages : list (gmap string string)) (now now' : Q)
    (cm : CacheSync.CacheManager) :
  should_enable_caching model = true ->
  let stored := cache_response provider model messages response now cm in
  let alive :=
    CacheStore.live (Some (get_cache_expiration provider)) now now' in
  let kept :=
    CacheStore.written (response_key messages)
      (CacheSync.mk_entry response now (Some provider)
         (Some (get_cache_expiration provider)))
      (CacheSync.files cm) in
  (alive -> response <> "" ->
   fst (get_cached_response provider model messages now' stored)
   = Errors.Ok (Some response)) /\
  (kept -> ~ alive ->
   fst (get_cached_response provider model messages now' stored)
   = Errors.Ok None) /\
  (alive \/ kept -> response = "" ->
   fst (get_cached_response provider model messages now' stored)
   = Errors.Ok None).
Proof.
  intros Hon. cbn zeta. unfold get_cached_response, cache_response.
  rewrite Hon. cbn [negb]. fold (get_cache_expiration provider).
  destruct (get_set_same (response_key messages) response
              (get_cache_expiration provider) (Some provider) now now' cm
              (cache_expiration_representable provider)) as [Hlive Hdead].
  split; [|split].
  - intros Ha Hne. rewrite (Hlive Ha).
    destruct response; [congruence | reflexivity].
  - intros Hk Hd. now rewrite (Hdead Hd Hk).
  - intros Hcase ->.
    destruct (live_or_not (Some (get_cache_expiration provider)) now now')
      as [Ha|Hd].
    + now rewrite (Hlive Ha).
    + destruct Hcase as [Ha|Hk]; [contradiction|]. now rewrite (Hdead Hd Hk).
Qed.

(** X11, witness: a response cached for gpt-4 under the provider openai,
    whose entries live 60 minutes, read 10 minutes later on a directory
    that cannot be written. *)
Lemma cached_response_round_trip_witness :
  fst (@get_cached_response CacheSync.read_only_files "openai" "gpt-4"
         [message "user" "hi"] 600
         (@cache_response CacheSync.read_only_files "openai" "gpt-4"
            [message "user" "hi"] "hello" 0
            (@CacheSync.CacheManager_init CacheSync.read_only_files ∅)))
  = Errors.Ok (Some "hello").
Proof.
  apply (@cached_response_round_trip CacheSync.read_only_files "openai" "gpt-4"
           "hello" [message "user" "hi"] 0 600
           (@CacheSync.CacheManager_init CacheSync.read_only_files ∅) eq_refl).
  - right. vm_compute. discriminate.
  - discriminate.
Defined.

Lemma get_miss_state `{CacheSync.FileSystem} (key : string) (now : Q)
    (cm : CacheSync.CacheManager) :
  fst (CacheSync.get key now cm) = Errors.Ok None ->
  snd (CacheSync.get key now cm) = CacheSync._ensure_lock key cm.
Proof.
  unfold CacheSync.get.
  destruct (CacheSync._cache (CacheSync._ensure_lock key cm) !! key) as [e|];
    [destruct (CacheSync._is_expired now e) as [[|]|]; try discriminate|];
    (destruct (CacheSync.read_entry key
                 (CacheSync.files (CacheSync._ensure_lock key cm))) as [e'|];
     [destruct (CacheSync._is_expired now e') as [[|]|]; try discriminate|];
     reflexivity).
Qed.

Lemma ensure_lock_twice `{CacheSync.FileSystem} (key : string)
    (cm : CacheSync.CacheManager) :
  CacheSync._ensure_lock key (CacheSync._ensure_lock key cm)
  = CacheSync._ensure_lock key cm.
Proof.
  unfold CacheSync._ensure_lock. cbn. f_equal.
  apply subseteq_union_1_L, singleton_subseteq_l, elem_of_union_l,
    elem_of_singleton_2. reflexivity.
Qed.

(** X12.  A message is stored once: when [create_cacheable_message] with a
    non-empty content of at least [min_cache_size] characters finds nothing
    under its key, it stores the content for 30 minutes; the same call
    repeated within those 30 minutes returns the same message and leaves
    the cache manager as it is, whatever became of the file; repeated
    later, and the first write having taken effect, it stores the content
    again with the new time. *)
Theorem cacheable_message_stored_once `{CacheSync.FileSystem}
    (role content : string) (min_cache_size : Z) (now now' : Q)
    (cm : CacheSync.CacheManager) :
  min_cache_size <= Z.of_nat (String.length content) ->
  content <> "" ->
  fst (CacheSync.get (_calculate_cache_key content role) now cm)
  = Errors.Ok None ->
  let first := create_cacheable_message role content true min_cache_size now cm in
  let again :=
    create_cacheable_message role content true min_cache_size now' (snd first) in
  fst first = Errors.Ok (message role content) /\
  CacheSync._cache (snd first) !! _calculate_cache_key content role
  = Some (CacheSync.mk_entry content now None (Some 30)) /\
  (CacheStore.live (Some 30) now now' ->
   again = (Errors.Ok (message role content), snd first)) /\
  (~ CacheStore.live (Some 30) now now' ->
   CacheStore.written (_calculate_cache_key content role)
     (CacheSync.mk_entry content now None (Some 30)) (CacheSync.files cm) ->
   fst again = Errors.Ok (message role content) /\
   CacheSync._cache (snd again) !! _calculate_cache_key content role
   = Some (CacheSync.mk_entry content now' None (Some 30))).
Proof.
  intros Hsize Hne Hmiss. cbn zeta. unfold create_cacheable_message.
  destruct (Z.ltb_spec (Z.of_nat (String.length content)) min_cache_size); [lia|].
  cbn [negb orb].
  generalize dependent (_calculate_cache_key content role). intros key Hmiss.
  pose proof (get_miss_state key now cm Hmiss) as Hstate.
  destruct (CacheSync.get key now cm) as [cached cm1] eqn:Hget.
  cbn [fst snd] in Hmiss, Hstate. subst cached cm1.
  assert (Httl : CACHE_EXPIRATION !! "default" = Some 30) by reflexivity.
  rewrite Httl. cbn [fst snd].
  destruct (get_set_same key content 30 None now now'
              (CacheSync._ensure_lock key cm) eq_refl) as [Hlive Hdead].
  assert (Hlocked :
            CacheSync._ensure_lock key
              (CacheSync.set key content (Some 30) None now
                 (CacheSync._ensure_lock key cm))
            = CacheSync.set key content (Some 30) None now
                (CacheSync._ensure_lock key cm)).
  { unfold CacheSync.set. rewrite ensure_lock_twice.
    unfold CacheSync._ensure_lock. cbn. f_equal.
    apply subseteq_union_1_L, singleton_subseteq_l, elem_of_union_l,
      elem_of_singleton_2. reflexivity. }
  rewrite Hlocked in Hlive, Hdead.
  split; [reflexivity|]. split.
  { unfold CacheSync.set, CacheSync._ensure_lock. cbn. apply lookup_insert_eq. }
  split.
  - intros Ha. rewrite (Hlive Ha).
    destruct content; [congruence | reflexivity].
  - intros Hd Hw. rewrite (Hdead Hd Hw). cbn [fst snd].
    split; [reflexivity|].
    unfold CacheSync.set, CacheSync._ensure_lock. cbn. apply lookup_insert_eq.
Qed.

(** X12, witness: the report request of 107 characters, asked for twice
    within a minute. *)
Lemma cacheable_message_stored_once_witness :
  create_cacheable_message "user" report_request true 100 60
    (snd (create_cacheable_message "user" report_request true 100 0
            (CacheSync.CacheManager_init ∅)))
  = (Errors.Ok (message "user" report_request),
     snd (create_cacheable_message "user" report_request true 100 0
            (CacheSync.CacheManager_init ∅))).
Proof.
  apply (cacheable_message_stored_once "user" report_request 100 0 60
           (CacheSync.CacheManager_init ∅)).
  - vm_compute. discriminate.
  - discriminate.
  - reflexivity.
  - right. vm_compute. discriminate.
Defined.

End CachePolicyProofs.

Module BaseMore.
Import Errors PyVal Base BaseSpec.

Lemma check_messages_ok (l : list pyval) :
  check_messages l = Ok tt <-> List.Forall message_shaped l.
Proof.
  induction l as [|msg rest IH]; cbn [check_messages].
  - split; [constructor | reflexivity].
  - rewrite List.Forall_cons_iff, <- IH. unfold message_shaped.
    destruct msg as [| | | |d]; try (split; [discriminate | intros [(d' & E & _) _]; discriminate E]).
    destruct (d !! "role") as [r|] eqn:Hr.
    + destruct (d !! "content") as [c|] eqn:Hc.
      * split; [intros H; split; [exists d; rewrite Hr, Hc; eauto | exact H] | tauto].
      * split; [discriminate|]. intros [(d' & E & _ & Hs) _].
        injection E as <-. rewrite Hc in Hs. now destruct Hs.
    + split; [discriminate|]. intros [(d' & E & Hs & _) _].
      injection E as <-. rewrite Hr in Hs. now destruct Hs.
Qed.

Lemma check_messages_error (l : list pyval) (e : exn) :
  check_messages l = Raise e -> cls e = ValidationError.
Proof.
  induction l as [|msg rest IH]; cbn [check_messages]; [discriminate|].
  destruct msg as [| | | |d]; try (intros [= <-]; reflexivity).
  destruct (d !! "role"); destruct (d !! "content");
    try (intros [= <-]; reflexivity).
  exact IH.
Qed.

(** X14.  [_validate_request_params] accepts exactly the requests that
    have a model and a non-empty list of messages each of which is a dict
    with a role and a content; every other request raises a
    ValidationError. *)
Theorem validate_request_params_exactly (params : gmap string pyval) :
  (_validate_request_params params = Ok tt <-> request_shaped params) /\
  (forall e : exn,
     _validate_request_params params = Raise e -> cls e = ValidationError).
Proof.
  unfold _validate_request_params, request_shaped. split.
  - destruct (params !! "messages") as [messages|].
    + destruct (params !! "model") as [m|].
      * destruct messages as [| | |[|msg rest]|];
          try (split; [discriminate | intros (_ & ? & ? & E & _); discriminate E]).
        rewrite check_messages_ok. split.
        -- intros H. split; [eauto|]. now exists msg, rest.
        -- intros (_ & msg' & rest' & E & H). now injection E as <- <-.
      * split; [destruct messages; discriminate | intros ([? E] & _); discriminate E].
    + split; [discriminate | intros (_ & ? & ? & E & _); discriminate E].
  - intros e.
    destruct (params !! "messages") as [messages|];
      [|intros [= <-]; reflexivity].
    destruct (params !! "model") as [m|];
      [|destruct messages; intros [= <-]; reflexivity].
    destruct messages as [| | |[|msg rest]|]; try (intros [= <-]; reflexivity).
    apply check_messages_error.
Qed.

(** X14, witness: the request of one user message. *)
Lemma validate_request_params_exactly_witness :
  _validate_request_params hello_request = Ok tt.
Proof.
  apply (proj1 (validate_request_params_exactly hello_request)).
  split; [eexists; reflexivity|]. do 2 eexists. split; [reflexivity|].
  constructor; [|constructor]. eexists. split; [reflexivity|].
  split; eexists; reflexivity.
Defined.

Section WithPydantic.
Context `{Pydantic}.
Variable json_loads : string -> option pyval.

Lemma read_choices_length (l : list pyval) (ms : list MessageContent) :
  read_choices l = Ok ms -> length ms = length l.
Proof.
  revert ms. induction l as [|c rest IH]; intros ms; cbn [read_choices].
  - now intros [= <-].
  - destruct (read_choice c); [|discriminate].
    destruct (read_choices rest) as [ms'|]; [|discriminate].
    intros [= <-]. cbn. now rewrite (IH ms').
Qed.

Lemma APIResponse_init_choices (ms : list MessageContent) (m : pyval)
    (u : option pyval) (v : APIResponse) :
  APIResponse_init ms m u = Ok v -> choices v = ms.
Proof.
  unfold APIResponse_init. destruct (str_validator m); [|discriminate].
  destruct (match u with
            | Some VNone | None => Some None
            | Some v0 => Some <$> int_dict_validator v0
            end); [|discriminate].
  now intros [= <-].
Qed.

Lemma validate_payload_ok (response : pyval) (v : APIResponse) :
  validate_payload response = Ok v ->
  (exists (first : MessageContent) (rest : list MessageContent),
     choices v = first :: rest /\ content first <> "") /\
  (forall (d : gmap string pyval) (l : list pyval),
     response = VDict d -> d !! "choices" = Some (VList l) ->
     length (choices v) = length l).
Proof.
  unfold validate_payload.
  destruct (subscript response "choices") as [cs|] eqn:Hcs; [|discriminate].
  destruct (iterate cs) as [items|] eqn:Hit; [|discriminate].
  destruct (read_choices items) as [ms|] eqn:Hms; [|discriminate].
  destruct (subscript response "model") as [m|]; [|discriminate].
  destruct (APIResponse_init ms m _) as [validated|] eqn:Hv; [|discriminate].
  pose proof (APIResponse_init_choices _ _ _ _ Hv) as Hch.
  destruct (choices validated) as [|first rest] eqn:Hc; [discriminate|].
  destruct (content first) as [|c s] eqn:Hcontent; [discriminate|].
  intros [= <-]. split.
  - exists first, rest. split; [exact Hc|]. now rewrite Hcontent.
  - intros d l -> Hl. unfold subscript in Hcs. rewrite Hl in Hcs.
    injection Hcs as <-. cbn in Hit. injection Hit as <-.
    rewrite Hc, Hch. now apply read_choices_length.
Qed.

Lemma validate_response_ok (response : pyval) (v : APIResponse) :
  _validate_response json_loads response = Ok v ->
  exists payload : pyval,
    validate_payload payload = Ok v /\
    (forall d : gmap string pyval, response = VDict d -> payload = response).
Proof.
  unfold _validate_response.
  assert (Hwrap : forall (r : result APIResponse),
             match r with
             | Ok v0 => Ok v0
             | Raise e =>
                 if isinstance e JSONDecodeError || isinstance e PydanticValidationError
                 then Raise (error ValidationError
                               ("Invalid API response format: " +:+ message e))
                 else Raise e
             end = Ok v -> r = Ok v).
  { intros [v0|e]; [auto|]. destruct (_ || _); discriminate. }
  destruct response as [|s|z|l|d]; intros Hr; apply Hwrap in Hr;
    try (eexists; split; [exact Hr | reflexivity]).
  destruct (json_loads s) as [p|]; [|discriminate].
  exists p. split; [exact Hr | discriminate].
Qed.

Lemma validate_response_first (response : pyval) (v : APIResponse) :
  _validate_response json_loads response = Ok v ->
  exists (first : MessageContent) (rest : list MessageContent),
    choices v = first :: rest /\ content first <> "".
Proof.
  intros Hr. apply validate_response_ok in Hr as (payload & Hp & _).
  exact (proj1 (validate_payload_ok payload v Hp)).
Qed.

(** X15.  A response that [_validate_response] returns has a first choice
    with non-empty content, so the callers' [response.choices[0]
    ['message'].content] is a non-empty string; and it keeps one choice for
    each choice of a payload whose choices are a list. *)
Theorem validated_response_has_content (response : pyval) (v : APIResponse) :
  _validate_response json_loads response = Ok v ->
  (exists (first : MessageContent) (rest : list MessageContent),
     choices v = first :: rest /\ content first <> "") /\
  (forall (d : gmap string pyval) (l : list pyval),
     response = VDict d -> d !! "choices" = Some (VList l) ->
     length (choices v) = length l).
Proof.
  intros Hr. split; [now apply validate_response_first in Hr|].
  intros d l E Hl. apply validate_response_ok in Hr as (payload & Hp & Hsame).
  rewrite (Hsame d E) in Hp.
  exact (proj2 (validate_payload_ok response v Hp) d l E Hl).
Qed.

End WithPydantic.

(** X15, witness: a payload with one assistant message. *)
Lemma validated_response_has_content_witness :
  exists (v : APIResponse) (first : MessageContent) (rest : list MessageContent),
    _validate_response (fun _ => None) good_payload = Ok v /\
    choices v = first :: rest /\ content first <> "".
Proof.
  eexists.
  assert (E : _validate_response (fun _ => None) good_payload
              = Ok (mk_APIResponse
                      [mk_MessageContent "Clear skies." "assistant" None]
                      "gpt-4" None)) by (vm_compute; reflexivity).
  destruct (validated_response_has_content (fun _ => None) good_payload _ E)
    as [(first & rest & Hc & Hne) _].
  exists first, rest. split; [exact E|]. split; assumption.
Defined.

End BaseMore.

Module CallProofs.
Import Errors PyVal Base BaseSpec.

Lemma startswith_app (p s : string) : PyStr.startswith p (p +:+ s) = true.
Proof.
  induction p as [|c p IH]; [reflexivity|].
  change (String c p +:+ s) with (String c (p +:+ s)).
  cbn [PyStr.startswith]. now rewrite Ascii.eqb_refl.
Qed.

Lemma startswith_app2 (p q s : string) :
  PyStr.startswith (p +:+ q) (p +:+ q +:+ s) = true.
Proof.
  induction p as [|c p IH]; [exact (startswith_app q s)|].
  change (PyStr.startswith (String c (p +:+ q)) (String c (p +:+ q +:+ s)) = true).
  cbn [PyStr.startswith]. now rewrite Ascii.eqb_refl.
Qed.

Lemma translate_shape (prefix : string) (e : exn) :
  let e' := translate prefix e in
  isinstance e' LLMError = true /\
  PyStr.startswith (prefix +:+ ": ") (message e') = true /\
  status_code e' = None /\ response e' = None.
Proof.
  cbn zeta. unfold translate.
  destruct (isinstance e PydanticValidationError); cbn [message error status_code response];
    (split; [reflexivity|]); (split; [|split; reflexivity]);
    apply startswith_app2.
Qed.

Section WithPydantic.
Context `{Pydantic}.
Variable json_loads : string -> option pyval.

Lemma attempts_loop_S (net : nat -> http_outcome) (prefix : string)
    (max_retries : Z) (retry_delay : Q) (remaining : nat) (attempts : Z)
    (last : option exn) (log : call_log) :
  attempts_loop json_loads net prefix max_retries retry_delay (S remaining)
    attempts last log
  = match attempt_result json_loads (net (attempts_made log)) with
    | Ok validated =>
        (Ok validated, mk_call_log (S (attempts_made log)) (delays log))
    | Raise e =>
        attempts_loop json_loads net prefix max_retries retry_delay remaining
          (attempts + 1)
          (Some (if isinstance e TimeoutError
                 then error LLMError (prefix +:+ ": Request timed out")
                 else e))
          (if attempts + 1 <=? max_retries
           then mk_call_log (S (attempts_made log))
                  (delays log ++ [(retry_delay * inject_Z (attempts + 1))%Q])
           else mk_call_log (S (attempts_made log)) (delays log))
    end.
Proof. reflexivity. Qed.

(** What every run of the loop does: it makes between one and [remaining]
    attempts, and it sleeps the linear delays between them. *)
Lemma attempts_loop_shape (net : nat -> http_outcome) (prefix : string)
    (max_retries : Z) (retry_delay : Q) :
  forall (remaining : nat) (attempts : Z) (last : option exn)
         (log log' : call_log) (r : result APIResponse),
    Z.of_nat remaining = max_retries + 1 - attempts ->
    attempts_loop json_loads net prefix max_retries retry_delay remaining
      attempts last log = (r, log') ->
    (attempts_made log' <= attempts_made log + remaining)%nat /\
    (1 <= remaining -> attempts_made log < attempts_made log')%nat /\
    (remaining = O -> log' = log) /\
    delays log'
    = delays log
      ++ backoff retry_delay attempts
           (pred (attempts_made log' - attempts_made log)).
Proof.
  induction remaining as [|n IH]; intros attempts last log log' r Hn.
  - cbn [attempts_loop]. intros [= _ <-]. rewrite Nat.sub_diag. cbn.
    rewrite app_nil_r. repeat split; try lia.
  - rewrite attempts_loop_S.
    destruct (attempt_result json_loads (net (attempts_made log))) as [v|e].
    + intros [= _ <-]. cbn [attempts_made delays].
      replace (S (attempts_made log) - attempts_made log)%nat with 1%nat by lia.
      cbn. rewrite app_nil_r. repeat split; try lia; try discriminate.
    + intros Hloop. apply IH in Hloop as (Hle & Hlt & Hzero & Hd); [|lia].
      destruct n as [|n'].
      * specialize (Hzero eq_refl). subst log'.
        destruct (Z.leb_spec (attempts + 1) max_retries); [lia|].
        cbn [attempts_made delays].
        replace (S (attempts_made log) - attempts_made log)%nat with 1%nat by lia.
        cbn. rewrite app_nil_r. repeat split; try lia; try discriminate.
      * specialize (Hlt ltac:(lia)). clear Hzero.
        destruct (Z.leb_spec (attempts + 1) max_retries); [|lia].
        cbn [attempts_made delays] in *.
        split; [lia|]. split; [lia|]. split; [discriminate|].
        rewrite Hd, <- app_assoc. f_equal.
        destruct (attempts_made log' - S (attempts_made log))%nat as [|k] eqn:Hk;
          [lia|].
        replace (attempts_made log' - attempts_made log)%nat with (S (S k)) by lia.
        cbn [pred]. now rewrite ExecutorProofs.backoff_S.
Qed.

Lemma make_api_call_shape (net : nat -> http_outcome)
    (request_kwargs : gmap string pyval) (prefix : string)
    (max_retries : Z) (retry_delay : Q) :
  let call := _make_api_call json_loads net request_kwargs prefix
                max_retries retry_delay in
  (attempts_made (snd call) <= Z.to_nat (max_retries + 1))%nat /\
  delays (snd call)
  = backoff retry_delay 0 (pred (attempts_made (snd call))) /\
  match fst call with
  | Ok v =>
      (1 <= attempts_made (snd call))%nat /\
      exists (first : MessageContent) (rest : list MessageContent),
        choices v = first :: rest /\ content first <> ""
  | Raise e =>
      isinstance e LLMError = true /\
      PyStr.startswith (prefix +:+ ": ") (message e) = true /\
      status_code e = None /\ response e = None
  end.
Proof.
  cbn zeta. unfold _make_api_call.
  destruct (_validate_request_params request_kwargs) as [[]|e0].
  2:{ cbn [fst snd attempts_made delays]. split; [lia|]. split; [reflexivity|].
      apply translate_shape. }
  destruct (attempts_loop json_loads net prefix max_retries retry_delay
              (Z.to_nat (max_retries + 1)) 0 None (mk_call_log 0 []))
    as [r log] eqn:Hloop.
  assert (Hshape :
            (attempts_made log <= Z.to_nat (max_retries + 1))%nat /\
            delays log = backoff retry_delay 0 (pred (attempts_made log))).
  { destruct (Z.to_nat (max_retries + 1)) as [|n] eqn:Hn.
    - cbn in Hloop. injection Hloop as _ <-. cbn. split; [lia | reflexivity].
    - rewrite <- Hn in Hloop.
      apply attempts_loop_shape in Hloop as (Hle & _ & _ & Hd); [|lia].
      cbn [attempts_made delays app] in Hle, Hd. rewrite Nat.sub_0_r in Hd.
      split; [lia | exact Hd]. }
  destruct r as [v|e]; cbn [fst snd].
  - split; [apply Hshape|]. split; [apply Hshape|].
    assert (Hv : (1 <= attempts_made log)%nat /\
                 exists response : pyval,
                   _validate_response json_loads response = Ok v).
    { clear Hshape. revert Hloop.
      generalize (mk_call_log 0 []) as log0. generalize (@None exn) as last.
      generalize 0 as attempts.
      induction (Z.to_nat (max_retries + 1)) as [|n IH]; intros attempts last log0.
      - cbn. discriminate.
      - rewrite attempts_loop_S. unfold attempt_result.
        destruct (wait_for_call (net (attempts_made log0))) as [response|e1].
        + destruct (_validate_response json_loads response) as [v1|e1] eqn:Hv1.
          * intros [= <- <-]. cbn. split; [lia | eauto].
          * intros Hl. apply IH in Hl as Hl'. split; [|apply Hl'].
            destruct n as [|n']; [cbn in Hl; discriminate|].
            destruct Hl' as [Hone _]. exact Hone.
        + intros Hl. apply IH in Hl as Hl'. split; [|apply Hl'].
          destruct Hl' as [Hone _]. exact Hone. }
    destruct Hv as [Hone [response Hv]]. split; [exact Hone|].
    exact (BaseMore.validate_response_first json_loads response v Hv).
  - split; [apply Hshape|]. split; [apply Hshape|]. apply translate_shape.
Qed.

(** X16.  Whatever the network does, [_make_api_call] makes at most
    [max_retries + 1] attempts and sleeps [retry_delay * i] after the
    failed attempt number [i] when another one follows; a response it
    returns has a first choice with content; an error it raises is an
    LLMError of the taxonomy whose message starts with the caller's error
    prefix and which carries neither an HTTP status nor a response text. *)
Theorem make_api_call_schedule (net : nat -> http_outcome)
    (request_kwargs : gmap string pyval) (prefix : string)
    (max_retries : Z) (retry_delay : Q) :
  let call := _make_api_call json_loads net request_kwargs prefix
                max_retries retry_delay in
  (attempts_made (snd call) <= Z.to_nat (max_retries + 1))%nat /\
  delays (snd call)
  = backoff retry_delay 0 (pred (attempts_made (snd call))) /\
  match fst call with
  | Ok v =>
      (1 <= attempts_made (snd call))%nat /\
      exists (first : MessageContent) (rest : list MessageContent),
        choices v = first :: rest /\ content first <> ""
  | Raise e =>
      isinstance e LLMError = true /\
      PyStr.startswith (prefix +:+ ": ") (message e) = true /\
      status_code e = None /\ response e = None
  end.
Proof. apply make_api_call_shape. Qed.

Lemma attempts_loop_success (net : nat -> http_outcome) (prefix : string)
    (max_retries : Z) (retry_delay : Q) (v : APIResponse) :
  forall (k remaining : nat) (attempts : Z) (last : option exn) (log : call_log),
    (k < remaining)%nat ->
    Z.of_nat remaining = max_retries + 1 - attempts ->
    (forall i : nat, (i < k)%nat ->
       exists e : exn,
         attempt_result json_loads (net (attempts_made log + i)%nat) = Raise e) ->
    attempt_result json_loads (net (attempts_made log + k)%nat) = Ok v ->
    attempts_loop json_loads net prefix max_retries retry_delay remaining
      attempts last log
    = (Ok v,
       mk_call_log (attempts_made log + S k)
         (delays log ++ backoff retry_delay attempts k)).
Proof.
  induction k as [|k IH]; intros remaining attempts last log Hk Hn Hfail Hok;
    (destruct remaining as [|n]; [lia|]); rewrite attempts_loop_S.
  - rewrite Nat.add_0_r in Hok. rewrite Hok. cbn. rewrite app_nil_r.
    do 2 f_equal. lia.
  - destruct (Hfail O ltac:(lia)) as [e He]. rewrite Nat.add_0_r in He.
    rewrite He. destruct (Z.leb_spec (attempts + 1) max_retries); [|lia].
    rewrite (IH n); cbn [attempts_made delays]; try lia.
    + rewrite ExecutorProofs.backoff_S, <- app_assoc. do 2 f_equal. lia.
    + intros i Hi. destruct (Hfail (S i) ltac:(lia)) as [e' He'].
      exists e'. rewrite <- He'. do 2 f_equal. lia.
    + rewrite <- Hok. do 2 f_equal. lia.
Qed.

(** X17.  When the request is well formed, the first [k] attempts fail, in
    any way, and the attempt number [k] brings a response that validates,
    with [k] no more than [max_retries], then [_make_api_call] returns that
    response after exactly [k + 1] attempts, having slept
    [retry_delay * 1], ..., [retry_delay * k]. *)
Theorem make_api_call_succeeds_after_failures (net : nat -> http_outcome)
    (request_kwargs : gmap string pyval) (prefix : string)
    (max_retries : Z) (retry_delay : Q) (k : nat) (v : APIResponse) :
  _validate_request_params request_kwargs = Ok tt ->
  Z.of_nat k <= max_retries ->
  (forall i : nat, (i < k)%nat ->
     exists e : exn, attempt_result json_loads (net i) = Raise e) ->
  attempt_result json_loads (net k) = Ok v ->
  _make_api_call json_loads net request_kwargs prefix max_retries retry_delay
  = (Ok v, mk_call_log (S k) (backoff retry_delay 0 k)).
Proof.
  intros Hreq Hk Hfail Hok. unfold _make_api_call. rewrite Hreq.
  rewrite (attempts_loop_success net prefix max_retries retry_delay v k);
    cbn [attempts_made delays Nat.add app]; try assumption; try lia.
  reflexivity.
Qed.

End WithPydantic.

(** X17, witness: a timeout, a 503 and then an answer, with three retries
    allowed and a delay of one second. *)
Lemma make_api_call_succeeds_after_failures_witness :
  exists v : APIResponse,
    _make_api_call (fun _ => None) third_time_lucky hello_request "Planning failed"
      3 1
    = (Ok v, mk_call_log 3 [(1 * inject_Z 1)%Q; (1 * inject_Z 2)%Q]).
Proof.
  exists (mk_APIResponse [mk_MessageContent "Clear skies." "assistant" None]
            "gpt-4" None).
  apply (make_api_call_succeeds_after_failures (fun _ => None) third_time_lucky
           hello_request "Planning failed" 3 1 2).
  - reflexivity.
  - lia.
  - intros [|[|i]] Hi; [eexists; reflexivity | eexists; reflexivity | lia].
  - vm_compute. reflexivity.
Defined.

Lemma raise_for_status_code_error (status : Z) (text : option string) :
  400 <= status ->
  exists e : exn,
    raise_for_status_code status text = Raise e /\
    isinstance e APIError = true /\
    status_code e = Some status /\ response e = text.
Proof.
  intros Hs. unfold raise_for_status_code.
  destruct (Z.leb_spec 400 status); [|lia].
  eexists. split; [reflexivity|].
  destruct (decide (status ∈ [400; 401; 403; 429; 500; 502; 503; 504]))
    as [Hin|Hout].
  - rewrite !elem_of_cons, elem_of_nil in Hin.
    destruct Hin as [->|[->|[->|[->|[->|[->|[->|[->|[]]]]]]]]];
      vm_compute; repeat split; reflexivity.
  - rewrite !elem_of_cons, elem_of_nil in Hout.
    rewrite ErrorsProofs.error_map_other by lia.
    repeat split; reflexivity.
Qed.

(** X18.  [_execute_api_call] hands the body of the response to the caller
    for every status below 400, not only for 200; from 400 on it raises an
    error of the APIError family that carries the status and the response
    text, whatever the body holds. *)
Theorem execute_api_call_by_status (status : Z) (text : string)
    (json : result pyval) :
  (status < 400 -> _execute_api_call status text json = json) /\
  (400 <= status ->
   exists e : exn,
     _execute_api_call status text json = Raise e /\
     isinstance e APIError = true /\ isinstance e LLMError = true /\
     status_code e = Some status /\ response e = Some text).
Proof.
  unfold _execute_api_call. split; intros Hs.
  - destruct (negb (status =? 200)); [|reflexivity].
    unfold raise_for_status_code.
    destruct (Z.leb_spec 400 status); [lia | reflexivity].
  - destruct (Z.eqb_spec status 200); [lia|]. cbn [negb].
    destruct (raise_for_status_code_error status (Some text) Hs)
      as (e & -> & Hapi & Hst & Hresp).
    exists e. repeat split; try assumption.
    unfold isinstance in *. destruct (cls e); try discriminate Hapi; reflexivity.
Qed.

(** X18, witness: a 204 with no body to parse, and a 401. *)
Lemma execute_api_call_by_status_witness :
  _execute_api_call 204 "" (Raise (error JSONDecodeError "Expecting value"))
  = Raise (error JSONDecodeError "Expecting value") /\
  exists e : exn,
    _execute_api_call 401 "denied" (Ok VNone) = Raise e /\
    isinstance e APIError = true /\ status_code e = Some 401.
Proof.
  split.
  - apply (proj1 (execute_api_call_by_status 204 "" _)). lia.
  - destruct (proj2 (execute_api_call_by_status 401 "denied" (Ok VNone)))
      as (e & He & Hapi & _ & Hst & _); [lia|].
    exists e. repeat split; assumption.
Defined.

(** X19.  A module is built exactly from a configuration with a non-empty
    API key, a non-empty model name and, when it carries a rate limit, both
    of its bounds at least one; the module then starts with an empty context
    and no session, and every refusal is a ValidationError.  The agent of
    the default configuration is built exactly when the API key read from
    the environment is not empty. *)
Theorem module_built_exactly (cfg : ConfigObject) :
  (forall m : BaseLLMModule,
     BaseLLMModule_init cfg = Ok m <->
     (Config.api_key (fields cfg) <> "" /\ Config.model (fields cfg) <> "" /\
      (forall rl : Limiter.RateLimit,
         rate_limit cfg = Some rl ->
         1 <= Limiter.requests_per_minute rl /\
         1 <= Limiter.concurrent_requests rl)) /\
     m = mk_BaseLLMModule cfg ∅ None) /\
  (forall e : exn, BaseLLMModule_init cfg = Raise e -> cls e = ValidationError) /\
  (forall api_key site_url : string,
     let '(r, p, x) := create_default_config api_key site_url in
     (api_key <> "" ->
      exists agent : Agent.MultiLLMAgent,
        Agent.MultiLLMAgent_init r p x = Ok agent /\
        context (Agent.reasoning agent) = ∅ /\
        context (Agent.planner agent) = ∅ /\
        context (Agent.executor agent) = ∅) /\
     (api_key = "" ->
      Agent.MultiLLMAgent_init r p x
      = Raise (error ValidationError "API key is required"))).
Proof.
  split; [|split].
  - intros m. unfold BaseLLMModule_init, _validate_config. cbn [config].
    destruct (Config.api_key (fields cfg)) as [|c k] eqn:Hk; cbn [PyStr.truthy negb].
    { split; [discriminate | intros [[Hne _] _]; now elim Hne]. }
    destruct (Config.model (fields cfg)) as [|c' mo] eqn:Hm; cbn [PyStr.truthy negb].
    { split; [discriminate | intros [(_ & Hne & _) _]; now elim Hne]. }
    destruct (rate_limit cfg) as [rl|].
    + destruct (Z.ltb_spec (Limiter.requests_per_minute rl) 1).
      { split; [discriminate|]. intros [(_ & _ & Hrl) _].
        destruct (Hrl rl eq_refl). lia. }
      destruct (Z.ltb_spec (Limiter.concurrent_requests rl) 1).
      { split; [discriminate|]. intros [(_ & _ & Hrl) _].
        destruct (Hrl rl eq_refl). lia. }
      split.
      * intros [= <-]. split; [|reflexivity].
        split; [discriminate|]. split; [discriminate|].
        intros rl' [= <-]. lia.
      * intros [_ ->]. reflexivity.
    + split.
      * intros [= <-]. split; [|reflexivity].
        split; [discriminate|]. split; [discriminate|].
        intros rl' [=].
      * intros [_ ->]. reflexivity.
  - intros e. unfold BaseLLMModule_init, _validate_config. cbn [config].
    destruct (negb (PyStr.truthy _)); [intros [= <-]; reflexivity|].
    destruct (negb (PyStr.truthy _)); [intros [= <-]; reflexivity|].
    destruct (rate_limit cfg) as [rl|]; [|discriminate].
    destruct (_ <? 1); [intros [= <-]; reflexivity|].
    destruct (_ <? 1); [intros [= <-]; reflexivity | discriminate].
  - intros api_key site_url. cbn [create_default_config]. split.
    + intros Hne. destruct api_key as [|c k]; [now elim Hne|].
      eexists. split; [reflexivity|]. repeat split.
    + intros ->. reflexivity.
Qed.

(** X19, witness: the default agent with a key, and a module whose
    configuration has no model name. *)
Lemma module_built_exactly_witness :
  (exists agent : Agent.MultiLLMAgent,
     Agent.MultiLLMAgent_init
       (mk_ConfigObject (Config.REASONING_CONFIG "sk-1" "") None)
       (mk_ConfigObject (Config.PLANNING_CONFIG "sk-1" "") None)
       (mk_ConfigObject (Config.EXECUTOR_CONFIG "sk-1" "") None) = Ok agent /\
     context (Agent.reasoning agent) = ∅ /\
     context (Agent.planner agent) = ∅ /\
     context (Agent.executor agent) = ∅) /\
  (exists e : exn,
     BaseLLMModule_init
       (mk_ConfigObject (Config.default_config "" 1 "sk-1" "") None) = Raise e /\
     cls e = ValidationError).
Proof.
  split.
  - apply (proj1 (proj2 (proj2 (module_built_exactly
                                  (mk_ConfigObject (Config.REASONING_CONFIG "" "") None)))
                   "sk-1" "")).
    discriminate.
  - eexists. split; [reflexivity|].
    now apply (proj1 (proj2 (module_built_exactly
                               (mk_ConfigObject
                                  (Config.default_config "" 1 "sk-1" "") None)))).
Defined.

End CallProofs.

Module BackoffProofs.
Import Errors PyVal Base BaseSpec Backoff.

Lemma float_limit_pos : (0 < inject_Z float_limit)%Q.
Proof.
  unfold float_limit, Qlt. cbn [Qnum Qden inject_Z]. rewrite !Z.mul_1_r.
  apply Z.pow_pos_nonneg; lia.
Qed.

Lemma delay_grows (retry_delay : Q) (a b : Z) :
  (0 <= retry_delay)%Q -> 0 <= a <= b ->
  (retry_delay * inject_Z (2 ^ a) <= retry_delay * inject_Z (2 ^ b))%Q.
Proof.
  intros Hr Hab. rewrite !(Qmult_comm retry_delay).
  apply Qmult_le_compat_r; [|exact Hr].
  rewrite <- Zle_Qle. apply Z.pow_le_mono_r; lia.
Qed.

(** A delay that is a float is what the loop sleeps. *)
Lemma wait_time_finite (retry_delay : Q) (attempt : Z) :
  (0 <= retry_delay)%Q -> 0 <= attempt < 1024 ->
  (retry_delay * inject_Z (2 ^ attempt) < inject_Z float_limit)%Q ->
  wait_time retry_delay attempt
  = Ok (Config.Finite (retry_delay * inject_Z (2 ^ attempt))%Q).
Proof.
  intros Hr Ha Hlt. unfold wait_time.
  destruct (Z.leb_spec 1024 attempt); [lia|]. cbn zeta.
  destruct (Qle_bool (inject_Z float_limit) _) eqn:E1.
  { apply Qle_bool_iff in E1. lra. }
  destruct (Qle_bool _ (- inject_Z float_limit)) eqn:E2; [|reflexivity].
  apply Qle_bool_iff in E2. pose proof float_limit_pos.
  assert (0 <= retry_delay * inject_Z (2 ^ attempt))%Q; [|lra].
  apply Qmult_le_0_compat; [exact Hr|].
  change 0%Q with (inject_Z 0). rewrite <- Zle_Qle.
  apply Z.pow_nonneg. lia.
Qed.

Lemma wait_time_overflow (retry_delay : Q) (attempt : Z) :
  1024 <= attempt ->
  wait_time retry_delay attempt
  = Raise (error OverflowError "int too large to convert to float").
Proof.
  intros Ha. unfold wait_time. destruct (Z.leb_spec 1024 attempt); [reflexivity | lia].
Qed.

Section WithPydantic.
Context `{Pydantic}.
Variable json_loads : string -> option pyval.

Lemma backoff_loop_S (net : nat -> http_outcome)
    (request_kwargs : gmap string pyval) (prefix : string) (max_retries : Z)
    (retry_delay : Q) (remaining : nat) (attempt : Z) (log : backoff_log) :
  backoff_loop json_loads net request_kwargs prefix max_retries retry_delay
    (S remaining) attempt log
  = let call :=
      _make_api_call json_loads (fun k => net (network_attempts log + k)%nat)
        request_kwargs prefix 1 0 in
    let log1 :=
      mk_backoff_log (network_attempts log + attempts_made (snd call))
        (sleeps log ++ List.map Config.Finite (delays (snd call))) in
    match fst call with
    | Ok validated => (Returns (Some validated), log1)
    | Raise e =>
        if attempt =? max_retries - 1 then (Raises e, log1)
        else
          match wait_time retry_delay attempt with
          | Raise overflow => (Raises overflow, log1)
          | Ok Config.PosInf =>
              (SleepsForever,
               mk_backoff_log (network_attempts log1)
                 (sleeps log1 ++ [Config.PosInf]))
          | Ok delay =>
              backoff_loop json_loads net request_kwargs prefix max_retries
                retry_delay remaining (attempt + 1)
                (mk_backoff_log (network_attempts log1) (sleeps log1 ++ [delay]))
          end
    end.
Proof. reflexivity. Qed.

Lemma backoff_loop_budget (net : nat -> http_outcome)
    (request_kwargs : gmap string pyval) (prefix : string) (max_retries : Z)
    (retry_delay : Q) :
  forall (remaining : nat) (attempt : Z) (log : backoff_log),
    0 <= attempt ->
    Z.of_nat (S remaining) = max_retries - attempt ->
    let run := backoff_loop json_loads net request_kwargs prefix max_retries
                 retry_delay (S remaining) attempt log in
    (network_attempts (snd run) <= network_attempts log + 2 * S remaining)%nat /\
    settled prefix max_retries retry_delay (fst run).
Proof.
  induction remaining as [|n IH]; intros attempt log Hpos Hn; cbn zeta;
    rewrite backoff_loop_S; cbn zeta;
    pose proof (CallProofs.make_api_call_shape json_loads
                  (fun k => net (network_attempts log + k)%nat)
                  request_kwargs prefix 1 0) as Hcall; cbn zeta in Hcall;
    destruct (_make_api_call json_loads _ request_kwargs prefix 1 0)
      as [[v|e] inner]; cbn [fst snd] in *;
    destruct Hcall as (Hle & _ & Hr);
    change (Z.to_nat (1 + 1)) with 2%nat in Hle.
  - cbn [fst snd network_attempts settled]. split; [lia | apply Hr].
  - destruct (Z.eqb_spec attempt (max_retries - 1)); [|lia].
    cbn [fst snd network_attempts settled]. split; [lia|].
    left. split; apply Hr.
  - cbn [fst snd network_attempts settled]. split; [lia | apply Hr].
  - destruct (Z.eqb_spec attempt (max_retries - 1)); [lia|].
    unfold wait_time. destruct (Z.leb_spec 1024 attempt).
    { cbn [fst snd network_attempts settled]. split; [lia|].
      right. split; [reflexivity | lia]. }
    cbn zeta.
    destruct (Qle_bool (inject_Z float_limit)
                (retry_delay * inject_Z (2 ^ attempt))) eqn:Einf.
    { cbn [fst snd network_attempts settled]. split; [lia|].
      exists attempt. split; [lia|]. now apply Qle_bool_iff. }
    cbn [network_attempts sleeps].
    assert (Hstep : forall delay : Config.pyfloat,
      let run :=
        backoff_loop json_loads net request_kwargs prefix max_retries
          retry_delay (S n) (attempt + 1)
          (mk_backoff_log (network_attempts log + attempts_made inner)
             ((sleeps log ++ List.map Config.Finite (delays inner)) ++ [delay])) in
      (network_attempts (snd run)
       <= network_attempts log + 2 * S (S n))%nat /\
      settled prefix max_retries retry_delay (fst run)).
    { intros delay.
      destruct (IH (attempt + 1)
                  (mk_backoff_log (network_attempts log + attempts_made inner)
                     ((sleeps log ++ List.map Config.Finite (delays inner))
                        ++ [delay]))
                  ltac:(lia) ltac:(lia)) as [Hb Hs].
      cbn [network_attempts] in Hb. split; [lia | exact Hs]. }
    destruct (Qle_bool _ (- inject_Z float_limit)); apply Hstep.
Qed.

(** X20.  [_make_api_call_with_backoff] never makes more than
    [2 * max_retries] network attempts.  With [max_retries] below one it
    makes none and returns [None].  Otherwise it never returns [None]: it
    returns a response whose first choice has content; or it raises an
    LLMError whose message starts with the error prefix, or, only where
    1026 turns or more are allowed, the OverflowError of the conversion of
    [2 ** 1024] to a float; or it sleeps for ever, only where a delay
    [retry_delay * 2 ** a] of a turn before the last reaches
    [2 ** 1024]. *)
Theorem backoff_attempt_budget (net : nat -> http_outcome)
    (request_kwargs : gmap string pyval) (prefix : string) (max_retries : Z)
    (retry_delay : Q) :
  let run := _make_api_call_with_backoff json_loads net request_kwargs prefix
               max_retries retry_delay in
  (network_attempts (snd run) <= 2 * Z.to_nat max_retries)%nat /\
  (max_retries <= 0 -> run = (Returns None, mk_backoff_log 0 [])) /\
  (1 <= max_retries ->
   match fst run with
   | Returns None => False
   | Returns (Some v) =>
       exists (first : MessageContent) (rest : list MessageContent),
         choices v = first :: rest /\ content first <> ""
   | Raises e =>
       (isinstance e LLMError = true /\
        PyStr.startswith (prefix +:+ ": ") (message e) = true) \/
       (cls e = OverflowError /\ 1026 <= max_retries)
   | SleepsForever =>
       exists a : Z,
         0 <= a <= max_retries - 2 /\
         (inject_Z float_limit <= retry_delay * inject_Z (2 ^ a))%Q
   end).
Proof.
  cbn zeta. unfold _make_api_call_with_backoff.
  destruct (Z.to_nat max_retries) as [|n] eqn:Hn.
  - cbn. split; [lia|]. split; [reflexivity | lia].
  - destruct (backoff_loop_budget net request_kwargs prefix max_retries
                retry_delay n 0 (mk_backoff_log 0 []) ltac:(lia) ltac:(lia))
      as [Hb Hs].
    cbn [network_attempts] in Hb. split; [lia|]. split; [lia|].
    intros _. exact Hs.
Qed.

(** One inner call on a network whose attempts all fail. *)
Lemma inner_call_fails (net : nat -> http_outcome)
    (request_kwargs : gmap string pyval) (prefix : string) :
  _validate_request_params request_kwargs = Ok tt ->
  (forall k : nat, exists e : exn, attempt_result json_loads (net k) = Raise e) ->
  exists e : exn,
    _make_api_call json_loads net request_kwargs prefix 1 0
    = (Raise e, mk_call_log 2 (backoff 0 0 1)).
Proof.
  intros Hreq Hnet. unfold _make_api_call. rewrite Hreq.
  change (Z.to_nat (1 + 1)) with 2%nat.
  rewrite CallProofs.attempts_loop_S. cbn [attempts_made delays].
  destruct (Hnet O) as [e0 ->].
  change (0 + 1 <=? 1) with true. cbn iota.
  rewrite CallProofs.attempts_loop_S. cbn [attempts_made delays].
  destruct (Hnet 1%nat) as [e1 ->]. cbn.
  eexists. reflexivity.
Qed.

(** The loop when every turn fails in the same way and every delay is a
    float: it runs to the last turn. *)
Lemma backoff_loop_exhausted (net : nat -> http_outcome)
    (request_kwargs : gmap string pyval) (prefix : string) (max_retries : Z)
    (retry_delay : Q) (made : nat) (pause : list Q) :
  (forall offset : nat,
     exists e : exn,
       _make_api_call json_loads (fun k => net (offset + k)%nat)
         request_kwargs prefix 1 0
       = (Raise e, mk_call_log made pause)) ->
  forall (remaining : nat) (attempt : Z) (log : backoff_log),
    Z.of_nat (S remaining) = max_retries - attempt ->
    (forall a : Z,
       attempt <= a <= max_retries - 2 ->
       wait_time retry_delay a
       = Ok (Config.Finite (retry_delay * inject_Z (2 ^ a))%Q)) ->
    exists e : exn,
      backoff_loop json_loads net request_kwargs prefix max_retries retry_delay
        (S remaining) attempt log
      = (Raises e,
         mk_backoff_log (network_attempts log + made * S remaining)
           (sleeps log
            ++ List.map Config.Finite
                 (exponential_delays retry_delay pause attempt (S remaining)))) /\
      isinstance e LLMError = true.
Proof.
  intros Hinner. induction remaining as [|n IH]; intros attempt log Hn Hwait;
    rewrite backoff_loop_S; cbn zeta;
    pose proof (CallProofs.make_api_call_shape json_loads
                  (fun k => net (network_attempts log + k)%nat)
                  request_kwargs prefix 1 0) as Hcall; cbn zeta in Hcall;
    destruct (Hinner (network_attempts log)) as [e He]; rewrite He in *;
    cbn [fst snd attempts_made delays] in *;
    destruct Hcall as (_ & _ & Hllm & _).
  - destruct (Z.eqb_spec attempt (max_retries - 1)); [|lia].
    exists e. split; [|exact Hllm]. cbn [exponential_delays].
    do 2 f_equal. lia.
  - destruct (Z.eqb_spec attempt (max_retries - 1)); [lia|].
    rewrite (Hwait attempt) by lia.
    match goal with
    | |- context [backoff_loop _ _ _ _ _ _ _ ?a ?l] =>
        destruct (IH a l ltac:(lia)) as (e' & -> & Hllm')
    end.
    { intros a Ha. apply Hwait. lia. }
    exists e'. split; [|exact Hllm']. cbn [network_attempts sleeps].
    f_equal. f_equal; [lia|].
    change (exponential_delays retry_delay pause attempt (S (S n)))
      with (pause ++ (retry_delay * inject_Z (2 ^ attempt))%Q
              :: exponential_delays retry_delay pause (attempt + 1) (S n)).
    rewrite List.map_app. cbn [List.map]. rewrite <- !app_assoc. reflexivity.
Qed.

(** The loop when every turn fails and 1026 turns or more are allowed: it
    ends in the turn number 1024, where the delay cannot be computed. *)
Lemma backoff_loop_overflow (net : nat -> http_outcome)
    (request_kwargs : gmap string pyval) (prefix : string) (max_retries : Z)
    (retry_delay : Q) (made : nat) (pause : list Q) :
  1026 <= max_retries ->
  (forall offset : nat,
     exists e : exn,
       _make_api_call json_loads (fun k => net (offset + k)%nat)
         request_kwargs prefix 1 0
       = (Raise e, mk_call_log made pause)) ->
  (forall a : Z,
     0 <= a <= 1023 ->
     wait_time retry_delay a
     = Ok (Config.Finite (retry_delay * inject_Z (2 ^ a))%Q)) ->
  forall (remaining : nat) (attempt : Z) (log : backoff_log),
    0 <= attempt <= 1024 ->
    Z.of_nat (S remaining) = max_retries - attempt ->
    exists (e : exn) (log' : backoff_log),
      backoff_loop json_loads net request_kwargs prefix max_retries retry_delay
        (S remaining) attempt log
      = (Raises e, log') /\
      cls e = OverflowError /\
      network_attempts log'
      = (network_attempts log + made * Z.to_nat (1025 - attempt))%nat.
Proof.
  intros Hmax Hinner Hwait.
  induction remaining as [|n IH]; intros attempt log Ha Hn; [lia|].
  rewrite backoff_loop_S. cbn zeta.
  destruct (Hinner (network_attempts log)) as [e ->].
  cbn [fst snd attempts_made delays].
  destruct (Z.eqb_spec attempt (max_retries - 1)); [lia|].
  destruct (Z.eq_dec attempt 1024) as [->|Hlt].
  - rewrite wait_time_overflow by lia. do 2 eexists. split; [reflexivity|].
    split; [reflexivity|]. cbn [network_attempts]. change (Z.to_nat (1025 - 1024)) with 1%nat. lia.
  - rewrite (Hwait attempt) by lia.
    match goal with
    | |- context [backoff_loop _ _ _ _ _ _ _ ?a ?l] =>
        destruct (IH a l ltac:(lia) ltac:(lia)) as (e' & log' & -> & Hcls & Hatt)
    end.
    exists e', log'. split; [reflexivity|]. split; [exact Hcls|].
    rewrite Hatt. cbn [network_attempts].
    replace (Z.to_nat (1025 - attempt)) with (S (Z.to_nat (1025 - (attempt + 1))))
      by lia.
    lia.
Qed.

(** X21.  With a delay that is not negative and stays a float in every
    turn: on a network whose attempts all fail, with at most 1025 turns
    allowed, [_make_api_call_with_backoff] raises an LLMError after exactly
    [2 * max_retries] attempts, two in each turn with a sleep of zero
    between them, and it sleeps [retry_delay * 2 ** a] after the turn
    number [a] unless it was the last; a request that fails validation is
    validated again in every turn, with the same sleeps between the turns
    and no network attempt at all; and with 1026 turns or more allowed the
    call ends after 2050 attempts with the OverflowError of the conversion
    of [2 ** 1024] to a float. *)
Theorem backoff_exhausted (net : nat -> http_outcome)
    (request_kwargs : gmap string pyval) (prefix : string) (max_retries : Z)
    (retry_delay : Q) :
  1 <= max_retries ->
  (0 <= retry_delay)%Q ->
  (retry_delay * inject_Z (2 ^ Z.min (max_retries - 2) 1023)
   < inject_Z float_limit)%Q ->
  (max_retries <= 1025 ->
   _validate_request_params request_kwargs = Ok tt ->
   (forall k : nat,
      exists e : exn, attempt_result json_loads (net k) = Raise e) ->
   exists e : exn,
     _make_api_call_with_backoff json_loads net request_kwargs prefix
       max_retries retry_delay
     = (Raises e,
        mk_backoff_log (2 * Z.to_nat max_retries)
          (List.map Config.Finite
             (exponential_delays retry_delay [(0 * inject_Z 1)%Q] 0
                (Z.to_nat max_retries)))) /\
     isinstance e LLMError = true) /\
  (max_retries <= 1025 ->
   _validate_request_params request_kwargs <> Ok tt ->
   exists e : exn,
     _make_api_call_with_backoff json_loads net request_kwargs prefix
       max_retries retry_delay
     = (Raises e,
        mk_backoff_log 0
          (List.map Config.Finite
             (exponential_delays retry_delay [] 0 (Z.to_nat max_retries)))) /\
     isinstance e LLMError = true) /\
  (1026 <= max_retries ->
   _validate_request_params request_kwargs = Ok tt ->
   (forall k : nat,
      exists e : exn, attempt_result json_loads (net k) = Raise e) ->
   exists (e : exn) (log : backoff_log),
     _make_api_call_with_backoff json_loads net request_kwargs prefix
       max_retries retry_delay
     = (Raises e, log) /\
     cls e = OverflowError /\ network_attempts log = 2050%nat).
Proof.
  intros Hmax Hpos Hfloat. unfold _make_api_call_with_backoff.
  assert (Hwait : forall a : Z,
            0 <= a <= Z.min (max_retries - 2) 1023 ->
            wait_time retry_delay a
            = Ok (Config.Finite (retry_delay * inject_Z (2 ^ a))%Q)).
  { intros a Ha. apply wait_time_finite; [exact Hpos | lia |].
    eapply Qle_lt_trans; [|exact Hfloat]. apply delay_grows; [exact Hpos | lia]. }
  destruct (Z.to_nat max_retries) as [|n] eqn:Hn; [lia|].
  split; [|split].
  - intros Hsmall Hreq Hnet.
    destruct (backoff_loop_exhausted net request_kwargs prefix max_retries
                retry_delay 2 (backoff 0 0 1)) with (remaining := n)
      (attempt := 0) (log := mk_backoff_log 0 []) as (e & He & Hllm);
      [| lia | |].
    + intros offset. apply inner_call_fails; [exact Hreq|].
      intros k. apply Hnet.
    + intros a Ha. apply Hwait. lia.
    + exists e. rewrite He. cbn [network_attempts sleeps app].
      split; [reflexivity | exact Hllm].
  - intros Hsmall Hreq.
    destruct (backoff_loop_exhausted net request_kwargs prefix max_retries
                retry_delay 0 []) with (remaining := n)
      (attempt := 0) (log := mk_backoff_log 0 []) as (e & He & Hllm);
      [| lia | |].
    + intros offset. unfold _make_api_call.
      destruct (_validate_request_params request_kwargs) as [[]|e0];
        [now elim Hreq|].
      eexists. reflexivity.
    + intros a Ha. apply Hwait. lia.
    + exists e. rewrite He. cbn [network_attempts sleeps app].
      split; [reflexivity | exact Hllm].
  - intros Hbig Hreq Hnet.
    destruct (backoff_loop_overflow net request_kwargs prefix max_retries
                retry_delay 2 (backoff 0 0 1) Hbig) with (remaining := n)
      (attempt := 0) (log := mk_backoff_log 0 [])
      as (e & log & He & Hcls & Hatt); [| | lia | lia |].
    + intros offset. apply inner_call_fails; [exact Hreq|].
      intros k. apply Hnet.
    + intros a Ha. apply Hwait. lia.
    + exists e, log. split; [exact He|]. split; [exact Hcls|].
      rewrite Hatt. reflexivity.
Qed.

End WithPydantic.

(** X20, witness: no retries allowed, and three allowed on a network that
    never answers. *)
Lemma backoff_attempt_budget_witness :
  _make_api_call_with_backoff (fun _ => None) dead_network hello_request
    "Execution failed" 0 1 = (Returns None, mk_backoff_log 0 []) /\
  settled "Execution failed" 3 1
    (fst (_make_api_call_with_backoff (fun _ => None) dead_network
            hello_request "Execution failed" 3 1)).
Proof.
  split.
  - apply (proj1 (proj2 (backoff_attempt_budget (fun _ => None) dead_network
                           hello_request "Execution failed" 0 1))). lia.
  - apply (proj2 (proj2 (backoff_attempt_budget (fun _ => None) dead_network
                           hello_request "Execution failed" 3 1))). lia.
Defined.

(** X21, witness: on a network that never answers and with a delay of one
    second, three turns; a request with no messages; and 1026 turns. *)
Lemma backoff_exhausted_witness :
  (exists e : exn,
     _make_api_call_with_backoff (fun _ => None) dead_network hello_request
       "Execution failed" 3 1
     = (Raises e,
        mk_backoff_log 6
          (List.map Config.Finite
             [(0 * inject_Z 1)%Q; (1 * inject_Z 1)%Q; (0 * inject_Z 1)%Q;
              (1 * inject_Z 2)%Q; (0 * inject_Z 1)%Q])) /\
     isinstance e LLMError = true) /\
  (exists e : exn,
     _make_api_call_with_backoff (fun _ => None) dead_network ∅
       "Execution failed" 3 1
     = (Raises e,
        mk_backoff_log 0
          (List.map Config.Finite [(1 * inject_Z 1)%Q; (1 * inject_Z 2)%Q])) /\
     isinstance e LLMError = true) /\
  (exists (e : exn) (log : backoff_log),
     _make_api_call_with_backoff (fun _ => None) dead_network hello_request
       "Execution failed" 1026 1
     = (Raises e, log) /\
     cls e = OverflowError /\ network_attempts log = 2050%nat).
Proof.
  assert (Hfloat : forall m : Z,
            m = 1 \/ m = 1023 ->
            (1 * inject_Z (2 ^ m) < inject_Z float_limit)%Q).
  { intros m [-> | ->]; vm_compute; reflexivity. }
  split; [|split].
  - apply (proj1 (backoff_exhausted (fun _ => None) dead_network hello_request
                    "Execution failed" 3 1 ltac:(lia) ltac:(discriminate)
                    (Hfloat 1 (or_introl eq_refl)))).
    + lia.
    + reflexivity.
    + intros k. eexists. reflexivity.
  - apply (proj1 (proj2 (backoff_exhausted (fun _ => None) dead_network ∅
                           "Execution failed" 3 1 ltac:(lia) ltac:(discriminate)
                           (Hfloat 1 (or_introl eq_refl))))).
    + lia.
    + discriminate.
  - apply (proj2 (proj2 (backoff_exhausted (fun _ => None) dead_network
                           hello_request "Execution failed" 1026 1 ltac:(lia)
                           ltac:(discriminate) (Hfloat 1023 (or_intror eq_refl))))).
    + lia.
    + reflexivity.
    + intros k. eexists. reflexivity.
Defined.

End BackoffProofs.

Module StripProofs.
Import PyStr.

Lemma has_char_lstrip (c : ascii) (s : string) :
  has_char c s = false -> has_char c (lstrip s) = false.
Proof.
  induction s as [|a s IH]; [reflexivity|]. cbn [lstrip has_char].
  intros Hs. apply orb_false_iff in Hs as [Ha Hs].
  destruct (isspace a); [auto|]. cbn [has_char]. now rewrite Ha, Hs.
Qed.

Lemma has_char_rstrip (c : ascii) (s : string) :
  has_char c s = false -> has_char c (rstrip s) = false.
Proof.
  induction s as [|a s IH]; [reflexivity|]. cbn [rstrip has_char].
  intros Hs. apply orb_false_iff in Hs as [Ha Hs]. specialize (IH Hs).
  destruct (rstrip s) as [|b r].
  - destruct (isspace a); [reflexivity|]. cbn [has_char]. now rewrite Ha.
  - cbn [has_char] in *. now rewrite Ha, IH.
Qed.

Lemma rstrip_idem (s : string) : rstrip (rstrip s) = rstrip s.
Proof.
  induction s as [|a s IH]; [reflexivity|]. cbn [rstrip].
  destruct (rstrip s) as [|b r] eqn:Hr.
  - destruct (isspace a) eqn:Ha; [reflexivity|]. cbn [rstrip]. now rewrite Ha.
  - cbn [rstrip] in *. rewrite IH. reflexivity.
Qed.

Lemma lstrip_head (s : string) :
  lstrip s = "" \/
  exists (c : ascii) (r : string), lstrip s = String c r /\ isspace c = false.
Proof.
  induction s as [|a s IH]; [now left|]. cbn [lstrip].
  destruct (isspace a) eqn:Ha; [exact IH|]. right. now exists a, s.
Qed.

Lemma rstrip_head (c : ascii) (r : string) :
  isspace c = false -> exists r' : string, rstrip (String c r) = String c r'.
Proof.
  intros Hc. cbn [rstrip]. destruct (rstrip r) as [|b t].
  - rewrite Hc. now exists "".
  - now exists (String b t).
Qed.

Lemma strip_idem (s : string) : strip (strip s) = strip s.
Proof.
  unfold strip. destruct (lstrip_head s) as [->|(c & r & -> & Hc)];
    [reflexivity|].
  destruct (rstrip_head c r Hc) as [r' Hr]. rewrite Hr.
  cbn [lstrip]. rewrite Hc, <- Hr. apply rstrip_idem.
Qed.

Lemma has_char_strip (c : ascii) (s : string) :
  has_char c s = false -> has_char c (strip s) = false.
Proof. intros Hs. now apply has_char_rstrip, has_char_lstrip. Qed.

End StripProofs.

Module ExecutorResponse.
Import Errors PyVal Executor.

Lemma remove_nul_clean (s : string) :
  PyStr.has_char Ascii.zero (remove_nul s) = false.
Proof.
  induction s as [|a s IH]; [reflexivity|]. cbn [remove_nul].
  destruct (Ascii.eqb a Ascii.zero) eqn:Ha; [exact IH|].
  cbn [PyStr.has_char]. now rewrite Ha, IH.
Qed.

Lemma remove_nul_id (s : string) :
  PyStr.has_char Ascii.zero s = false -> remove_nul s = s.
Proof.
  induction s as [|a s IH]; [reflexivity|]. cbn [remove_nul PyStr.has_char].
  intros Hs. apply orb_false_iff in Hs as [Ha Hs]. now rewrite Ha, IH.
Qed.

Lemma validate_text (a : ascii) (text : string) :
  _validate_execution_response (VStr (String a text))
  = if Z.of_nat (String.length (PyStr.strip (remove_nul (String a text)))) <? 10
    then Raise (error ExecutorError
                  "Invalid execution response: Response too short")
    else Ok (PyStr.strip (remove_nul (String a text))).
Proof. reflexivity. Qed.

(** X22.  A response that [_validate_execution_response] returns has at
    least ten characters, holds no NUL character, has no whitespace at
    either end, and is returned unchanged when it is validated again; every
    refusal is an ExecutorError. *)
Theorem execution_response_clean (response : pyval) :
  (forall out : string,
     _validate_execution_response response = Ok out ->
     (10 <= String.length out)%nat /\
     PyStr.has_char Ascii.zero out = false /\
     PyStr.strip out = out /\
     _validate_execution_response (VStr out) = Ok out) /\
  (forall e : exn,
     _validate_execution_response response = Raise e -> cls e = ExecutorError).
Proof.
  split.
  - intros out. destruct response as [|[|a text]| | |]; try discriminate.
    rewrite validate_text.
    pose proof (remove_nul_clean (String a text)) as Hclean. revert Hclean.
    generalize (remove_nul (String a text)) as cleaned. intros cleaned Hclean.
    destruct (Z.ltb_spec (Z.of_nat (String.length (PyStr.strip cleaned))) 10)
      as [|Hlen]; [discriminate|].
    intros Hout. assert (E : out = PyStr.strip cleaned) by congruence.
    clear Hout. subst out.
    assert (Hnul : PyStr.has_char Ascii.zero (PyStr.strip cleaned) = false)
      by now apply StripProofs.has_char_strip.
    pose proof (StripProofs.strip_idem cleaned) as Hstrip.
    split; [lia|]. split; [exact Hnul|]. split; [exact Hstrip|].
    destruct (PyStr.strip cleaned) as [|b rest] eqn:Hout; [cbn in Hlen; lia|].
    rewrite validate_text, (remove_nul_id _ Hnul), Hstrip.
    destruct (Z.ltb_spec (Z.of_nat (String.length (String b rest))) 10);
      [lia | reflexivity].
  - intros e. destruct response as [|[|a text]| | |];
      try (intros [= <-]; reflexivity).
    rewrite validate_text.
    destruct (_ <? 10); [intros [= <-]; reflexivity | discriminate].
Qed.

(** X22, witness: a padded answer with a NUL character in it. *)
Lemma execution_response_clean_witness :
  _validate_execution_response
    (VStr ("  print" +:+ String Ascii.zero "('hello')  "))
  = Ok "print('hello')" /\
  _validate_execution_response (VStr "print('hello')") = Ok "print('hello')".
Proof.
  assert (E : _validate_execution_response
                (VStr ("  print" +:+ String Ascii.zero "('hello')  "))
              = Ok "print('hello')") by reflexivity.
  split; [exact E|].
  apply (proj1 (execution_response_clean _) _ E).
Defined.

End ExecutorResponse.

Module ConfigParamsProofs.
Import Errors Config ConfigParams.

Lemma fne_zero_within (lo hi : Q) (x : pyfloat) :
  between (Finite lo) x (Finite hi) = true -> fne x (Finite 0) = true ->
  nonzero_within lo hi x.
Proof.
  intros Hb Hne. split; [now apply ConfigProofs.between_within|].
  intros (q & -> & Hq). cbn in Hne. apply negb_true_iff in Hne.
  apply Qeq_bool_iff in Hq. congruence.
Qed.

Lemma init_ok_between (c c' : LLMConfig) :
  LLMConfig_init c = Ok c' ->
  c' = c /\
  between (Finite 0) (temperature c) (Finite 2) = true /\
  between (Finite 0) (top_p c) (Finite 1) = true /\
  between (Finite (-2)) (presence_penalty c) (Finite 2) = true /\
  between (Finite (-2)) (frequency_penalty c) (Finite 2) = true.
Proof.
  unfold LLMConfig_init, __post_init__.
  destruct (between (Finite 0) (temperature c) (Finite 2)); [|discriminate].
  destruct (between (Finite 0) (top_p c) (Finite 1)); [|discriminate].
  destruct (between (Finite (-2)) (presence_penalty c) (Finite 2)); [|discriminate].
  destruct (between (Finite (-2)) (frequency_penalty c) (Finite 2)); [|discriminate].
  cbn. intros [= <-]. repeat split.
Qed.

(** X23.  The request parameters of a configuration always hold its model,
    temperature and top_p; max_tokens and top_k exactly when they are set; a
    penalty exactly when it differs from zero; and nothing under any other
    name, so neither the API key nor the provider.  For a configuration
    that was constructed, the temperature and top_p they hold are in range
    and a penalty they hold is in [-2,2] and not zero. *)
Theorem request_params_of_config (c : LLMConfig) :
  let params := to_request_params c in
  params !! "model" = Some (PStr (model c)) /\
  params !! "temperature" = Some (PFloat (temperature c)) /\
  params !! "top_p" = Some (PFloat (top_p c)) /\
  params !! "max_tokens" = PInt <$> max_tokens c /\
  params !! "top_k" = PInt <$> top_k c /\
  params !! "presence_penalty"
  = (if fne (presence_penalty c) (Finite 0)
     then Some (PFloat (presence_penalty c)) else None) /\
  params !! "frequency_penalty"
  = (if fne (frequency_penalty c) (Finite 0)
     then Some (PFloat (frequency_penalty c)) else None) /\
  (forall k : string, k ∉ parameter_names -> params !! k = None) /\
  (LLMConfig_init c = Ok c ->
   within 0 2 (temperature c) /\ within 0 1 (top_p c) /\
   (is_Some (params !! "presence_penalty") ->
    nonzero_within (-2) 2 (presence_penalty c)) /\
   (is_Some (params !! "frequency_penalty") ->
    nonzero_within (-2) 2 (frequency_penalty c))).
Proof.
  cbn zeta.
  assert (Hlookups :
    to_request_params c !! "model" = Some (PStr (model c)) /\
    to_request_params c !! "temperature" = Some (PFloat (temperature c)) /\
    to_request_params c !! "top_p" = Some (PFloat (top_p c)) /\
    to_request_params c !! "max_tokens" = PInt <$> max_tokens c /\
    to_request_params c !! "top_k" = PInt <$> top_k c /\
    to_request_params c !! "presence_penalty"
    = (if fne (presence_penalty c) (Finite 0)
       then Some (PFloat (presence_penalty c)) else None) /\
    to_request_params c !! "frequency_penalty"
    = (if fne (frequency_penalty c) (Finite 0)
       then Some (PFloat (frequency_penalty c)) else None) /\
    (forall k : string, k ∉ parameter_names -> to_request_params c !! k = None)).
  { unfold to_request_params, parameter_names.
    destruct (max_tokens c), (top_k c), (fne (presence_penalty c) (Finite 0)),
      (fne (frequency_penalty c) (Finite 0));
      repeat (split; [simplify_map_eq; reflexivity|]);
      intros k Hk; rewrite !elem_of_cons, elem_of_nil in Hk;
      rewrite ?lookup_insert_ne by (intros E; apply Hk; rewrite <- E; auto 10);
      apply lookup_empty. }
  destruct Hlookups as (Hm & Ht & Hp & Hmax & Hk & Hpp & Hfp & Hother).
  repeat (split; [assumption|]).
  intros Hinit. apply init_ok_between in Hinit as (_ & Bt & Bp & Bpp & Bfp).
  split; [now apply ConfigProofs.between_within|].
  split; [now apply ConfigProofs.between_within|].
  rewrite Hpp, Hfp. split.
  - destruct (fne (presence_penalty c) (Finite 0)) eqn:E;
      [intros _; now apply fne_zero_within | intros [? [=]]].
  - destruct (fne (frequency_penalty c) (Finite 0)) eqn:E;
      [intros _; now apply fne_zero_within | intros [? [=]]].
Qed.

(** X23, witness: the default executor configuration. *)
Lemma request_params_of_config_witness :
  to_request_params (EXECUTOR_CONFIG "sk-1" "") !! "api_key" = None /\
  within 0 2 (temperature (EXECUTOR_CONFIG "sk-1" "")).
Proof.
  pose proof (request_params_of_config (EXECUTOR_CONFIG "sk-1" ""))
    as (_ & _ & _ & _ & _ & _ & _ & Hother & Hinit).
  split.
  - apply Hother. unfold parameter_names.
    rewrite !elem_of_cons, elem_of_nil.
    intros [E|[E|[E|[E|[E|[E|[E|[]]]]]]]]; discriminate E.
  - exact (proj1 (Hinit eq_refl)).
Defined.

(** X24.  An [LLMConfig] is constructed exactly when its temperature is in
    [0,2], its top_p in [0,1] and both penalties in [-2,2], NaN and the
    infinities being outside; the object then holds the fields as given.
    The three default configurations are constructed whatever the API key
    and the site URL read from the environment. *)
Theorem config_constructed_exactly (c c' : LLMConfig) :
  (LLMConfig_init c = Ok c' <->
   c' = c /\ within 0 2 (temperature c) /\ within 0 1 (top_p c) /\
   within (-2) 2 (presence_penalty c) /\ within (-2) 2 (frequency_penalty c)) /\
  (forall api_key site_url : string,
     LLMConfig_init (REASONING_CONFIG api_key site_url)
     = Ok (REASONING_CONFIG api_key site_url) /\
     LLMConfig_init (PLANNING_CONFIG api_key site_url)
     = Ok (PLANNING_CONFIG api_key site_url) /\
     LLMConfig_init (EXECUTOR_CONFIG api_key site_url)
     = Ok (EXECUTOR_CONFIG api_key site_url)).
Proof.
  split; [split|].
  - intros Hinit. apply init_ok_between in Hinit as (-> & Bt & Bp & Bpp & Bfp).
    rewrite <- !ConfigProofs.between_within. auto.
  - intros (-> & Ht & Hp & Hpp & Hfp).
    now apply ConfigProofs.LLMConfig_init_in_range.
  - intros api_key site_url. repeat split.
Qed.

End ConfigParamsProofs.

Module AgentContextProofs.
Import Errors PyVal Agent AgentSpec.

Lemma add_dict_holds_fields (v : AgentContext) (m : Base.BaseLLMModule) :
  holds_fields v m
    (Base.mk_BaseLLMModule (Base.config m) (dict v ∪ Base.context m)
       (Base._session m)).
Proof.
  unfold holds_fields, dict, field_names. cbn [Base.context Base.config].
  repeat (split; [apply lookup_union_Some_l; simplify_map_eq; reflexivity|]).
  split; [|reflexivity].
  intros k Hk. rewrite !elem_of_cons, elem_of_nil in Hk.
  apply lookup_union_r.
  rewrite ?lookup_insert_ne by (intros E; apply Hk; rewrite <- E; auto 10).
  apply lookup_empty.
Qed.

(** X25.  When the agent's [add_context] succeeds, the mapping was
    validated as an [AgentContext], the agent remembers it, and each of the
    three modules holds its four fields and, under every other name, what
    it held before: a key of the mapping that is no field reaches no
    module.  It succeeds whenever the three required fields are strings and
    [additional_context] is absent. *)
Theorem add_context_success `{Pydantic} (context : gmap string pyval)
    (self : MultiLLMAgent) :
  (forall self' : MultiLLMAgent,
     add_context context self = (Ok tt, self') ->
     exists v : AgentContext,
       AgentContext_init context = Ok v /\
       _context self' = Some v /\
       holds_fields v (reasoning self) (reasoning self') /\
       holds_fields v (planner self) (planner self') /\
       holds_fields v (executor self) (executor self')) /\
  (forall d e p : string,
     context !! "domain" = Some (VStr d) ->
     context !! "expertise_level" = Some (VStr e) ->
     context !! "preferred_language" = Some (VStr p) ->
     context !! "additional_context" = None ->
     exists self' : MultiLLMAgent,
       add_context context self = (Ok tt, self') /\
       _context self' = Some (mk_AgentContext d e p ∅)).
Proof.
  split.
  - intros self'. unfold add_context.
    destruct (AgentContext_init context) as [v|e]; [|discriminate].
    cbn. intros [= <-]. exists v. cbn.
    split; [reflexivity|]. split; [reflexivity|].
    repeat split; apply add_dict_holds_fields.
  - intros d e p Hd He Hp Ha. unfold add_context, AgentContext_init.
    rewrite Hd, He, Hp, Ha, !str_validator_str. cbn.
    eexists. split; reflexivity.
Qed.

(** X25, witness: the context of example.py with one key more, on the
    default agent. *)
Lemma add_context_success_witness :
  exists self' : MultiLLMAgent,
    add_context noisy_context fresh_agent = (Ok tt, self') /\
    Base.context (planner self') !! "domain"
    = Some (VStr "software development") /\
    Base.context (planner self') !! "user_context" = None.
Proof.
  destruct (proj2 (add_context_success noisy_context fresh_agent)
              "software development" "intermediate" "python"
              eq_refl eq_refl eq_refl eq_refl) as (self' & Hadd & _).
  exists self'. split; [exact Hadd|].
  destruct (proj1 (add_context_success noisy_context fresh_agent) self' Hadd)
    as (v & Hv & _ & _ & (Hdomain & _ & _ & _ & Hother & _) & _).
  injection Hv as <-. split; [exact Hdomain|].
  rewrite Hother; [reflexivity|]. unfold field_names.
  rewrite !elem_of_cons, elem_of_nil.
  intros [E|[E|[E|[E|[]]]]]; discriminate E.
Defined.

End AgentContextProofs.

Module Base64Tests.
Import ImageHandler.

(** The test vectors of RFC 4648. *)
Example b64encode_f : b64encode "f" = "Zg==".
Proof. reflexivity. Qed.

Example b64encode_fo : b64encode "fo" = "Zm8=".
Proof. reflexivity. Qed.

Example b64encode_foobar : b64encode "foobar" = "Zm9vYmFy".
Proof. reflexivity. Qed.

End Base64Tests.

Module ImageHandlerProofs.
Import Errors ImageHandler.

(** X26.  [validate_image] returns [True] exactly for a file that exists,
    has at most 20 MiB and is recognised as jpeg, png, gif or webp; it
    never returns [False]; and what it raises is a ValueError of its own
    or the error that [Path.exists], [stat] or [imghdr.what] raised, as
    for a directory. *)
Theorem validate_image_exactly (image_path : string) (listing : list string)
    (f : file_obs) :
  (validate_image image_path listing f = Ok true <->
   path_exists f = Ok true /\
   (exists size : Z, st_size f = Ok size /\ size <= 20971520) /\
   exists img_format : string,
     imghdr_what f = Ok (Some img_format) /\
     img_format ∈ ["jpeg"; "png"; "gif"; "webp"]) /\
  validate_image image_path listing f <> Ok false /\
  (forall e : exn,
     validate_image image_path listing f = Raise e ->
     cls e = ValueError \/ path_exists f = Raise e \/ st_size f = Raise e \/
     imghdr_what f = Raise e).
Proof.
  unfold validate_image.
  destruct (path_exists f) as [[|]|e0];
    [| split; [split; [discriminate | intros [[=] _]]
              |split; [discriminate | intros e [= <-]; now left]]
     | split; [split; [discriminate | intros [[=] _]]
              |split; [discriminate | intros e [= <-]; auto]]].
  destruct (st_size f) as [size|e1];
    [|split; [split; [discriminate | intros (_ & (? & [=] & _) & _)]
             |split; [discriminate | intros e [= <-]; auto]]].
  change MAX_IMAGE_SIZE with 20971520.
  destruct (Z.gtb_spec size 20971520);
    [split; [split; [discriminate | intros (_ & (? & [= <-] & ?) & _); lia]
            |split; [discriminate | intros e [= <-]; now left]]|].
  destruct (imghdr_what f) as [[img_format|]|e2];
    [| split; [split; [discriminate | intros (_ & _ & ? & [=] & _)]
              |split; [discriminate | intros e [= <-]; now left]]
     | split; [split; [discriminate | intros (_ & _ & ? & [=] & _)]
              |split; [discriminate | intros e [= <-]; auto]]].
  assert (Hset : img_format ∈ SUPPORTED_FORMATS <->
                 img_format ∈ ["jpeg"; "png"; "gif"; "webp"]).
  { unfold SUPPORTED_FORMATS. rewrite !elem_of_union, !elem_of_singleton,
      !elem_of_cons, elem_of_nil. tauto. }
  destruct (negb (PyStr.truthy img_format)
            || negb (bool_decide (img_format ∈ SUPPORTED_FORMATS))) eqn:Hbad.
  - split; [|split; [discriminate | intros e [= <-]; now left]].
    split; [discriminate|]. intros (_ & _ & fmt & [= <-] & Hin).
    apply orb_true_iff in Hbad as [Hempty|Hout].
    + destruct img_format; [|discriminate Hempty].
      rewrite !elem_of_cons, elem_of_nil in Hin.
      destruct Hin as [E|[E|[E|[E|[]]]]]; discriminate E.
    + apply negb_true_iff, bool_decide_eq_false in Hout. tauto.
  - split; [|split; discriminate].
    split; [|reflexivity]. intros _. split; [reflexivity|].
    split; [exists size; split; [reflexivity | lia]|].
    exists img_format. split; [reflexivity|].
    apply orb_false_iff in Hbad as [_ Hin].
    apply negb_false_iff, bool_decide_eq_true in Hin. tauto.
Qed.

(** X26, witness: a PNG of 4 kB, and a directory. *)
Lemma validate_image_exactly_witness :
  validate_image "photo.png" ["png"; "gif"; "jpeg"; "webp"] photo = Ok true /\
  exists e : exn,
    validate_image "photos" ["png"; "gif"; "jpeg"; "webp"] folder = Raise e /\
    imghdr_what folder = Raise e.
Proof.
  split.
  - apply (proj1 (validate_image_exactly "photo.png" _ photo)).
    split; [reflexivity|]. split; [exists 4096; split; [reflexivity | lia]|].
    exists "png". split; [reflexivity|]. rewrite !elem_of_cons. auto.
  - eexists. split; [reflexivity|].
    destruct (proj2 (proj2 (validate_image_exactly "photos"
                              ["png"; "gif"; "jpeg"; "webp"] folder))
                _ eq_refl) as [E|[E|[E|E]]];
      [discriminate E | discriminate E | discriminate E | exact E].
Defined.

(** X27.  With a [max_dimension] that is neither [None] nor zero, the
    default of 2048 included, [encode_image] never returns: whatever the
    file and whatever PIL does, it raises a ValueError; for a valid file
    that opens, with a side that is not zero and a quotient that is a
    float, the message is that of [min] applied to one float.  Every error
    [encode_image] raises is a ValueError whose message starts with
    "Failed to process image: ", and everything it returns starts with
    "data:". *)
Theorem encode_image_resizing_fails (image_path : string)
    (listing : list string) (f : file_obs) (opened : string + image)
    (max_dimension : option Z) (saved : string + string)
    (mime_type : option string) :
  let run := encode_image image_path listing f opened max_dimension saved
               mime_type in
  (forall n : Z,
     max_dimension = Some n -> n <> 0 ->
     (exists e : exn, run = Raise e) /\
     (forall img : image,
        validate_image image_path listing f = Ok true ->
        opened = inr img ->
        Z.max (fst (size img)) (snd (size img)) <> 0 ->
        too_large_for_float n (Z.max (fst (size img)) (snd (size img))) = false ->
        run = Raise (error ValueError
                       "Failed to process image: 'float' object is not iterable"))) /\
  (forall e : exn,
     run = Raise e ->
     cls e = ValueError /\
     PyStr.startswith "Failed to process image: " (message e) = true) /\
  (forall uri : string,
     run = Ok uri ->
     PyStr.startswith "data:" uri = true /\
     (max_dimension = None \/ max_dimension = Some 0)).
Proof.
  cbn zeta. unfold encode_image. split; [|split].
  - intros n -> Hn. destruct (Z.eqb_spec n 0) as [|_]; [contradiction|]. split.
    + destruct (validate_image image_path listing f); [|eexists; reflexivity].
      destruct opened as [e|img]; [eexists; reflexivity|].
      cbn zeta. destruct (Z.max _ _ =? 0); [eexists; reflexivity|].
      destruct (too_large_for_float _ _); eexists; reflexivity.
    + intros img -> -> Hside Hfloat. cbn zeta.
      destruct (Z.eqb_spec (Z.max (fst (size img)) (snd (size img))) 0);
        [contradiction|].
      now rewrite Hfloat.
  - intros e.
    match goal with
    | |- match ?b with _ => _ end = _ -> _ => destruct b as [msg|uri]
    end; [|discriminate].
    intros [= <-]. split; [reflexivity|].
    apply (CallProofs.startswith_app "Failed to process image: " msg).
  - intros uri.
    destruct (validate_image image_path listing f); [|discriminate].
    destruct opened as [e|img]; [discriminate|].
    assert (Hdata : forall m rest : string,
               PyStr.startswith "data:" ("data:" +:+ m +:+ rest) = true)
      by (intros m rest; apply (CallProofs.startswith_app "data:")).
    destruct max_dimension as [n|].
    + cbn zeta. destruct (Z.eqb_spec n 0) as [->|_];
        [|destruct (Z.max _ _ =? 0);
          [|destruct (too_large_for_float _ _)]; discriminate].
      destruct saved as [e|image_data]; [discriminate|].
      intros [= <-]. split; [apply Hdata | now right].
    + destruct saved as [e|image_data]; [discriminate|].
      intros [= <-]. split; [apply Hdata | now left].
Qed.

(** X27, witness: the default [max_dimension] on a valid PNG of 800 by
    600 pixels. *)
Lemma encode_image_resizing_fails_witness :
  encode_image "photo.png" ["png"; "gif"; "jpeg"; "webp"] photo
    (inr (mk_image (800, 600) "RGB")) (Some 2048) (inr "JFIF")
    (Some "image/png")
  = Raise (error ValueError
             "Failed to process image: 'float' object is not iterable").
Proof.
  apply (proj2 (proj1 (encode_image_resizing_fails "photo.png"
                         ["png"; "gif"; "jpeg"; "webp"] photo
                         (inr (mk_image (800, 600) "RGB")) (Some 2048)
                         (inr "JFIF") (Some "image/png"))
                  2048 eq_refl ltac:(lia))
           (mk_image (800, 600) "RGB")).
  - reflexivity.
  - reflexivity.
  - cbn. lia.
  - vm_compute. reflexivity.
Defined.

End ImageHandlerProofs.

Module PlannerSteps.
Import Errors Planner PlannerSpec.

Lemma split_single_line (s : string) :
  Forall single_line (PyStr.split PyStr.newline s).
Proof.
  unfold single_line. induction s as [|c s IH]; cbn [PyStr.split].
  - repeat constructor.
  - destruct (Ascii.eqb c PyStr.newline) eqn:Hc.
    + constructor; [reflexivity | exact IH].
    + destruct (PyStr.split PyStr.newline s) as [|h t].
      * repeat constructor. cbn. now rewrite Hc.
      * inversion IH as [|? ? Hh Ht]; subst. constructor; [|exact Ht].
        cbn [PyStr.has_char]. now rewrite Hc, Hh.
Qed.

Lemma plan_lines_single_line (content : string) :
  Forall single_line (plan_lines content).
Proof.
  unfold plan_lines. apply List.Forall_forall. intros line Hin.
  apply in_map_iff in Hin as (raw & <- & Hraw).
  apply filter_In in Hraw as [Hraw _].
  apply StripProofs.has_char_strip.
  exact (proj1 (List.Forall_forall _ _) (split_single_line content) raw Hraw).
Qed.

Lemma splitn_single_line (sep : ascii) (s : string) :
  forall n : nat, single_line s -> Forall single_line (PyStr.splitn sep s n).
Proof.
  unfold single_line. induction s as [|c s IH]; intros n Hs; cbn [PyStr.splitn].
  - repeat constructor.
  - destruct n as [|k]; [repeat constructor; exact Hs|].
    cbn [PyStr.has_char] in Hs. apply orb_false_iff in Hs as [Hc Hs].
    destruct (Ascii.eqb c sep).
    + constructor; [reflexivity | now apply IH].
    + specialize (IH (S k) Hs).
      destruct (PyStr.splitn sep s (S k)) as [|h t].
      * repeat constructor. cbn. now rewrite Hc.
      * inversion IH as [|? ? Hh Ht]; subst. constructor; [|exact Ht].
        cbn [PyStr.has_char]. now rewrite Hc, Hh.
Qed.

Lemma last_item_single_line (l : list string) :
  Forall single_line l -> single_line (PyStr.last_item l).
Proof.
  unfold PyStr.last_item. induction 1 as [|x l Hx Hl IH]; [reflexivity|].
  destruct l; [exact Hx | exact IH].
Qed.

Lemma step_text_single_line (line : string) :
  single_line line -> single_line (step_text line).
Proof.
  intros Hl. unfold step_text.
  apply StripProofs.has_char_strip, last_item_single_line, splitn_single_line,
    last_item_single_line, splitn_single_line, Hl.
Qed.

Lemma join_single_line (l : list string) :
  Forall single_line l -> single_line (PyStr.join " " l).
Proof.
  unfold single_line. induction 1 as [|x l Hx Hl IH]; [reflexivity|].
  cbn [PyStr.join]. destruct l as [|y l']; [exact Hx|].
  rewrite !PlannerProofs.has_char_app, Hx, IH. reflexivity.
Qed.

Lemma flush_single_line (steps cur : list string) :
  Forall single_line steps -> Forall single_line cur ->
  Forall single_line (flush steps cur).
Proof.
  intros Hs Hc. unfold flush. destruct cur as [|x cur']; [exact Hs|].
  apply Forall_app. split; [exact Hs|].
  constructor; [now apply join_single_line | constructor].
Qed.

Lemma loop_single_line (lines : list string) :
  Forall single_line lines ->
  forall st : list string * list string,
    Forall single_line (fst st) -> Forall single_line (snd st) ->
    Forall single_line (fst (fold_left loop_body lines st)) /\
    Forall single_line (snd (fold_left loop_body lines st)).
Proof.
  induction 1 as [|line rest Hl Hrest IH]; intros [steps cur] Hs Hc;
    cbn [fold_left]; [now split|].
  apply IH; unfold loop_body; destruct (starts_step line); cbn [fst snd] in *.
  - now apply flush_single_line.
  - exact Hs.
  - constructor; [now apply step_text_single_line | constructor].
  - apply Forall_app. split; [exact Hc | now repeat constructor].
Qed.

(** X28.  The steps [_parse_plan] returns are at least one, and none of
    them holds a line break: each step is one line of text, whatever the
    response was. *)
Theorem parse_plan_single_lines (content : string) (steps : list string) :
  _parse_plan content = Ok steps ->
  steps <> [] /\ Forall single_line steps.
Proof.
  unfold _parse_plan.
  destruct (loop_single_line (plan_lines content)
              (plan_lines_single_line content) ([], []))
    as [Hs Hc]; [constructor | constructor |].
  destruct (fold_left loop_body (plan_lines content) ([], [])) as [done cur].
  cbn [fst snd] in *.
  pose proof (flush_single_line done cur Hs Hc) as Hflush.
  destruct (flush done cur) as [|s rest]; [discriminate|].
  intros [= <-]. split; [discriminate | exact Hflush].
Qed.

(** X28, witness: a plan whose first step runs over two lines. *)
Lemma parse_plan_single_lines_witness :
  _parse_plan dashed_plan
  = Ok ["- Check forecast for tomorrow"; "- Report result"] /\
  Forall single_line ["- Check forecast for tomorrow"; "- Report result"].
Proof.
  assert (E : _parse_plan dashed_plan
              = Ok ["- Check forecast for tomorrow"; "- Report result"])
    by reflexivity.
  split; [exact E|]. exact (proj2 (parse_plan_single_lines _ _ E)).
Defined.

(** X29.  An opening line that holds neither a dot nor a closing
    parenthesis gives itself as the text of its step: a dash that marks a
    step is kept in the step. *)
Theorem step_text_keeps_dash (line : string) :
  PyStr.has_char "." line = false ->
  PyStr.has_char ")" line = false ->
  step_text line = PyStr.strip line.
Proof.
  intros Hdot Hparen. unfold step_text.
  rewrite (PlannerProofs.splitn_no_sep "." line 1 Hdot).
  cbn [PyStr.last_item List.last].
  rewrite (PlannerProofs.splitn_no_sep ")" line 1 Hparen). reflexivity.
Qed.

(** X29, witness: a dashed line. *)
Lemma step_text_keeps_dash_witness :
  starts_step "- Report result" = true /\
  step_text "- Report result" = "- Report result".
Proof.
  split; [reflexivity|].
  apply (step_text_keeps_dash "- Report result"); reflexivity.
Defined.

End PlannerSteps.

Module CacheKeyProofs.
Import CacheControl CachePolicy.

Lemma length_app (a b : string) :
  String.length (a +:+ b) = (String.length a + String.length b)%nat.
Proof.
  induction a as [|c a IH]; [reflexivity|].
  change (String c a +:+ b) with (String c (a +:+ b)).
  cbn [String.length]. now rewrite IH.
Qed.

Lemma all_hex_app (a b : string) :
  all_hex (a +:+ b) = all_hex a && all_hex b.
Proof.
  induction a as [|c a IH]; [reflexivity|].
  change (String c a +:+ b) with (String c (a +:+ b)).
  cbn [all_hex]. now rewrite IH, andb_assoc.
Qed.

Lemma hex_digit_is_hex (x : Z) : is_hex (SHA256.hex_digit (Z.land x 15)) = true.
Proof.
  change 15 with (Z.ones 4). rewrite Z.land_ones by lia.
  pose proof (Z.mod_pos_bound x (2 ^ 4) ltac:(lia)) as Hb.
  set (v := x mod 2 ^ 4) in *.
  assert (Hv : v = 0 \/ v = 1 \/ v = 2 \/ v = 3 \/ v = 4 \/ v = 5 \/ v = 6 \/
               v = 7 \/ v = 8 \/ v = 9 \/ v = 10 \/ v = 11 \/ v = 12 \/
               v = 13 \/ v = 14 \/ v = 15) by lia.
  clearbody v.
  repeat (destruct Hv as [->|Hv]; [reflexivity|]). subst v. reflexivity.
Qed.

Lemma hex_shape (n : nat) :
  forall x : Z,
    String.length (SHA256.hex n x) = n /\ all_hex (SHA256.hex n x) = true.
Proof.
  induction n as [|k IH]; intros x; [now split|].
  cbn [SHA256.hex]. destruct (IH (Z.shiftr x 4)) as [Hlen Hhex].
  rewrite length_app, all_hex_app, Hlen, Hhex. cbn [String.length all_hex].
  rewrite hex_digit_is_hex. split; [lia | reflexivity].
Qed.

Lemma hexdigest_shape (msg : list Z) :
  String.length (SHA256.hexdigest msg) = 64%nat /\
  all_hex (SHA256.hexdigest msg) = true.
Proof.
  unfold SHA256.hexdigest, SHA256.digest_words. cbn [fold_right].
  rewrite !length_app, !all_hex_app.
  repeat match goal with
         | |- context [SHA256.hex 8 ?w] =>
             let Hl := fresh "Hl" in
             let Hh := fresh "Hh" in
             destruct (hex_shape 8 w) as [Hl Hh]; rewrite Hl, Hh; clear Hl Hh
         end.
  split; reflexivity.
Qed.

Lemma prefix_shape (n : nat) :
  forall s : string,
    (n <= String.length s)%nat -> all_hex s = true ->
    String.length (PyStr.prefix n s) = n /\ all_hex (PyStr.prefix n s) = true.
Proof.
  induction n as [|k IH]; intros s Hlen Hs; [now split|].
  destruct s as [|c s]; [cbn in Hlen; lia|].
  cbn [PyStr.prefix String.length all_hex] in *.
  apply andb_true_iff in Hs as [Hc Hs].
  destruct (IH s ltac:(lia) Hs) as [Hl Hh]. now rewrite Hl, Hh, Hc.
Qed.

(** X13.  Every cache key is its prefix followed by sixteen lower-case
    hexadecimal digits: "response_" for the key of a response, the role and
    an underscore for the key of a message.  So a response key is 25
    characters of letters, digits and underscore, whatever the messages
    hold. *)
Theorem cache_keys_are_hex :
  (forall messages : list (gmap string string),
     exists digits : string,
       response_key messages = "response_" +:+ digits /\
       String.length digits = 16%nat /\ all_hex digits = true) /\
  (forall content role : string,
     exists digits : string,
       _calculate_cache_key content role = role +:+ "_" +:+ digits /\
       String.length digits = 16%nat /\ all_hex digits = true).
Proof.
  split.
  - intros messages. unfold response_key. eexists. split; [reflexivity|].
    destruct (hexdigest_shape (SHA256.encode (Json.dumps_list messages)))
      as [Hl Hh].
    apply prefix_shape; [lia | exact Hh].
  - intros content role. unfold _calculate_cache_key.
    eexists. split; [reflexivity|].
    destruct (hexdigest_shape (SHA256.encode content)) as [Hl Hh].
    apply prefix_shape; [lia | exact Hh].
Qed.

End CacheKeyProofs.
